(** * PolyMM: the Polymarket liquidity bot of [basicMM.py]

    A shallow embedding of the class [PolymarketLiquidityBot] and the
    properties of its quoting loop, order registry and PnL accounting.

    Conventions of the embedding.
    - Python [float] values (prices, sizes, PnL figures) are exact rationals
      [Q], and equalities between computed amounts are stated with [==]
      ([Qeq]).  Where the last digits that Python computes matter, in the
      sums of [get_pnl], the computation is also given on binary64 numbers
      (module [Binary64]).
    - A Python [dict] with a fixed set of keys is a record; a key that may be
      absent (read with [.get]) is an [option] field.
    - A method is a computation in the monad [M state], which threads the
      bot object together with the remote exchange and may raise; a
      [try ... except Exception] block is [try_except].  State changes made
      before a raise persist, as they do in Python.
    - [time.time()] and [datetime.datetime.now()] read a clock counted in
      whole seconds that only [time.sleep] advances: the calls to the
      exchange take no time.
    - [self.get_market_min_size], which the class calls but does not
      define, is a parameter of the methods that reach it; what the class
      does as it is written is obtained with [missing_get_market_min_size],
      which raises. *)

From Stdlib Require Import QArith Qminmax Qround ZArith List String Bool Lia.
From Stdlib Require Import Permutation Sorted Lqa.
From Stdlib Require Import PrimFloat.
Import ListNotations.

Open Scope string_scope.
Open Scope list_scope.
Open Scope Q_scope.

(** ** Python primitives *)

Module Py.

Definition Qlt_bool (x y : Q) : bool := negb (Qle_bool y x).

(** [max(a, b)]: the first argument unless the second is strictly larger. *)
Definition max (a b : Q) : Q := if Qlt_bool a b then b else a.

(** [min(a, b)]: the first argument unless the second is strictly smaller. *)
Definition min (a b : Q) : Q := if Qlt_bool b a then b else a.

(** Outcome of evaluating an expression: a value or a raised exception,
    of which only the message [str(e)] is kept. *)
Inductive result (A : Type) : Type :=
| Ok (a : A)
| Raise (e : string).
Arguments Ok {A} a.
Arguments Raise {A} e.

Fixpoint max_from {A : Type} (key : A -> Q) (best : A) (rest : list A) : A :=
  match rest with
  | [] => best
  | x :: rest' => max_from key (if Qlt_bool (key best) (key x) then x else best) rest'
  end.

Fixpoint min_from {A : Type} (key : A -> Q) (best : A) (rest : list A) : A :=
  match rest with
  | [] => best
  | x :: rest' => min_from key (if Qlt_bool (key x) (key best) then x else best) rest'
  end.

(** [max(iterable, key=...)]: the first item whose key is largest. *)
Definition max_key {A : Type} (l : list A) (key : A -> Q) : result A :=
  match l with
  | [] => Raise "max() arg is an empty sequence"
  | x :: rest => Ok (max_from key x rest)
  end.

(** [min(iterable, key=...)]: the first item whose key is smallest. *)
Definition min_key {A : Type} (l : list A) (key : A -> Q) : result A :=
  match l with
  | [] => Raise "min() arg is an empty sequence"
  | x :: rest => Ok (min_from key x rest)
  end.

(** Round to the nearest integer, ties to the even one. *)
Definition round_half_even (x : Q) : Z :=
  let n := Qfloor x in
  let r := x - inject_Z n in
  if Qlt_bool r 0.5 then n
  else if Qlt_bool 0.5 r then (n + 1)%Z
  else if Z.even n then n else (n + 1)%Z.

(** [round(x, 2)], on the exact value of [x]: ties go to the even
    hundredth.  Python rounds the binary64 number that stands for [x],
    which is hardly ever a tie, so the two may differ by one hundredth on
    a decimal that ends in 5. *)
Definition round2 (x : Q) : Q := inject_Z (round_half_even (x * 100)) / 100.

(** Truth value of a number: anything but zero. *)
Definition truthy (x : Q) : bool := negb (Qeq_bool x 0).

(** Truth value of [d.get(k)] for a string-valued key: present and not
    the empty string. *)
Definition truthy_str (v : option string) : bool :=
  match v with
  | Some s => negb (s =? "")%string
  | None => false
  end.

Definition is_empty {A : Type} (l : list A) : bool :=
  match l with [] => true | _ => false end.

(** [s[-n:]]: the last [n] characters of [s] (all of it when shorter). *)
Definition last_chars (n : nat) (s : string) : string :=
  substring (String.length s - n) n s.

(** [sep.join(items)]. *)
Fixpoint join (sep : string) (items : list string) : string :=
  match items with
  | [] => ""
  | [x] => x
  | x :: rest => x ++ sep ++ join sep rest
  end.

End Py.

Import Py.

(** ** The state-and-exception monad *)

Definition M (S A : Type) : Type := S -> result A * S.

Definition ret {S A : Type} (a : A) : M S A := fun s => (Ok a, s).

Definition raise {S A : Type} (e : string) : M S A := fun s => (Raise e, s).

Definition bind {S A B : Type} (m : M S A) (k : A -> M S B) : M S B :=
  fun s =>
    match m s with
    | (Ok a, s') => k a s'
    | (Raise e, s') => (Raise e, s')
    end.

(** [try: body  except Exception as e: handler e]. *)
Definition try_except {S A : Type} (body : M S A) (handler : string -> M S A) : M S A :=
  fun s =>
    match body s with
    | (Ok a, s') => (Ok a, s')
    | (Raise e, s') => handler e s'
    end.

Definition lift_result {S A : Type} (r : result A) : M S A := fun s => (r, s).

Definition gets {S A : Type} (f : S -> A) : M S A := fun s => (Ok (f s), s).

Definition modify {S : Type} (f : S -> S) : M S unit := fun s => (Ok tt, f s).

(** Run a computation on the first component of a pair; the second
    component holds the local variables of the running method. *)
Definition on_self {S L A : Type} (m : M S A) : M (S * L) A :=
  fun sl => let (r, s') := m (fst sl) in (r, (s', snd sl)).

Declare Scope monad_scope.
Delimit Scope monad_scope with monad.
Notation "x <- m ;; k" := (bind m (fun x => k))
  (at level 61, m at next level, right associativity) : monad_scope.
Notation "m ;;; k" := (bind m (fun _ => k))
  (at level 61, right associativity) : monad_scope.
Open Scope monad_scope.

(** ** Data model *)

(** [BUY] and [SELL] of [py_clob_client.order_builder.constants]. *)
Inductive Side : Type := BUY | SELL.

Definition Side_eqb (a b : Side) : bool :=
  match a, b with
  | BUY, BUY | SELL, SELL => true
  | _, _ => false
  end.

(** An open order as [client.get_orders] lists it; [oo_price] is
    [float(order['price'])]. *)
Record open_order : Type := {
  oo_side : string;
  oo_price : Q
}.

(** A fill as [client.get_trades] lists it; sizes and prices are the
    [float(...)] of the fields. *)
Record trade : Type := {
  trade_status : string;
  trade_side : string;
  trade_size : Q;
  trade_price : Q
}.

(** [OrderArgs] of [py_clob_client.clob_types]. *)
Record OrderArgs : Type := {
  oa_price : Q;
  oa_size : Q;
  oa_side : Side;
  oa_token_id : string;
  oa_fee_rate_bps : Z
}.

(** The output of [client.create_order]. *)
Record SignedOrder : Type := {
  so_args : OrderArgs;
  so_signature : string
}.

(** A response dictionary of the exchange: the keys the bot reads or
    writes. *)
Record Resp : Type := {
  orderID : option string;
  success : option bool;
  errorMsg : option string;
  canceled : option (list string)
}.

(** [{'success': False, 'errorMsg': str(e)}]. *)
Definition failure_resp (e : string) : Resp :=
  {| orderID := None; success := Some false; errorMsg := Some e; canceled := None |}.

(** An entry of [self.orders]. *)
Record order_info : Type := {
  id : string;
  market_id : string;
  token_id : string;
  side : Side;
  size : Q;
  price : Q;
  time : Z;
  status : string
}.

Definition LIVE : string := "live".
Definition CANCELED : string := "canceled".

Definition set_status (st : string) (o : order_info) : order_info :=
  {| id := id o; market_id := market_id o; token_id := token_id o;
     side := side o; size := size o; price := price o; time := time o;
     status := st |}.

(** A market of [client.get_sampling_simplified_markets]: its condition id,
    the outcomes of its tokens and the description the bot adds. *)
Record market : Type := {
  condition_id : string;
  outcomes : list string;
  description : option string
}.

(** An entry of [self.pnl_history]. *)
Record snapshot : Type := {
  timestamp : Z;
  realized_pnl : Q;
  rewards : Q;
  total_pnl : Q
}.

(** ** The bot *)

Section Bot.

(** State of the remote exchange, as seen through [self.client]. *)
Variable E : Type.

(** [OrderType] of [py_clob_client.clob_types]; the bot only posts
    good-till-cancelled orders. *)
Inductive OrderType : Type := GTC.

(** The methods of [ClobClient] the bot calls.  Each one may answer or
    raise, and may change the exchange. *)
Record ClobClient : Type := {
  client_create_api_key : E -> result string * E;
  client_get_sampling_simplified_markets : E -> result (list market) * E;
  client_get_orders : string -> string -> E -> result (list open_order) * E;
  client_create_order : OrderArgs -> E -> result SignedOrder * E;
  client_post_order : SignedOrder -> OrderType -> E -> result Resp * E;
  client_cancel : string -> E -> result Resp * E;
  client_get_address : E -> result string * E;
  client_get_trades : string -> E -> result (list trade) * E
}.

Variable client : ClobClient.

(** [self.get_market_min_size(market_id)], which [place_limit_order] calls,
    is defined nowhere in [basicMM.py]; it is a parameter here: a query of
    the exchange that, like the client methods, may answer or raise, and
    whose answer is the [float(min_size)] of the source. *)
Variable get_market_min_size : string -> E -> result Q * E.

(** The bot object [self] with its surroundings: the exchange behind
    [self.client], the three lists of [__init__], the clock, and
    [submitted], a history of every [OrderArgs] handed to
    [client.create_order] (kept only to state what the bot submits). *)
Record state : Type := {
  exch : E;
  orders : list order_info;
  markets : list market;
  pnl_history : list snapshot;
  clock : Z;
  submitted : list OrderArgs
}.

Definition set_exch (e : E) (s : state) : state :=
  {| exch := e; orders := orders s; markets := markets s;
     pnl_history := pnl_history s; clock := clock s; submitted := submitted s |}.

Definition set_orders (os : list order_info) (s : state) : state :=
  {| exch := exch s; orders := os; markets := markets s;
     pnl_history := pnl_history s; clock := clock s; submitted := submitted s |}.

Definition set_markets (ms : list market) (s : state) : state :=
  {| exch := exch s; orders := orders s; markets := ms;
     pnl_history := pnl_history s; clock := clock s; submitted := submitted s |}.

Definition set_pnl_history (h : list snapshot) (s : state) : state :=
  {| exch := exch s; orders := orders s; markets := markets s;
     pnl_history := h; clock := clock s; submitted := submitted s |}.

Definition set_clock (t : Z) (s : state) : state :=
  {| exch := exch s; orders := orders s; markets := markets s;
     pnl_history := pnl_history s; clock := t; submitted := submitted s |}.

Definition set_submitted (l : list OrderArgs) (s : state) : state :=
  {| exch := exch s; orders := orders s; markets := markets s;
     pnl_history := pnl_history s; clock := clock s; submitted := l |}.

(** [PolymarketLiquidityBot.__init__]. *)
Definition init (e : E) (now : Z) : state :=
  {| exch := e; orders := []; markets := []; pnl_history := [];
     clock := now; submitted := [] |}.

(** A call of a client method. *)
Definition call {A : Type} (f : E -> result A * E) : M state A :=
  fun s => let (r, e') := f (exch s) in (r, set_exch e' s).

(** [time.sleep(seconds)]. *)
Definition sleep (seconds : Z) : M state unit :=
  modify (fun s => set_clock (clock s + seconds)%Z s).

(** [create_api_key]. *)
Definition create_api_key : M state (option string) :=
  try_except
    (creds <- call (client_create_api_key client) ;;
     ret (Some creds))
    (fun e => ret None).

(** The synthetic description [get_active_markets] adds to a market. *)
Definition describe (m : market) : market :=
  {| condition_id := condition_id m;
     outcomes := outcomes m;
     description :=
       Some ("Market " ++ last_chars 6 (condition_id m) ++ " - Outcomes: "
             ++ join ", " (outcomes m))%string |}.

(** [get_active_markets]. *)
Definition get_active_markets : M state (list market) :=
  try_except
    (data <- call (client_get_sampling_simplified_markets client) ;;
     modify (set_markets data) ;;;
     modify (fun s => set_markets (map describe (markets s)) s) ;;;
     gets markets)
    (fun e => ret []).

(** The [try] block of [get_mid_price]. *)
Definition get_mid_price_body (market_id token_id : string) : M state Q :=
  orders <- call (client_get_orders client market_id token_id) ;;
  let bids := filter (fun order => (oo_side order =? "buy")%string) orders in
  let asks := filter (fun order => (oo_side order =? "sell")%string) orders in
  if is_empty bids && is_empty asks then ret 0.5
  else
    best_bid_price <-
      (if is_empty bids then ret 0
       else best_bid <- lift_result (max_key bids oo_price) ;;
            ret (oo_price best_bid)) ;;
    best_ask_price <-
      (if is_empty asks then ret 1
       else best_ask <- lift_result (min_key asks oo_price) ;;
            ret (oo_price best_ask)) ;;
    let mid_price := (best_bid_price + best_ask_price) / 2 in
    ret mid_price.

(** [get_mid_price]. *)
Definition get_mid_price (market_id token_id : string) : M state Q :=
  try_except (get_mid_price_body market_id token_id) (fun e => ret 0.5).

(** [self.client.create_order(order_args)], recorded in [submitted]. *)
Definition create_order (order_args : OrderArgs) : M state SignedOrder :=
  modify (fun s => set_submitted (submitted s ++ [order_args]) s) ;;;
  call (client_create_order client order_args).

(** The [try] block of [place_limit_order]. *)
Definition place_limit_order_body (market_id token_id : string) (side : Side)
    (size price : Q) (fee_rate_bps : Z) : M state Resp :=
  let price := Py.max 0.01 (Py.min 0.99 price) in
  min_size <- call (get_market_min_size market_id) ;;
  let size := Py.max min_size size in
  let order_args :=
    {| oa_price := price; oa_size := size; oa_side := side;
       oa_token_id := token_id; oa_fee_rate_bps := fee_rate_bps |} in
  signed_order <- create_order order_args ;;
  resp <- call (client_post_order client signed_order GTC) ;;
  match orderID resp with
  | Some oid =>
      if truthy_str (Some oid) then
        now <- gets clock ;;
        let order_info :=
          {| id := oid; market_id := market_id; token_id := token_id;
             side := side; size := size; price := price; time := now;
             status := LIVE |} in
        modify (fun s => set_orders (orders s ++ [order_info]) s) ;;;
        ret resp
      else ret resp
  | None => ret resp
  end.

(** [place_limit_order]. *)
Definition place_limit_order (market_id token_id : string) (side : Side)
    (size price : Q) (fee_rate_bps : Z) : M state Resp :=
  try_except
    (place_limit_order_body market_id token_id side size price fee_rate_bps)
    (fun e => ret (failure_resp e)).

(** [resp.get('canceled', [])]. *)
Definition canceled_of (resp : Resp) : list string :=
  match canceled resp with
  | Some ids => ids
  | None => []
  end.

Definition mem (x : string) (l : list string) : bool := existsb (String.eqb x) l.

(** The loop [for order in self.orders] of [cancel_order]. *)
Definition mark_canceled (order_id : string) (resp : Resp) (os : list order_info)
    : list order_info :=
  map (fun order =>
         if (id order =? order_id)%string && mem order_id (canceled_of resp)
         then set_status CANCELED order
         else order) os.

(** The [try] block of [cancel_order]. *)
Definition cancel_order_body (order_id : string) : M state Resp :=
  resp <- call (client_cancel client order_id) ;;
  modify (fun s => set_orders (mark_canceled order_id resp (orders s)) s) ;;;
  ret resp.

(** [cancel_order]. *)
Definition cancel_order (order_id : string) : M state Resp :=
  try_except (cancel_order_body order_id) (fun e => ret (failure_resp e)).

(** [get_rewards_total]: a placeholder. *)
Definition get_rewards_total : M state Q := ret 0.

(** The accumulators of the loop over the trades in [get_pnl]. *)
Record totals : Type := {
  buy_volume : Q;
  buy_cost : Q;
  sell_volume : Q;
  sell_revenue : Q
}.

(** One iteration of [for trade in trades]. *)
Definition add_trade (acc : totals) (t : trade) : totals :=
  if (trade_status t =? "CONFIRMED")%string then
    let size := trade_size t in
    let price := trade_price t in
    if (trade_side t =? "buy")%string then
      {| buy_volume := buy_volume acc + size;
         buy_cost := buy_cost acc + size * price;
         sell_volume := sell_volume acc;
         sell_revenue := sell_revenue acc |}
    else
      {| buy_volume := buy_volume acc;
         buy_cost := buy_cost acc;
         sell_volume := sell_volume acc + size;
         sell_revenue := sell_revenue acc + size * (1 - price) |}
  else acc.

Definition sum_trades (trades : list trade) : totals :=
  fold_left add_trade trades
    {| buy_volume := 0; buy_cost := 0; sell_volume := 0; sell_revenue := 0 |}.

(** The [try] block of [get_pnl]. *)
Definition get_pnl_body : M state (list snapshot) :=
  address <- call (client_get_address client) ;;
  trades <- call (client_get_trades client address) ;;
  let acc := sum_trades trades in
  let realized_pnl := sell_revenue acc - buy_cost acc in
  reward_earnings <- get_rewards_total ;;
  let total_pnl := realized_pnl + reward_earnings in
  now <- gets clock ;;
  modify (fun s =>
    set_pnl_history
      (pnl_history s ++
         [{| timestamp := now; realized_pnl := realized_pnl;
             rewards := reward_earnings; total_pnl := total_pnl |}]) s) ;;;
  gets pnl_history.

(** [get_pnl]. *)
Definition get_pnl : M state (list snapshot) :=
  try_except get_pnl_body (fun e => ret []).

(** The local variables of [run_strategy] that live across loop cycles.
    Each holds [None] or a reference to an entry of [self.orders]; the only
    thing ever read through the reference is its ['id'], which no method
    changes, so the entry is kept as it was when it was looked up. *)
Record locals : Type := {
  active_buy_order : option order_info;
  active_sell_order : option order_info
}.

Definition set_active_buy_order (v : option order_info) (l : locals) : locals :=
  {| active_buy_order := v; active_sell_order := active_sell_order l |}.

Definition set_active_sell_order (v : option order_info) (l : locals) : locals :=
  {| active_buy_order := active_buy_order l; active_sell_order := v |}.

Definition get_local {A : Type} (f : locals -> A) : M (state * locals) A :=
  gets (fun sl => f (snd sl)).

Definition assign (f : locals -> locals) : M (state * locals) unit :=
  modify (fun sl => (fst sl, f (snd sl))).

(** [next((o for o in self.orders if o['id'] == order_id), None)]. *)
Definition lookup_order (order_id : string) : M (state * locals) (option order_info) :=
  gets (fun sl => find (fun o => (id o =? order_id)%string) (orders (fst sl))).

(** [if active_buy_order:] cancel it and forget it. *)
Definition cancel_active_buy : M (state * locals) unit :=
  active_buy <- get_local active_buy_order ;;
  match active_buy with
  | Some o =>
      on_self (cancel_order (id o)) ;;;
      assign (set_active_buy_order None)
  | None => ret tt
  end.

(** [if active_sell_order:] cancel it and forget it. *)
Definition cancel_active_sell : M (state * locals) unit :=
  active_sell <- get_local active_sell_order ;;
  match active_sell with
  | Some o =>
      on_self (cancel_order (id o)) ;;;
      assign (set_active_sell_order None)
  | None => ret tt
  end.

(** Place the new buy order and, when the answer carries an order id, make
    the registry entry with that id the active buy order. *)
Definition place_new_buy (market_id token_id : string) (size buy_price : Q)
    : M (state * locals) unit :=
  buy_resp <- on_self (place_limit_order market_id token_id BUY size buy_price 0) ;;
  match orderID buy_resp with
  | Some oid =>
      if truthy_str (Some oid) then
        found <- lookup_order oid ;;
        assign (set_active_buy_order found)
      else ret tt
  | None => ret tt
  end.

(** Place the new sell order and, when the answer carries an order id, make
    the registry entry with that id the active sell order. *)
Definition place_new_sell (market_id token_id : string) (size sell_price : Q)
    : M (state * locals) unit :=
  sell_resp <- on_self (place_limit_order market_id token_id SELL size sell_price 0) ;;
  match orderID sell_resp with
  | Some oid =>
      if truthy_str (Some oid) then
        found <- lookup_order oid ;;
        assign (set_active_sell_order found)
      else ret tt
  | None => ret tt
  end.

(** The block under [if mid_price:]: cancel both quotes, place both anew. *)
Definition requote (market_id token_id : string) (size max_spread mid_price : Q)
    : M (state * locals) unit :=
  let buy_price := Py.max 0.01 (round2 (mid_price - max_spread)) in
  let sell_price := Py.min 0.99 (round2 (mid_price + max_spread)) in
  cancel_active_buy ;;;
  cancel_active_sell ;;;
  place_new_buy market_id token_id size buy_price ;;;
  place_new_sell market_id token_id size sell_price.

(** The body of the [while] loop of [run_strategy]: one refresh cycle. *)
Definition strategy_cycle (market_id token_id : string) (size max_spread : Q)
    : M (state * locals) unit :=
  try_except
    (mid_price <- on_self (get_mid_price market_id token_id) ;;
     (if truthy mid_price
      then requote market_id token_id size max_spread mid_price
      else ret tt) ;;;
     on_self (sleep 30))
    (fun e => on_self (sleep 5)).

(** [while time.time() < end_time: ...], run for at most [fuel] cycles;
    [None] when the fuel runs out before the clock reaches [end_time]. *)
Fixpoint strategy_loop (fuel : nat) (market_id token_id : string)
    (size max_spread : Q) (end_time : Q) (sl : state * locals)
    : option (result unit * (state * locals)) :=
  if Qlt_bool (inject_Z (clock (fst sl))) end_time then
    match fuel with
    | O => None
    | S fuel' =>
        match strategy_cycle market_id token_id size max_spread sl with
        | (Ok _, sl') =>
            strategy_loop fuel' market_id token_id size max_spread end_time sl'
        | (Raise e, sl') => Some (Raise e, sl')
        end
    end
  else Some (Ok tt, sl).

(** The cancellations after the loop of [run_strategy]. *)
Definition wind_down : M (state * locals) unit :=
  active_buy <- get_local active_buy_order ;;
  match active_buy with
  | Some o => on_self (cancel_order (id o)) ;;; ret tt
  | None => ret tt
  end ;;;
  active_sell <- get_local active_sell_order ;;
  match active_sell with
  | Some o => on_self (cancel_order (id o)) ;;; ret tt
  | None => ret tt
  end.

(** A cycle sleeps for at least five seconds, so a run of
    [duration_minutes] takes at most [12 * duration_minutes] cycles, rounded
    up. *)
Definition max_cycles (duration_minutes : Q) : nat :=
  Z.to_nat (Qceiling (12 * duration_minutes)).

(** [run_strategy]; [duration_minutes] is any number, whole or not. *)
Definition run_strategy (market_id token_id : string) (risk_amount max_spread : Q)
    (duration_minutes : Q) (s : state) : option (result unit * state) :=
  let start_time := inject_Z (clock s) in
  let end_time := start_time + duration_minutes * 60 in
  let size := risk_amount / 2 in
  let frame := {| active_buy_order := None; active_sell_order := None |} in
  match strategy_loop (max_cycles duration_minutes) market_id token_id
          size max_spread end_time (s, frame) with
  | None => None
  | Some (Raise e, sl) => Some (Raise e, fst sl)
  | Some (Ok _, sl) =>
      let (r, sl') := wind_down sl in Some (r, fst sl')
  end.

(** The public methods of the bot, as calls. *)
Inductive method : Type :=
| CreateApiKey
| GetActiveMarkets
| GetMidPrice (market_id token_id : string)
| PlaceLimitOrder (market_id token_id : string) (side : Side) (size price : Q)
    (fee_rate_bps : Z)
| CancelOrder (order_id : string)
| RunStrategy (market_id token_id : string) (risk_amount max_spread : Q)
    (duration_minutes : Q)
| GetPnl
| GetRewardsTotal.

(** The state after a call, when the call returns or raises; [None] when
    it does neither. *)
Definition exec (m : method) (s : state) : option state :=
  match m with
  | CreateApiKey => Some (snd (create_api_key s))
  | GetActiveMarkets => Some (snd (get_active_markets s))
  | GetMidPrice market_id token_id => Some (snd (get_mid_price market_id token_id s))
  | PlaceLimitOrder market_id token_id side size price fee_rate_bps =>
      Some (snd (place_limit_order market_id token_id side size price fee_rate_bps s))
  | CancelOrder order_id => Some (snd (cancel_order order_id s))
  | RunStrategy market_id token_id risk_amount max_spread duration_minutes =>
      option_map snd
        (run_strategy market_id token_id risk_amount max_spread duration_minutes s)
  | GetPnl => Some (snd (get_pnl s))
  | GetRewardsTotal => Some (snd (get_rewards_total s))
  end.

(** The states a bot can be in: freshly constructed, or after a call. *)
Inductive reachable : state -> Prop :=
| reachable_init : forall e now, reachable (init e now)
| reachable_step : forall s m s', reachable s -> exec m s = Some s' -> reachable s'.

(** The states [run_strategy] is in between two cycles of its loop, from
    the state [sl0] the loop is entered in. *)
Inductive between_cycles (market_id token_id : string) (size max_spread : Q)
    (end_time : Q) (sl0 : state * locals) : state * locals -> Prop :=
| between_start : between_cycles market_id token_id size max_spread end_time sl0 sl0
| between_next : forall sl sl',
    between_cycles market_id token_id size max_spread end_time sl0 sl ->
    inject_Z (clock (fst sl)) < end_time ->
    strategy_cycle market_id token_id size max_spread sl = (Ok tt, sl') ->
    between_cycles market_id token_id size max_spread end_time sl0 sl'.

End Bot.

Arguments client_create_api_key {E}.
Arguments client_get_sampling_simplified_markets {E}.
Arguments client_get_orders {E}.
Arguments client_create_order {E}.
Arguments client_post_order {E}.
Arguments client_cancel {E}.
Arguments client_get_address {E}.
Arguments client_get_trades {E}.
Arguments exch {E}.
Arguments orders {E}.
Arguments markets {E}.
Arguments pnl_history {E}.
Arguments clock {E}.
Arguments submitted {E}.
Arguments set_exch {E}.
Arguments set_orders {E}.
Arguments set_markets {E}.
Arguments set_pnl_history {E}.
Arguments set_clock {E}.
Arguments set_submitted {E}.
Arguments init {E}.
Arguments call {E A}.
Arguments sleep {E}.
Arguments create_api_key {E}.
Arguments get_active_markets {E}.
Arguments get_mid_price_body {E}.
Arguments get_mid_price {E}.
Arguments create_order {E}.
Arguments place_limit_order_body {E}.
Arguments place_limit_order {E}.
Arguments cancel_order_body {E}.
Arguments cancel_order {E}.
Arguments get_rewards_total {E}.
Arguments get_pnl_body {E}.
Arguments get_pnl {E}.
Arguments get_local {E A}.
Arguments assign {E}.
Arguments lookup_order {E}.
Arguments cancel_active_buy {E}.
Arguments cancel_active_sell {E}.
Arguments place_new_buy {E}.
Arguments place_new_sell {E}.
Arguments requote {E}.
Arguments strategy_cycle {E}.
Arguments strategy_loop {E}.
Arguments wind_down {E}.
Arguments run_strategy {E}.
Arguments exec {E}.
Arguments reachable {E}.
Arguments between_cycles {E}.

(** [self.get_market_min_size] in the class as it is written: no such
    attribute exists, so the lookup raises [AttributeError] before anything
    is asked of the exchange; the text is that of the exception. *)
Definition missing_get_market_min_size {E : Type} (market_id : string) (e : E)
    : result Q * E :=
  (Raise "'PolymarketLiquidityBot' object has no attribute 'get_market_min_size'", e).

(** A minimum-size query that raises, whatever it is asked. *)
Definition always_raises {E : Type} (get_market_min_size : string -> E -> result Q * E)
    : Prop :=
  forall market_id x, exists e x', get_market_min_size market_id x = (Raise e, x').

(** ** Reference definitions, in the words of the specification *)

Definition bids_of (book : list open_order) : list open_order :=
  filter (fun order => (oo_side order =? "buy")%string) book.

Definition asks_of (book : list open_order) : list open_order :=
  filter (fun order => (oo_side order =? "sell")%string) book.

(** The largest element of a list, or [default] for the empty list. *)
Definition maximum (default : Q) (l : list Q) : Q :=
  match l with
  | [] => default
  | x :: rest => fold_left Qmax rest x
  end.

(** The smallest element of a list, or [default] for the empty list. *)
Definition minimum (default : Q) (l : list Q) : Q :=
  match l with
  | [] => default
  | x :: rest => fold_left Qmin rest x
  end.

(** [m] is an item of [l] whose key no item of [l] exceeds. *)
Definition greatest_in {A : Type} (key : A -> Q) (l : list A) (m : A) : Prop :=
  In m l /\ forall x, In x l -> key x <= key m.

(** [m] is an item of [l] whose key is below that of no item of [l]. *)
Definition least_in {A : Type} (key : A -> Q) (l : list A) (m : A) : Prop :=
  In m l /\ forall x, In x l -> key m <= key x.

(** [m] is, up to [==], the largest element of [l]. *)
Definition is_maximum (l : list Q) (m : Q) : Prop :=
  (exists x, In x l /\ x == m) /\ forall x, In x l -> x <= m.

(** [m] is, up to [==], the smallest element of [l]. *)
Definition is_minimum (l : list Q) (m : Q) : Prop :=
  (exists x, In x l /\ x == m) /\ forall x, In x l -> m <= x.

(** Best bid: the maximum bid price present, or 0 if none exist. *)
Definition spec_best_bid (book : list open_order) : Q :=
  maximum 0 (map oo_price (bids_of book)).

(** Best ask: the minimum ask price present, or 1 if none exist. *)
Definition spec_best_ask (book : list open_order) : Q :=
  minimum 1 (map oo_price (asks_of book)).

Definition confirmed (side : string) (t : trade) : bool :=
  ((trade_status t =? "CONFIRMED") && (trade_side t =? side))%string.

Definition Qsum (l : list Q) : Q := fold_right Qplus 0 l.

(** Revenue of the confirmed sells minus cost of the confirmed buys. *)
Definition spec_realized_pnl (trades : list trade) : Q :=
  Qsum (map (fun t => trade_size t * (1 - trade_price t)) (filter (confirmed "sell") trades))
  - Qsum (map (fun t => trade_size t * trade_price t) (filter (confirmed "buy") trades)).

(** Registry entries of one side whose status is ['live']. *)
Definition is_live (sd : Side) (o : order_info) : bool :=
  Side_eqb (side o) sd && (status o =? LIVE)%string.

Definition live_count (sd : Side) (os : list order_info) : nat :=
  List.length (filter (is_live sd) os).

(** The registry entries appended since the bot was in state [s]. *)
Definition placed_since {E : Type} (s s' : state E) : list order_info :=
  skipn (List.length (orders s)) (orders s').

(** The quote-pair invariant of the strategy loop: between any two cycles
    of a run entered in state [s], at most one live order per side among
    the orders the run placed. *)
Definition quote_pair_invariant {E : Type} (client : ClobClient E)
    (get_market_min_size : string -> E -> result Q * E)
    (market_id token_id : string) (size max_spread : Q) (end_time : Q)
    (s : state E) : Prop :=
  forall sl,
    between_cycles client get_market_min_size market_id token_id size max_spread
      end_time (s, {| active_buy_order := None; active_sell_order := None |}) sl ->
    (live_count BUY (placed_since s (fst sl)) <= 1)%nat /\
    (live_count SELL (placed_since s (fst sl)) <= 1)%nat.

(** The exchange answers the cancel of [order_id] and lists it among the
    canceled orders. *)
Definition cancel_confirmed_by {E : Type} (client : ClobClient E)
    (order_id : string) (s : state E) : Prop :=
  exists resp x,
    client_cancel client order_id (exch s) = (Ok resp, x) /\
    In order_id (canceled_of resp).

(** The order [place_limit_order] hands to the client when the exchange
    reports the minimum size [min_size]. *)
Definition clamped_args (token_id : string) (side : Side) (size price : Q)
    (fee_rate_bps : Z) (min_size : Q) : OrderArgs :=
  {| oa_price := Py.max 0.01 (Py.min 0.99 price);
     oa_size := Py.max min_size size;
     oa_side := side;
     oa_token_id := token_id;
     oa_fee_rate_bps := fee_rate_bps |}.

(** The registry entry [place_limit_order] appends for an accepted order. *)
Definition placed_order (order_id market_id token_id : string) (side : Side)
    (size price min_size : Q) (now : Z) : order_info :=
  {| id := order_id; market_id := market_id; token_id := token_id;
     side := side; size := Py.max min_size size;
     price := Py.max 0.01 (Py.min 0.99 price);
     time := now; status := LIVE |}.

(** One of the external calls of [place_limit_order] raises [e]: the query
    of the minimum size, or else the signing of the clamped order, or else
    its posting. *)
Definition place_call_raises {E : Type} (client : ClobClient E)
    (get_market_min_size : string -> E -> result Q * E)
    (market_id token_id : string) (side : Side) (size price : Q) (fee_rate_bps : Z)
    (s : state E) (e : string) : Prop :=
  (exists x, get_market_min_size market_id (exch s) = (Raise e, x)) \/
  (exists min_size x,
      get_market_min_size market_id (exch s) = (Ok min_size, x) /\
      ((exists x1,
           client_create_order client
             (clamped_args token_id side size price fee_rate_bps min_size) x
           = (Raise e, x1)) \/
       (exists signed x1 x2,
           client_create_order client
             (clamped_args token_id side size price fee_rate_bps min_size) x
           = (Ok signed, x1) /\
           client_post_order client signed GTC x1 = (Raise e, x2)))).

(** [get_pnl], called in state [s], retrieves the trades [trades]: both the
    address query and the trade query answer. *)
Definition trades_fetched {E : Type} (client : ClobClient E) (s : state E)
    (trades : list trade) : Prop :=
  exists address x1 x2,
    client_get_address client (exch s) = (Ok address, x1) /\
    client_get_trades client address x1 = (Ok trades, x2).

(** The snapshot [get_pnl] appends for the trades [trades] at time [now]. *)
Definition pnl_snapshot (trades : list trade) (now : Z) : snapshot :=
  let acc := sum_trades trades in
  {| timestamp := now;
     realized_pnl := sell_revenue acc - buy_cost acc;
     rewards := 0;
     total_pnl := sell_revenue acc - buy_cost acc + 0 |}.

(** Every cancel the exchange is asked for is answered and confirmed. *)
Definition cancels_confirmed {E : Type} (client : ClobClient E) : Prop :=
  forall order_id x,
    exists resp x',
      client_cancel client order_id x = (Ok resp, x') /\
      In order_id (canceled_of resp).

(** Every entry of the registry is ['live'] or ['canceled']. *)
Definition known_statuses (os : list order_info) : Prop :=
  Forall (fun o => status o = LIVE \/ status o = CANCELED) os.

(** The registry with every entry of id [order_id] marked canceled. *)
Definition cancel_all (order_id : string) (os : list order_info) : list order_info :=
  map (fun o => if (id o =? order_id)%string then set_status CANCELED o else o) os.

(** What a placement of side [sd] leaves behind: nothing, or one live
    registry entry of that side, whose id the active order [act] carries. *)
Definition placed (sd : Side) (added : list order_info) (act : option order_info)
    : Prop :=
  (added = [] /\ act = None) \/
  (exists o a,
      added = [o] /\ status o = LIVE /\ side o = sd /\
      act = Some a /\ id a = id o).

(** What the cancel of the active order [act] makes of the registry [os]:
    nothing when there is no active order; otherwise the entries with its
    id are marked canceled, or, when the cancel is not confirmed, nothing. *)
Definition canceled_from (confirmed : Prop) (act : option order_info)
    (os os' : list order_info) : Prop :=
  match act with
  | None => os' = os
  | Some o =>
      (os' = os \/ os' = cancel_all (id o) os) /\
      (confirmed -> os' = cancel_all (id o) os)
  end.

(** What the block under [if mid_price:] makes of the registry [os] and the
    active orders [l]: the active buy order is cancelled, then the active
    sell order, then a buy and a sell are placed. *)
Definition requoted (confirmed : Prop) (os : list order_info) (l : locals)
    (os' : list order_info) (l' : locals) : Prop :=
  exists os1 os2 bs ss,
    canceled_from confirmed (active_buy_order l) os os1 /\
    canceled_from confirmed (active_sell_order l) os1 os2 /\
    os' = (os2 ++ bs) ++ ss /\
    placed BUY bs (active_buy_order l') /\
    placed SELL ss (active_sell_order l').

(** No entry of the registry is live. *)
Definition no_live_orders (os : list order_info) : Prop :=
  Forall (fun o => status o <> LIVE) os.

(** How an entry of the registry may differ after some calls: not at all,
    or by having moved from ['live'] to ['canceled']. *)
Definition entry_step (o o' : order_info) : Prop :=
  o' = o \/ (status o = LIVE /\ o' = set_status CANCELED o).

(** The changes the bot makes to its registry: it appends an entry with
    status ['live'] (in [place_limit_order]) or marks the entries of one
    id as canceled (in [cancel_order]), any number of times. *)
Inductive registry_path : list order_info -> list order_info -> Prop :=
| path_done : forall os, registry_path os os
| path_place : forall os o os',
    status o = LIVE -> registry_path (os ++ [o]) os' -> registry_path os os'
| path_cancel : forall os order_id os',
    registry_path (cancel_all order_id os) os' -> registry_path os os'.

(** The order [o] is one the loop holds as active. *)
Definition tracked (l : locals) (o : order_info) : Prop :=
  (exists a, active_buy_order l = Some a /\ id a = id o) \/
  (exists a, active_sell_order l = Some a /\ id a = id o).

(** The loop invariant of [run_strategy] over the registry entries from
    position [n0] on: the live ones are tracked, at most one per side. *)
Definition quotes_tracked (n0 : nat) (os : list order_info) (l : locals) : Prop :=
  (n0 <= List.length os)%nat /\
  (forall o, In o (skipn n0 os) -> status o = LIVE -> tracked l o) /\
  (live_count BUY (skipn n0 os) <= 1)%nat /\
  (live_count SELL (skipn n0 os) <= 1)%nat.

(** ** Sample exchanges *)

Module Sample.

(** The exchange is a counter of the orders it accepted. *)
Definition E : Type := nat.

Fixpoint tally (n : nat) : string :=
  match n with
  | O => ""
  | S k => "i" ++ tally k
  end.

Definition order_name (n : nat) : string := "order-" ++ tally n.

Definition book : list open_order :=
  [ {| oo_side := "buy"; oo_price := 0.40 |};
    {| oo_side := "sell"; oo_price := 0.60 |};
    {| oo_side := "buy"; oo_price := 0.45 |} ].

Definition fills : list trade :=
  [ {| trade_status := "CONFIRMED"; trade_side := "buy";
       trade_size := 10; trade_price := 0.40 |};
    {| trade_status := "CONFIRMED"; trade_side := "sell";
       trade_size := 10; trade_price := 0.70 |} ].

Definition accepted (n : nat) : Resp :=
  {| orderID := Some (order_name n); success := Some true;
     errorMsg := None; canceled := None |}.

Definition cancel_confirmed (order_id : string) : Resp :=
  {| orderID := None; success := None; errorMsg := None;
     canceled := Some [order_id] |}.

(** An exchange that accepts every order and confirms every cancel. *)
Definition steady : ClobClient E := {|
  client_create_api_key := fun e => (Ok "key", e);
  client_get_sampling_simplified_markets := fun e => (Ok [], e);
  client_get_orders := fun _ _ e => (Ok book, e);
  client_create_order := fun args e => (Ok {| so_args := args; so_signature := "sig" |}, e);
  client_post_order := fun _ _ e => (Ok (accepted e), S e);
  client_cancel := fun order_id e => (Ok (cancel_confirmed order_id), e);
  client_get_address := fun e => (Ok "0xabc", e);
  client_get_trades := fun _ e => (Ok fills, e)
|}.

(** An exchange that accepts every order but whose cancel call times out. *)
Definition lossy : ClobClient E := {|
  client_create_api_key := fun e => (Ok "key", e);
  client_get_sampling_simplified_markets := fun e => (Ok [], e);
  client_get_orders := fun _ _ e => (Ok book, e);
  client_create_order := fun args e => (Ok {| so_args := args; so_signature := "sig" |}, e);
  client_post_order := fun _ _ e => (Ok (accepted e), S e);
  client_cancel := fun _ e => (Raise "timeout", e);
  client_get_address := fun e => (Ok "0xabc", e);
  client_get_trades := fun _ e => (Ok fills, e)
|}.

(** A minimum-size query that answers 5 for every market: the behaviour of
    a bot completed with the method its class lacks, used to exercise the
    properties that hold whatever the query does. *)
Definition min_size (market_id : string) (e : E) : result Q * E := (Ok 5, e).

Definition start : state E := init 0%nat 0%Z.

Definition no_quotes : locals :=
  {| active_buy_order := None; active_sell_order := None |}.

(** The bot after one accepted buy order on the steady exchange. *)
Definition one_order : state E :=
  snd (place_limit_order steady min_size "m" "t" BUY 10 0.5 0 start).

End Sample.

(** ** The sums of [get_pnl] on binary64 numbers *)

Module Binary64.

(** A fill as [client.get_trades] lists it, its size and price being the
    binary64 numbers that [float(trade['size'])] and [float(trade['price'])]
    give. *)
Record trade : Type := {
  trade_status : string;
  trade_side : string;
  trade_size : float;
  trade_price : float
}.

(** The accumulators of the loop over the trades.  They start as the
    integer 0, which Python turns into the binary64 zero at the first
    addition. *)
Record totals : Type := {
  buy_volume : float;
  buy_cost : float;
  sell_volume : float;
  sell_revenue : float
}.

(** One iteration of [for trade in trades]. *)
Definition add_trade (acc : totals) (t : trade) : totals :=
  if (trade_status t =? "CONFIRMED")%string then
    let size := trade_size t in
    let price := trade_price t in
    if (trade_side t =? "buy")%string then
      {| buy_volume := (buy_volume acc + size)%float;
         buy_cost := (buy_cost acc + size * price)%float;
         sell_volume := sell_volume acc;
         sell_revenue := sell_revenue acc |}
    else
      {| buy_volume := buy_volume acc;
         buy_cost := buy_cost acc;
         sell_volume := (sell_volume acc + size)%float;
         sell_revenue := (sell_revenue acc + size * (1 - price))%float |}
  else acc.

Definition sum_trades (trades : list trade) : totals :=
  fold_left add_trade trades
    {| buy_volume := 0%float; buy_cost := 0%float;
       sell_volume := 0%float; sell_revenue := 0%float |}.

(** [realized_pnl = sell_revenue - buy_cost], after the loop. *)
Definition realized_pnl (trades : list trade) : float :=
  let acc := sum_trades trades in
  (sell_revenue acc - buy_cost acc)%float.

(** The confirmed trades of one side. *)
Definition confirmed (side : string) (t : trade) : bool :=
  ((trade_status t =? "CONFIRMED") && (trade_side t =? side))%string.

(** The sum of a list of binary64 numbers, added up from the left,
    starting from zero, each addition rounded. *)
Definition running_sum (l : list float) : float := fold_left add l 0%float.

(** Revenue of the confirmed sells minus cost of the confirmed buys, each
    summed in the order of the list. *)
Definition spec_realized_pnl (trades : list trade) : float :=
  (running_sum (map (fun t => trade_size t * (1 - trade_price t))%float
                  (filter (confirmed "sell") trades))
   - running_sum (map (fun t => trade_size t * trade_price t)%float
                    (filter (confirmed "buy") trades)))%float.

#[local] Set Warnings "-inexact-float".

(** One confirmed buy of 10 at 0.40 and one confirmed sell of 10 at 0.70. *)
Definition fills : list trade :=
  [ {| trade_status := "CONFIRMED"; trade_side := "buy";
       trade_size := 10%float; trade_price := 0.40%float |};
    {| trade_status := "CONFIRMED"; trade_side := "sell";
       trade_size := 10%float; trade_price := 0.70%float |} ].

(** The same two fills after a fill that is not confirmed. *)
Definition fills_after_pending : list trade :=
  {| trade_status := "MATCHED"; trade_side := "sell";
     trade_size := 7%float; trade_price := 0.30%float |} :: fills.

(** The number Python prints as [-0.9999999999999996]: [-1 + 2^-51]. *)
Definition just_above_minus_one : float := (-0x1.ffffffffffffcp-1)%float.

End Binary64.

(** ** Further definitions: frames *)

(** The computation [m] leaves the observation [f] of the state as it
    was, whether it returns or raises. *)
Definition keeps {S A B : Type} (f : S -> B) (m : M S A) : Prop :=
  forall s, f (snd (m s)) = f s.

(** The fields of the bot that do not belong to the exchange. *)
Definition same_bot {E : Type} (s s' : state E) : Prop :=
  orders s' = orders s /\
  markets s' = markets s /\
  pnl_history s' = pnl_history s /\
  clock s' = clock s /\
  submitted s' = submitted s.

(** The orders of a book that [get_mid_price] looks at. *)
Definition two_sided (book : list open_order) : list open_order :=
  filter (fun order => (oo_side order =? "buy")%string || (oo_side order =? "sell")%string)
    book.

(** Two registry entries that differ at most in their status. *)
Definition same_but_status (o o' : order_info) : Prop :=
  id o' = id o /\ market_id o' = market_id o /\ token_id o' = token_id o /\
  side o' = side o /\ size o' = size o /\ price o' = price o /\ time o' = time o.

(** A confirmed trade that [get_pnl] books as a sell: any side but ['buy']. *)
Definition confirmed_not_buy (t : trade) : bool :=
  ((trade_status t =? "CONFIRMED") && negb (trade_side t =? "buy"))%string.

(** The realized PnL as [get_pnl] computes it, whatever the sides. *)
Definition booked_realized_pnl (trades : list trade) : Q :=
  Qsum (map (fun t => trade_size t * (1 - trade_price t)) (filter confirmed_not_buy trades))
  - Qsum (map (fun t => trade_size t * trade_price t) (filter (confirmed "buy") trades)).

(** ** The market list of the dashboard *)

(** [needle in hay], for strings. *)
Fixpoint contains (needle hay : string) : bool :=
  prefix needle hay ||
  match hay with
  | EmptyString => false
  | String _ rest => contains needle rest
  end.

(** An entry of [market_data] in [create_dashboard]. *)
Record market_entry : Type := {
  entry_id : string;
  entry_name : string;
  entry_full_info : market
}.

(** The list [market_data], built from [bot.markets]. *)
Definition market_data (ms : list market) : list market_entry :=
  map (fun m =>
         {| entry_id := condition_id m;
            entry_name := join " vs " (outcomes m);
            entry_full_info := m |}) ms.

(** An option of the market dropdown. *)
Record dropdown_option : Type := {
  option_label : string;
  option_value : string
}.

Definition option_of (m : market_entry) : dropdown_option :=
  {| option_label :=
       (entry_name m ++ " (Market " ++ last_chars 6 (entry_id m) ++ ")")%string;
     option_value := entry_id m |}.

(** The options of the dropdown when the dashboard is created. *)
Definition dropdown_options (md : list market_entry) : list dropdown_option :=
  map option_of md.

(** [market_data[0]['id'] if market_data else None]. *)
Definition dropdown_value (md : list market_entry) : option string :=
  match md with
  | [] => None
  | m :: _ => Some (entry_id m)
  end.

Section Search.

(** [str.lower], a method of the Python library. *)
Variable lower : string -> string.

(** [not search_query or search_query.lower() in m['name'].lower()]. *)
Definition matches_query (search_query : option string) (m : market_entry) : bool :=
  if truthy_str search_query then
    match search_query with
    | Some q => contains (lower q) (lower (entry_name m))
    | None => true
    end
  else true.

(** The list [filtered_options] of [update_market_display]. *)
Definition filtered_options (md : list market_entry) (search_query : option string)
    : list dropdown_option :=
  map option_of (filter (matches_query search_query) md).

End Search.

(** Lower case for ASCII letters; other characters stay as they are. *)
Definition lower_ascii_char (c : Ascii.ascii) : Ascii.ascii :=
  let n := Ascii.nat_of_ascii c in
  if (65 <=? n)%nat && (n <=? 90)%nat then Ascii.ascii_of_nat (n + 32) else c.

Fixpoint lower_ascii (s : string) : string :=
  match s with
  | EmptyString => EmptyString
  | String c rest => String (lower_ascii_char c) (lower_ascii rest)
  end.

(** ** Further sample exchanges *)

Module Scenario.

Definition E : Type := nat.

(** An exchange that cannot be reached: every call raises. *)
Definition offline : ClobClient E := {|
  client_create_api_key := fun e => (Raise "offline", e);
  client_get_sampling_simplified_markets := fun e => (Raise "offline", e);
  client_get_orders := fun _ _ e => (Raise "offline", e);
  client_create_order := fun _ e => (Raise "offline", e);
  client_post_order := fun _ _ e => (Raise "offline", e);
  client_cancel := fun _ e => (Raise "offline", e);
  client_get_address := fun e => (Raise "offline", e);
  client_get_trades := fun _ e => (Raise "offline", e)
|}.

(** A minimum-size query that raises, as a call of a method that does not
    exist does. *)
Definition no_min_size (market_id : string) (e : E) : result Q * E :=
  (Raise "no attribute get_market_min_size", e).

(** A book with orders of a side the bot does not know. *)
Definition shouting_book : list open_order :=
  [ {| oo_side := "BUY"; oo_price := 0.90 |};
    {| oo_side := "buy"; oo_price := 0.40 |};
    {| oo_side := "SELL"; oo_price := 0.10 |};
    {| oo_side := "sell"; oo_price := 0.60 |} ].

Definition with_book (book : list open_order) : ClobClient E := {|
  client_create_api_key := client_create_api_key Sample.steady;
  client_get_sampling_simplified_markets :=
    client_get_sampling_simplified_markets Sample.steady;
  client_get_orders := fun _ _ e => (Ok book, e);
  client_create_order := client_create_order Sample.steady;
  client_post_order := client_post_order Sample.steady;
  client_cancel := client_cancel Sample.steady;
  client_get_address := client_get_address Sample.steady;
  client_get_trades := client_get_trades Sample.steady
|}.

(** An exchange that lists [shouting_book] first and, once its state has
    moved on, the same book without the orders of unknown sides. *)
Definition tidying : ClobClient E := {|
  client_create_api_key := client_create_api_key Sample.steady;
  client_get_sampling_simplified_markets :=
    client_get_sampling_simplified_markets Sample.steady;
  client_get_orders := fun _ _ e =>
    (Ok (match e with O => shouting_book | S _ => two_sided shouting_book end), e);
  client_create_order := client_create_order Sample.steady;
  client_post_order := client_post_order Sample.steady;
  client_cancel := client_cancel Sample.steady;
  client_get_address := client_get_address Sample.steady;
  client_get_trades := client_get_trades Sample.steady
|}.

(** A book whose only order is a bid priced at 3. *)
Definition dear_bid_book : list open_order :=
  [ {| oo_side := "buy"; oo_price := 3 |} ].

(** A bot whose registry lists two live orders. *)
Definition holding : state E :=
  set_orders
    [ {| id := "a1"; market_id := "m"; token_id := "t"; side := BUY;
         size := 10; price := 0.47; time := 0%Z; status := "live" |};
      {| id := "b2"; market_id := "m"; token_id := "t"; side := SELL;
         size := 10; price := 0.53; time := 0%Z; status := "live" |} ]
    Sample.start.

(** The bot after a placement that the missing minimum-size method
    stopped. *)
Definition refused : state E :=
  snd (place_limit_order Sample.steady missing_get_market_min_size "m" "t" BUY 10 0.5 0
         Sample.start).

(** An exchange that confirms the cancel of order [a1] only. *)
Definition confirming_a1 : ClobClient E := {|
  client_create_api_key := client_create_api_key Sample.steady;
  client_get_sampling_simplified_markets :=
    client_get_sampling_simplified_markets Sample.steady;
  client_get_orders := client_get_orders Sample.steady;
  client_create_order := client_create_order Sample.steady;
  client_post_order := client_post_order Sample.steady;
  client_cancel := fun _ e =>
    (Ok {| orderID := None; success := None; errorMsg := None;
           canceled := Some ["a1"] |}, e);
  client_get_address := client_get_address Sample.steady;
  client_get_trades := client_get_trades Sample.steady
|}.

(** A book whose only order is an ask at price zero: its mid price is 0. *)
Definition free_ask_book : list open_order :=
  [ {| oo_side := "sell"; oo_price := 0 |} ].

(** One confirmed fill whose side is spelled ['BUY']. *)
Definition shouting_fills : list trade :=
  [ {| trade_status := "CONFIRMED"; trade_side := "BUY";
       trade_size := 10; trade_price := 0.40 |} ].

(** Fills that are not confirmed. *)
Definition pending_fills : list trade :=
  [ {| trade_status := "MATCHED"; trade_side := "buy";
       trade_size := 10; trade_price := 0.40 |};
    {| trade_status := "MINED"; trade_side := "sell";
       trade_size := 10; trade_price := 0.70 |} ].

(** An exchange that lists the trades [first] and, once its state has
    moved on, the trades [later]. *)
Definition with_trades (first later : list trade) : ClobClient E := {|
  client_create_api_key := client_create_api_key Sample.steady;
  client_get_sampling_simplified_markets :=
    client_get_sampling_simplified_markets Sample.steady;
  client_get_orders := client_get_orders Sample.steady;
  client_create_order := client_create_order Sample.steady;
  client_post_order := client_post_order Sample.steady;
  client_cancel := client_cancel Sample.steady;
  client_get_address := client_get_address Sample.steady;
  client_get_trades := fun _ e => (Ok (match e with O => first | S _ => later end), e)
|}.

(** Two markets, as the exchange lists them. *)
Definition listed : list market :=
  [ {| condition_id := "0x12345678"; outcomes := ["Yes"; "No"]; description := None |};
    {| condition_id := "0xab"; outcomes := ["Up"]; description := Some "old" |} ].

Definition with_markets (data : list market) : ClobClient E := {|
  client_create_api_key := client_create_api_key Sample.steady;
  client_get_sampling_simplified_markets := fun e => (Ok data, e);
  client_get_orders := client_get_orders Sample.steady;
  client_create_order := client_create_order Sample.steady;
  client_post_order := client_post_order Sample.steady;
  client_cancel := client_cancel Sample.steady;
  client_get_address := client_get_address Sample.steady;
  client_get_trades := client_get_trades Sample.steady
|}.

End Scenario.

(** The bot after the confirmed cancel of its one order. *)
Definition one_canceled : state Sample.E :=
  snd (cancel_order Sample.steady "order-" Sample.one_order).

(** What each method leaves alone, of the five fields of the bot. *)
Definition method_frame {E : Type} (m : method) (s s' : state E) : Prop :=
  match m with
  | CreateApiKey | GetMidPrice _ _ | GetRewardsTotal => same_bot s s'
  | GetActiveMarkets =>
      orders s' = orders s /\ pnl_history s' = pnl_history s /\
      clock s' = clock s /\ submitted s' = submitted s
  | GetPnl =>
      orders s' = orders s /\ markets s' = markets s /\
      clock s' = clock s /\ submitted s' = submitted s
  | PlaceLimitOrder _ _ _ _ _ _ =>
      markets s' = markets s /\ pnl_history s' = pnl_history s /\ clock s' = clock s
  | CancelOrder _ =>
      markets s' = markets s /\ pnl_history s' = pnl_history s /\
      clock s' = clock s /\ submitted s' = submitted s
  | RunStrategy _ _ _ _ _ =>
      markets s' = markets s /\ pnl_history s' = pnl_history s
  end.

(** The description [get_active_markets] gives a market. *)
Definition description_of (m : market) : string :=
  ("Market " ++ last_chars 6 (condition_id m) ++ " - Outcomes: "
   ++ join ", " (outcomes m))%string.

(** The bot after one call of [get_pnl] on the steady exchange. *)
Definition one_snapshot : state Sample.E := snd (get_pnl Sample.steady Sample.start).

(** The bot after a one-minute run that follows. *)
Definition after_run : state Sample.E :=
  match run_strategy Sample.steady Sample.min_size "m" "t" 20 0.03 1 one_snapshot with
  | Some (_, s) => s
  | None => one_snapshot
  end.

(** The bot after a second call of [get_pnl]. *)
Definition two_snapshots : state Sample.E := snd (get_pnl Sample.steady after_run).

(** ** Facts about the Python primitives *)

Lemma Qlt_bool_true (x y : Q) : Qlt_bool x y = true <-> x < y.
Proof.
  unfold Qlt_bool. rewrite negb_true_iff.
  split; intro H.
  - apply Qnot_le_lt. intro Hle. apply Qle_bool_iff in Hle. congruence.
  - destruct (Qle_bool y x) eqn:Hb; [|reflexivity].
    apply Qle_bool_iff in Hb. exfalso. exact (Qlt_not_le _ _ H Hb).
Qed.

Lemma Qlt_bool_false (x y : Q) : Qlt_bool x y = false <-> y <= x.
Proof.
  unfold Qlt_bool. rewrite negb_false_iff. apply Qle_bool_iff.
Qed.

Lemma py_max_bounds (a b : Q) : a <= Py.max a b /\ b <= Py.max a b.
Proof.
  unfold Py.max. destruct (Qlt_bool a b) eqn:H.
  - apply Qlt_bool_true in H. split; [apply Qlt_le_weak; exact H | apply Qle_refl].
  - apply Qlt_bool_false in H. split; [apply Qle_refl | exact H].
Qed.

Lemma py_min_bounds (a b : Q) : Py.min a b <= a /\ Py.min a b <= b.
Proof.
  unfold Py.min. destruct (Qlt_bool b a) eqn:H.
  - apply Qlt_bool_true in H. split; [apply Qlt_le_weak; exact H | apply Qle_refl].
  - apply Qlt_bool_false in H. split; [apply Qle_refl | exact H].
Qed.

Lemma py_max_least (a b c : Q) : a <= c -> b <= c -> Py.max a b <= c.
Proof. unfold Py.max. destruct (Qlt_bool a b); auto. Qed.

Section Extrema.

Context {A : Type} (key : A -> Q).

Lemma max_from_greatest (rest : list A) :
  forall best, greatest_in key (best :: rest) (max_from key best rest).
Proof.
  induction rest as [|x rest IH]; intro best; simpl.
  - split; [left; reflexivity|].
    intros y [<-|[]]. apply Qle_refl.
  - destruct (IH (if Qlt_bool (key best) (key x) then x else best)) as [Hin Hub].
    assert (Hb : key best <= key (if Qlt_bool (key best) (key x) then x else best)
                 /\ key x <= key (if Qlt_bool (key best) (key x) then x else best)).
    { destruct (Qlt_bool (key best) (key x)) eqn:Hc.
      - apply Qlt_bool_true in Hc. split; [apply Qlt_le_weak; exact Hc | apply Qle_refl].
      - apply Qlt_bool_false in Hc. split; [apply Qle_refl | exact Hc]. }
    destruct Hb as [Hb1 Hb2]. split.
    + destruct Hin as [Hin|Hin].
      * destruct (Qlt_bool (key best) (key x)); rewrite <- Hin; simpl; auto.
      * right; right; exact Hin.
    + intros y [<-|[<-|Hy]].
      * eapply Qle_trans; [exact Hb1 | apply Hub; left; reflexivity].
      * eapply Qle_trans; [exact Hb2 | apply Hub; left; reflexivity].
      * apply Hub. right. exact Hy.
Qed.

Lemma min_from_least (rest : list A) :
  forall best, least_in key (best :: rest) (min_from key best rest).
Proof.
  induction rest as [|x rest IH]; intro best; simpl.
  - split; [left; reflexivity|].
    intros y [<-|[]]. apply Qle_refl.
  - destruct (IH (if Qlt_bool (key x) (key best) then x else best)) as [Hin Hlb].
    assert (Hb : key (if Qlt_bool (key x) (key best) then x else best) <= key best
                 /\ key (if Qlt_bool (key x) (key best) then x else best) <= key x).
    { destruct (Qlt_bool (key x) (key best)) eqn:Hc.
      - apply Qlt_bool_true in Hc. split; [apply Qlt_le_weak; exact Hc | apply Qle_refl].
      - apply Qlt_bool_false in Hc. split; [apply Qle_refl | exact Hc]. }
    destruct Hb as [Hb1 Hb2]. split.
    + destruct Hin as [Hin|Hin].
      * destruct (Qlt_bool (key x) (key best)); rewrite <- Hin; simpl; auto.
      * right; right; exact Hin.
    + intros y [<-|[<-|Hy]].
      * eapply Qle_trans; [apply Hlb; left; reflexivity | exact Hb1].
      * eapply Qle_trans; [apply Hlb; left; reflexivity | exact Hb2].
      * apply Hlb. right. exact Hy.
Qed.

End Extrema.

Lemma is_maximum_unique (l : list Q) (m m' : Q) :
  is_maximum l m -> is_maximum l m' -> m == m'.
Proof.
  intros [[x [Hx Ex]] Hub] [[x' [Hx' Ex']] Hub'].
  apply Qle_antisym.
  - rewrite <- Ex. apply Hub'. exact Hx.
  - rewrite <- Ex'. apply Hub. exact Hx'.
Qed.

Lemma is_minimum_unique (l : list Q) (m m' : Q) :
  is_minimum l m -> is_minimum l m' -> m == m'.
Proof.
  intros [[x [Hx Ex]] Hlb] [[x' [Hx' Ex']] Hlb'].
  apply Qle_antisym.
  - rewrite <- Ex'. apply Hlb. exact Hx'.
  - rewrite <- Ex. apply Hlb'. exact Hx.
Qed.

Lemma fold_left_Qmax_is_maximum (rest : list Q) :
  forall x, is_maximum (x :: rest) (fold_left Qmax rest x).
Proof.
  induction rest as [|y rest IH]; intro x; simpl.
  - split; [exists x; split; [left; reflexivity | reflexivity]|].
    intros z [<-|[]]. apply Qle_refl.
  - destruct (IH (Qmax x y)) as [[z [Hz Ez]] Hub]. split.
    + destruct Hz as [Hz|Hz].
      * destruct (Q.max_spec x y) as [[_ Hm]|[_ Hm]].
        -- exists y. split; [right; left; reflexivity|]. rewrite <- Ez, <- Hz, Hm. reflexivity.
        -- exists x. split; [left; reflexivity|]. rewrite <- Ez, <- Hz, Hm. reflexivity.
      * exists z. split; [right; right; exact Hz | exact Ez].
    + intros w [<-|[<-|Hw]].
      * eapply Qle_trans; [apply Q.le_max_l | apply Hub; left; reflexivity].
      * eapply Qle_trans; [apply Q.le_max_r | apply Hub; left; reflexivity].
      * apply Hub. right. exact Hw.
Qed.

Lemma fold_left_Qmin_is_minimum (rest : list Q) :
  forall x, is_minimum (x :: rest) (fold_left Qmin rest x).
Proof.
  induction rest as [|y rest IH]; intro x; simpl.
  - split; [exists x; split; [left; reflexivity | reflexivity]|].
    intros z [<-|[]]. apply Qle_refl.
  - destruct (IH (Qmin x y)) as [[z [Hz Ez]] Hlb]. split.
    + destruct Hz as [Hz|Hz].
      * destruct (Q.min_spec x y) as [[_ Hm]|[_ Hm]].
        -- exists x. split; [left; reflexivity|]. rewrite <- Ez, <- Hz, Hm. reflexivity.
        -- exists y. split; [right; left; reflexivity|]. rewrite <- Ez, <- Hz, Hm. reflexivity.
      * exists z. split; [right; right; exact Hz | exact Ez].
    + intros w [<-|[<-|Hw]].
      * eapply Qle_trans; [apply Hlb; left; reflexivity | apply Q.le_min_l].
      * eapply Qle_trans; [apply Hlb; left; reflexivity | apply Q.le_min_r].
      * apply Hlb. right. exact Hw.
Qed.

Lemma is_maximum_Permutation (l l' : list Q) (m : Q) :
  Permutation l l' -> is_maximum l m -> is_maximum l' m.
Proof.
  intros HP [[x [Hx Ex]] Hub]. split.
  - exists x. split; [eapply Permutation_in; eassumption | exact Ex].
  - intros y Hy. apply Hub. eapply Permutation_in; [apply Permutation_sym|]; eassumption.
Qed.

Lemma is_minimum_Permutation (l l' : list Q) (m : Q) :
  Permutation l l' -> is_minimum l m -> is_minimum l' m.
Proof.
  intros HP [[x [Hx Ex]] Hlb]. split.
  - exists x. split; [eapply Permutation_in; eassumption | exact Ex].
  - intros y Hy. apply Hlb. eapply Permutation_in; [apply Permutation_sym|]; eassumption.
Qed.

Lemma maximum_Permutation (d : Q) (l l' : list Q) :
  Permutation l l' -> maximum d l == maximum d l'.
Proof.
  intro HP. destruct l as [|x r]; destruct l' as [|x' r'].
  - reflexivity.
  - apply Permutation_nil in HP. discriminate.
  - apply Permutation_sym, Permutation_nil in HP. discriminate.
  - simpl. apply (is_maximum_unique (x' :: r')).
    + eapply is_maximum_Permutation; [exact HP|]. apply fold_left_Qmax_is_maximum.
    + apply fold_left_Qmax_is_maximum.
Qed.

Lemma minimum_Permutation (d : Q) (l l' : list Q) :
  Permutation l l' -> minimum d l == minimum d l'.
Proof.
  intro HP. destruct l as [|x r]; destruct l' as [|x' r'].
  - reflexivity.
  - apply Permutation_nil in HP. discriminate.
  - apply Permutation_sym, Permutation_nil in HP. discriminate.
  - simpl. apply (is_minimum_unique (x' :: r')).
    + eapply is_minimum_Permutation; [exact HP|]. apply fold_left_Qmin_is_minimum.
    + apply fold_left_Qmin_is_minimum.
Qed.

Lemma filter_Permutation {A : Type} (f : A -> bool) (l l' : list A) :
  Permutation l l' -> Permutation (filter f l) (filter f l').
Proof.
  induction 1 as [|x l l' _ IH|x y l|l l' l'' _ IH1 _ IH2]; simpl.
  - constructor.
  - destruct (f x); [constructor|]; exact IH.
  - destruct (f x), (f y); try apply Permutation_refl. apply perm_swap.
  - eapply Permutation_trans; eassumption.
Qed.

Lemma spec_best_bid_Permutation (book book' : list open_order) :
  Permutation book book' -> spec_best_bid book == spec_best_bid book'.
Proof.
  intro HP. apply maximum_Permutation, Permutation_map, filter_Permutation, HP.
Qed.

Lemma spec_best_ask_Permutation (book book' : list open_order) :
  Permutation book book' -> spec_best_ask book == spec_best_ask book'.
Proof.
  intro HP. apply minimum_Permutation, Permutation_map, filter_Permutation, HP.
Qed.

(** The price of the order Python's [max] picks is the maximum price. *)
Lemma max_from_price (b : open_order) (bs : list open_order) :
  oo_price (max_from oo_price b bs) == maximum 0 (map oo_price (b :: bs)).
Proof.
  simpl. destruct (max_from_greatest oo_price bs b) as [Hin Hub].
  apply (is_maximum_unique (map oo_price (b :: bs))).
  - split.
    + exists (oo_price (max_from oo_price b bs)).
      split; [apply in_map; exact Hin | reflexivity].
    + intros x Hx. apply in_map_iff in Hx. destruct Hx as [o [<- Ho]]. apply Hub, Ho.
  - apply (fold_left_Qmax_is_maximum (map oo_price bs) (oo_price b)).
Qed.

Lemma min_from_price (a : open_order) (l : list open_order) :
  oo_price (min_from oo_price a l) == minimum 1 (map oo_price (a :: l)).
Proof.
  simpl. destruct (min_from_least oo_price l a) as [Hin Hlb].
  apply (is_minimum_unique (map oo_price (a :: l))).
  - split.
    + exists (oo_price (min_from oo_price a l)).
      split; [apply in_map; exact Hin | reflexivity].
    + intros x Hx. apply in_map_iff in Hx. destruct Hx as [o [<- Ho]]. apply Hlb, Ho.
  - apply (fold_left_Qmin_is_minimum (map oo_price l) (oo_price a)).
Qed.

(** ** The quote pricer *)

Section Pricer.

Variable E : Type.
Variable client : ClobClient E.

Lemma get_mid_price_raised (market_id token_id : string) (s : state E) (e : string) (x : E) :
  client_get_orders client market_id token_id (exch s) = (Raise e, x) ->
  get_mid_price client market_id token_id s = (Ok 0.5, set_exch x s).
Proof.
  intro Hf. unfold get_mid_price, try_except, get_mid_price_body, bind, call.
  rewrite Hf. reflexivity.
Qed.

Lemma get_mid_price_fetched (market_id token_id : string) (s : state E)
    (book : list open_order) (x : E) :
  client_get_orders client market_id token_id (exch s) = (Ok book, x) ->
  exists mid,
    get_mid_price client market_id token_id s = (Ok mid, set_exch x s) /\
    mid == (spec_best_bid book + spec_best_ask book) / 2 /\
    (bids_of book = [] -> asks_of book = [] -> mid = 0.5).
Proof.
  intro Hf. unfold get_mid_price, try_except, get_mid_price_body, bind, call.
  rewrite Hf. fold (bids_of book) (asks_of book).
  unfold spec_best_bid, spec_best_ask.
  destruct (bids_of book) as [|b bs] eqn:Hb; destruct (asks_of book) as [|a l] eqn:Ha;
    cbn [is_empty andb ret lift_result max_key min_key map].
  - exists 0.5. split; [reflexivity|]. split; [reflexivity | auto].
  - eexists. split; [reflexivity|]. split; [|discriminate].
    rewrite min_from_price. reflexivity.
  - eexists. split; [reflexivity|]. split; [|discriminate].
    rewrite max_from_price. reflexivity.
  - eexists. split; [reflexivity|]. split; [|discriminate].
    rewrite max_from_price, min_from_price. reflexivity.
Qed.

(** C3.  When the order book is fetched, [get_mid_price] returns the mean
    of the best bid and the best ask, where the best bid is the largest bid
    price (0 without bids) and the best ask the smallest ask price (1
    without asks); with neither bids nor asks it returns exactly 0.5; and
    fetching the same orders in any other order gives the same price. *)
Theorem get_mid_price_mean (market_id token_id : string) (s : state E)
    (book : list open_order) (x : E) :
  client_get_orders client market_id token_id (exch s) = (Ok book, x) ->
  exists mid,
    get_mid_price client market_id token_id s = (Ok mid, set_exch x s) /\
    mid == (spec_best_bid book + spec_best_ask book) / 2 /\
    (bids_of book = [] -> asks_of book = [] -> mid = 0.5) /\
    (forall (s' : state E) (book' : list open_order) (x' : E),
        Permutation book book' ->
        client_get_orders client market_id token_id (exch s') = (Ok book', x') ->
        exists mid',
          get_mid_price client market_id token_id s' = (Ok mid', set_exch x' s') /\
          mid' == mid).
Proof.
  intro Hf. destruct (get_mid_price_fetched _ _ _ _ _ Hf) as [mid [Hrun [Hmid Hnone]]].
  exists mid. repeat split; try assumption.
  intros s' book' x' HP Hf'.
  destruct (get_mid_price_fetched _ _ _ _ _ Hf') as [mid' [Hrun' [Hmid' _]]].
  exists mid'. split; [exact Hrun'|].
  rewrite Hmid, Hmid'.
  rewrite (spec_best_bid_Permutation _ _ HP), (spec_best_ask_Permutation _ _ HP).
  reflexivity.
Qed.

Lemma spec_best_bid_range (book : list open_order) :
  Forall (fun order => 0 <= oo_price order <= 1) book ->
  0 <= spec_best_bid book <= 1.
Proof.
  intro HF. unfold spec_best_bid.
  destruct (map oo_price (bids_of book)) as [|p ps] eqn:Hm; simpl.
  - split; [apply Qle_refl | discriminate].
  - destruct (fold_left_Qmax_is_maximum ps p) as [[y [Hy Ey]] _].
    rewrite <- Hm in Hy. apply in_map_iff in Hy. destruct Hy as [o [Ho Hin]].
    apply filter_In in Hin. destruct Hin as [Hin _].
    rewrite Forall_forall in HF. specialize (HF o Hin).
    rewrite <- Ey, <- Ho. exact HF.
Qed.

Lemma spec_best_ask_range (book : list open_order) :
  Forall (fun order => 0 <= oo_price order <= 1) book ->
  0 <= spec_best_ask book <= 1.
Proof.
  intro HF. unfold spec_best_ask.
  destruct (map oo_price (asks_of book)) as [|p ps] eqn:Hm; simpl.
  - split; [discriminate | apply Qle_refl].
  - destruct (fold_left_Qmin_is_minimum ps p) as [[y [Hy Ey]] _].
    rewrite <- Hm in Hy. apply in_map_iff in Hy. destruct Hy as [o [Ho Hin]].
    apply filter_In in Hin. destruct Hin as [Hin _].
    rewrite Forall_forall in HF. specialize (HF o Hin).
    rewrite <- Ey, <- Ho. exact HF.
Qed.

(** C9, amended.  [get_mid_price] always returns, and what it returns lies
    in [0, 1] when the prices of the fetched order book lie in [0, 1] and
    when the book cannot be fetched. *)
Theorem get_mid_price_range (market_id token_id : string) (s : state E) :
  (forall book x,
      client_get_orders client market_id token_id (exch s) = (Ok book, x) ->
      Forall (fun order => 0 <= oo_price order <= 1) book) ->
  exists mid s',
    get_mid_price client market_id token_id s = (Ok mid, s') /\
    0 <= mid <= 1.
Proof.
  intro Hbook.
  destruct (client_get_orders client market_id token_id (exch s)) as [[book|e] x] eqn:Hf.
  - destruct (get_mid_price_fetched _ _ _ _ _ Hf) as [mid [Hrun [Hmid _]]].
    exists mid, (set_exch x s). split; [exact Hrun|].
    specialize (Hbook book x eq_refl).
    pose proof (spec_best_bid_range _ Hbook) as [Hb0 Hb1].
    pose proof (spec_best_ask_range _ Hbook) as [Ha0 Ha1].
    rewrite Hmid. split.
    + apply Qle_shift_div_l; [reflexivity|].
      setoid_replace (0 * 2) with (0 + 0) by reflexivity.
      apply Qplus_le_compat; assumption.
    + apply Qle_shift_div_r; [reflexivity|].
      setoid_replace (1 * 2) with (1 + 1) by reflexivity.
      apply Qplus_le_compat; assumption.
  - exists 0.5, (set_exch x s). split.
    + apply get_mid_price_raised with (e := e). exact Hf.
    + split; discriminate.
Qed.

End Pricer.

(** ** The order lifecycle manager *)

Section Orders.

Variable E : Type.
Variable client : ClobClient E.
Variable get_market_min_size : string -> E -> result Q * E.

Lemma mem_In (x : string) (l : list string) : mem x l = true <-> In x l.
Proof.
  unfold mem. rewrite existsb_exists. split.
  - intros [y [Hy Heq]]. apply String.eqb_eq in Heq. subst y. exact Hy.
  - intro H. exists x. split; [exact H | apply String.eqb_refl].
Qed.

Lemma set_status_same (o : order_info) : set_status (status o) o = o.
Proof. destruct o; reflexivity. Qed.

Lemma cancel_order_answered (order_id : string) (s : state E) (resp : Resp) (x : E) :
  client_cancel client order_id (exch s) = (Ok resp, x) ->
  cancel_order client order_id s
  = (Ok resp, set_orders (mark_canceled order_id resp (orders s)) (set_exch x s)).
Proof.
  intro Hc. unfold cancel_order, try_except, cancel_order_body, bind, call, modify, ret.
  rewrite Hc. reflexivity.
Qed.

Lemma cancel_order_raised (order_id : string) (s : state E) (e : string) (x : E) :
  client_cancel client order_id (exch s) = (Raise e, x) ->
  cancel_order client order_id s = (Ok (failure_resp e), set_exch x s).
Proof.
  intro Hc. unfold cancel_order, try_except, cancel_order_body, bind, call.
  rewrite Hc. reflexivity.
Qed.

Lemma mark_canceled_listed (order_id : string) (resp : Resp) (os : list order_info) :
  In order_id (canceled_of resp) ->
  mark_canceled order_id resp os = cancel_all order_id os.
Proof.
  intro Hin. apply mem_In in Hin. unfold mark_canceled, cancel_all.
  apply map_ext. intro o. rewrite Hin, andb_true_r. reflexivity.
Qed.

Lemma mark_canceled_unlisted (order_id : string) (resp : Resp) (os : list order_info) :
  ~ In order_id (canceled_of resp) ->
  mark_canceled order_id resp os = os.
Proof.
  intro Hn. unfold mark_canceled.
  destruct (mem order_id (canceled_of resp)) eqn:Hm.
  - apply mem_In in Hm. contradiction.
  - rewrite <- (map_id os) at 2. apply map_ext. intro o.
    rewrite andb_false_r. reflexivity.
Qed.

Lemma mark_canceled_others (order_id : string) (resp : Resp) (os : list order_info) :
  Forall2 (fun o o' => id o <> order_id -> o' = o) os (mark_canceled order_id resp os).
Proof.
  induction os as [|o os IH]; simpl; constructor; [|exact IH].
  intro Hne. apply String.eqb_neq in Hne. rewrite Hne. reflexivity.
Qed.

Lemma Forall2_same {A : Type} (R : A -> A -> Prop) (l : list A) :
  (forall a, R a a) -> Forall2 R l l.
Proof. intro HR. induction l; constructor; auto. Qed.

Lemma mark_canceled_marks (order_id : string) (resp : Resp) (os : list order_info) :
  In order_id (canceled_of resp) ->
  Forall2 (fun o o' => id o = order_id -> status o' = "canceled" /\ same_but_status o o')
    os (mark_canceled order_id resp os).
Proof.
  intro Hin. apply mem_In in Hin.
  induction os as [|o os IH]; simpl; constructor; [|exact IH].
  intro Heq. apply String.eqb_eq in Heq. rewrite Heq, Hin. cbn [andb].
  split; [reflexivity | repeat split].
Qed.

(** C7.  [cancel_order] sets the status of the registry entries carrying
    the cancelled id to ['canceled'], and changes nothing else of them,
    exactly when the exchange lists that id among the canceled ones;
    otherwise, and when the call raises, it leaves the registry as it was;
    and in every case the entries with another id stay as they were. *)
Theorem cancel_order_frame (order_id : string) (s : state E) :
  let s' := snd (cancel_order client order_id s) in
  (cancel_confirmed_by client order_id s ->
   orders s' = cancel_all order_id (orders s) /\
   Forall2 (fun o o' =>
              id o = order_id -> status o' = "canceled" /\ same_but_status o o')
     (orders s) (orders s')) /\
  (~ cancel_confirmed_by client order_id s -> orders s' = orders s) /\
  Forall2 (fun o o' => id o <> order_id -> o' = o) (orders s) (orders s').
Proof.
  destruct (client_cancel client order_id (exch s)) as [[resp|e] x] eqn:Hc.
  - rewrite (cancel_order_answered _ _ _ _ Hc). cbn [snd set_orders orders].
    split; [|split].
    + intros [resp' [x' [Hc' Hin]]].
      rewrite Hc in Hc'. injection Hc' as <- <-.
      split; [apply mark_canceled_listed, Hin | apply mark_canceled_marks, Hin].
    + intro Hn. apply mark_canceled_unlisted. intro Hin.
      apply Hn. exists resp, x. split; [exact Hc | exact Hin].
    + apply mark_canceled_others.
  - rewrite (cancel_order_raised _ _ _ _ Hc). cbn [snd set_exch orders].
    split; [|split].
    + intros [resp' [x' [Hc' _]]]. rewrite Hc in Hc'. discriminate.
    + reflexivity.
    + apply Forall2_same. reflexivity.
Qed.

Lemma clamped_price_range (price : Q) :
  0.01 <= Py.max 0.01 (Py.min 0.99 price) <= 0.99.
Proof.
  split.
  - apply py_max_bounds.
  - apply py_max_least; [discriminate | apply py_min_bounds].
Qed.

(** The outcomes of [place_limit_order], by the call that fails first. *)
Lemma place_limit_order_cases (market_id token_id : string) (side : Side)
    (size price : Q) (fee_rate_bps : Z) (s : state E) :
  (exists e x,
      get_market_min_size market_id (exch s) = (Raise e, x) /\
      place_limit_order_body client get_market_min_size market_id token_id side size
        price fee_rate_bps s = (Raise e, set_exch x s))
  \/
  (exists min_size x s1,
      get_market_min_size market_id (exch s) = (Ok min_size, x) /\
      orders s1 = orders s /\
      pnl_history s1 = pnl_history s /\
      clock s1 = clock s /\
      submitted s1
      = submitted s ++ [clamped_args token_id side size price fee_rate_bps min_size] /\
      ((exists e,
           place_limit_order_body client get_market_min_size market_id token_id side
             size price fee_rate_bps s = (Raise e, s1))
       \/
       (exists resp,
           truthy_str (orderID resp) = false /\
           place_limit_order_body client get_market_min_size market_id token_id side
             size price fee_rate_bps s = (Ok resp, s1))
       \/
       (exists resp oid,
           orderID resp = Some oid /\
           truthy_str (orderID resp) = true /\
           place_limit_order_body client get_market_min_size market_id token_id side
             size price fee_rate_bps s
           = (Ok resp,
              set_orders
                (orders s ++
                   [placed_order oid market_id token_id side size price min_size
                      (clock s)]) s1)))).
Proof.
  unfold place_limit_order_body, create_order, bind, call, modify, gets, ret.
  destruct (get_market_min_size market_id (exch s)) as [[min_size|e] x] eqn:Hm.
  2:{ left. exists e, x. split; reflexivity. }
  right. exists min_size, x. cbn [exch set_exch set_submitted submitted].
  match goal with
  | |- context [client_create_order client ?a ?y] =>
      destruct (client_create_order client a y) as [[signed|e] x1] eqn:Hs
  end.
  2:{ eexists. split; [reflexivity|].
      split; [|split; [|split; [|split]]];
        [| | | | left; exists e; reflexivity]; reflexivity. }
  cbn [exch set_exch].
  destruct (client_post_order client signed GTC x1) as [[resp|e] x2] eqn:Hp.
  2:{ eexists. split; [reflexivity|].
      split; [|split; [|split; [|split]]];
        [| | | | left; exists e; reflexivity]; reflexivity. }
  destruct (orderID resp) as [oid|] eqn:Ho.
  - destruct (truthy_str (Some oid)) eqn:Ht.
    + eexists. split; [reflexivity|].
      split; [|split; [|split; [|split]]];
        [| | | | right; right; exists resp, oid; rewrite Ho; repeat split; try exact Ht];
        reflexivity.
    + eexists. split; [reflexivity|].
      split; [|split; [|split; [|split]]];
        [| | | | right; left; exists resp; rewrite Ho; split; [exact Ht | reflexivity]];
        reflexivity.
  - eexists. split; [reflexivity|].
    split; [|split; [|split; [|split]]];
      [| | | | right; left; exists resp; rewrite Ho; split; reflexivity];
      reflexivity.
Qed.

Lemma place_limit_order_total (market_id token_id : string) (side : Side)
    (size price : Q) (fee_rate_bps : Z) (s : state E) :
  exists resp s',
    place_limit_order client get_market_min_size market_id token_id side size price
      fee_rate_bps s = (Ok resp, s') /\
    pnl_history s' = pnl_history s /\
    clock s' = clock s /\
    ((truthy_str (orderID resp) = false /\ orders s' = orders s) \/
     (exists oid min_size,
         orderID resp = Some oid /\
         truthy_str (orderID resp) = true /\
         orders s'
         = orders s ++
             [placed_order oid market_id token_id side size price min_size (clock s)])).
Proof.
  unfold place_limit_order, try_except.
  destruct (place_limit_order_cases market_id token_id side size price fee_rate_bps s)
    as [[e [x [_ Hb]]] | [m [x [s1 [_ [Ho [Hh [Hc [_ Hb]]]]]]]]].
  - rewrite Hb. exists (failure_resp e), (set_exch x s).
    repeat split. left. split; reflexivity.
  - destruct Hb as [[e Hb] | [[resp [Ht Hb]] | [resp [oid [Hid [Ht Hb]]]]]]; rewrite Hb.
    + exists (failure_resp e), s1. repeat split; try assumption.
      left. split; [reflexivity | exact Ho].
    + exists resp, s1. repeat split; try assumption.
      left. split; assumption.
    + eexists resp, _. split; [reflexivity|].
      cbn [set_orders pnl_history clock orders]. repeat split; try assumption.
      right. exists oid, m. repeat split; assumption.
Qed.

(** C5.  Whatever price and size are requested, every order
    [place_limit_order] hands to the exchange client has its price in
    [0.01, 0.99] and a size not below the minimum order size the exchange
    reported for the market. *)
Theorem place_limit_order_clamps (market_id token_id : string) (side : Side)
    (size price : Q) (fee_rate_bps : Z) (s : state E) :
  exists sent,
    submitted (snd (place_limit_order client get_market_min_size market_id token_id
                      side size price fee_rate_bps s))
    = submitted s ++ sent /\
    Forall (fun args =>
              0.01 <= oa_price args <= 0.99 /\
              forall min_size x,
                get_market_min_size market_id (exch s) = (Ok min_size, x) ->
                min_size <= oa_size args) sent.
Proof.
  unfold place_limit_order, try_except.
  destruct (place_limit_order_cases market_id token_id side size price fee_rate_bps s)
    as [[e [x [_ Hb]]] | [m [x [s1 [Hm [_ [_ [_ [Hs Hb]]]]]]]]].
  - rewrite Hb. exists []. cbn [snd ret]. rewrite app_nil_r. split; [reflexivity | constructor].
  - exists [clamped_args token_id side size price fee_rate_bps m]. split.
    + destruct Hb as [[e Hb] | [[resp [_ Hb]] | [resp [oid [_ [_ Hb]]]]]];
        rewrite Hb; cbn [snd ret set_orders submitted]; exact Hs.
    + constructor; [|constructor]. split.
      * apply clamped_price_range.
      * intros m' x' Hm'. rewrite Hm in Hm'. injection Hm' as <- _.
        apply py_max_bounds.
Qed.

(** C6.  [place_limit_order] and [cancel_order] always return a response
    and never raise.  When one of their external calls raises, they return
    the dictionary with ['success'] false and ['errorMsg'] the message of
    the exception, and no other key.  A placement that fails, by an
    exception or by an answer without an order id, leaves the registry as
    it was; so does a cancel whose call raises. *)
Theorem failure_policy (market_id token_id : string) (side : Side)
    (size price : Q) (fee_rate_bps : Z) (order_id : string) (s : state E) :
  (exists resp s',
      place_limit_order client get_market_min_size market_id token_id side size price
        fee_rate_bps s = (Ok resp, s') /\
      (truthy_str (orderID resp) = false -> orders s' = orders s)) /\
  (forall e,
      place_call_raises client get_market_min_size market_id token_id side size price
        fee_rate_bps s e ->
      exists resp s',
        place_limit_order client get_market_min_size market_id token_id side size price
          fee_rate_bps s = (Ok resp, s') /\
        success resp = Some false /\ errorMsg resp = Some e /\
        orderID resp = None /\ canceled resp = None /\
        orders s' = orders s) /\
  (exists resp s', cancel_order client order_id s = (Ok resp, s')) /\
  (forall e x,
      client_cancel client order_id (exch s) = (Raise e, x) ->
      exists resp,
        cancel_order client order_id s = (Ok resp, set_exch x s) /\
        success resp = Some false /\ errorMsg resp = Some e /\
        orderID resp = None /\ canceled resp = None /\
        orders (set_exch x s) = orders s).
Proof.
  split; [|split; [|split]].
  - destruct (place_limit_order_total market_id token_id side size price fee_rate_bps s)
      as [resp [s' [Hrun [_ [_ Hcase]]]]].
    exists resp, s'. split; [exact Hrun|]. intro Ht.
    destruct Hcase as [[_ Ho] | [oid [m [_ [Ht' _]]]]]; [exact Ho | congruence].
  - intros e Hraise.
    unfold place_limit_order, try_except, place_limit_order_body, create_order,
      bind, call, modify, gets, ret.
    destruct Hraise as [[x Hm] | [m [x [Hm [[x1 Hs] | [signed [x1 [x2 [Hs Hp]]]]]]]]];
      rewrite Hm; cbn [exch set_exch set_submitted submitted].
    + eexists _, _. split; [reflexivity|]. repeat split.
    + unfold clamped_args in Hs. rewrite Hs. eexists _, _. split; [reflexivity|].
      repeat split.
    + unfold clamped_args in Hs. rewrite Hs. cbn [exch set_exch]. rewrite Hp.
      eexists _, _. split; [reflexivity|]. repeat split.
  - destruct (client_cancel client order_id (exch s)) as [[resp|e] x] eqn:Hc.
    + eexists _, _. apply cancel_order_answered. exact Hc.
    + eexists _, _. apply cancel_order_raised. exact Hc.
  - intros e x Hc. eexists. split; [apply cancel_order_raised; exact Hc|]. repeat split.
Qed.

End Orders.

(** ** The PnL tracker *)

Section Pnl.

Variable E : Type.
Variable client : ClobClient E.

Lemma fold_add_trade_totals (trades : list trade) :
  forall acc,
    sell_revenue (fold_left add_trade trades acc)
    == sell_revenue acc
       + Qsum (map (fun t => trade_size t * (1 - trade_price t))
                 (filter (fun t => (trade_status t =? "CONFIRMED")%string
                                   && negb (trade_side t =? "buy")%string) trades))
    /\
    buy_cost (fold_left add_trade trades acc)
    == buy_cost acc
       + Qsum (map (fun t => trade_size t * trade_price t)
                 (filter (confirmed "buy") trades)).
Proof.
  induction trades as [|t trades IH]; intro acc; simpl.
  - split; rewrite Qplus_0_r; reflexivity.
  - destruct (IH (add_trade acc t)) as [IHs IHb]. rewrite IHs, IHb.
    unfold add_trade, confirmed.
    destruct (trade_status t =? "CONFIRMED")%string; simpl.
    + destruct (trade_side t =? "buy")%string; simpl.
      * split; [reflexivity | rewrite Qplus_assoc; reflexivity].
      * split; [rewrite Qplus_assoc; reflexivity | reflexivity].
    + split; reflexivity.
Qed.

Lemma confirmed_sells (trades : list trade) :
  Forall (fun t => trade_status t = "CONFIRMED" ->
                   trade_side t = "buy" \/ trade_side t = "sell") trades ->
  filter (fun t => (trade_status t =? "CONFIRMED")%string
                   && negb (trade_side t =? "buy")%string) trades
  = filter (confirmed "sell") trades.
Proof.
  intro HF. apply filter_ext_in. intros t Hin.
  rewrite Forall_forall in HF. specialize (HF t Hin).
  unfold confirmed. destruct (trade_status t =? "CONFIRMED")%string eqn:Hs; simpl.
  - apply String.eqb_eq in Hs. destruct (HF Hs) as [Hb|Hb]; rewrite Hb; reflexivity.
  - reflexivity.
Qed.

Lemma sum_trades_realized (trades : list trade) :
  Forall (fun t => trade_status t = "CONFIRMED" ->
                   trade_side t = "buy" \/ trade_side t = "sell") trades ->
  sell_revenue (sum_trades trades) - buy_cost (sum_trades trades)
  == spec_realized_pnl trades.
Proof.
  intro HF. unfold sum_trades, spec_realized_pnl.
  destruct (fold_add_trade_totals trades
              {| buy_volume := 0; buy_cost := 0; sell_volume := 0; sell_revenue := 0 |})
    as [Hs Hb].
  rewrite Hs, Hb, (confirmed_sells _ HF). simpl. rewrite !Qplus_0_l. reflexivity.
Qed.

Lemma get_pnl_fetched (s : state E) (address : string) (trades : list trade) (x1 x2 : E) :
  client_get_address client (exch s) = (Ok address, x1) ->
  client_get_trades client address x1 = (Ok trades, x2) ->
  get_pnl client s
  = (Ok (pnl_history s ++ [pnl_snapshot trades (clock s)]),
     set_pnl_history (pnl_history s ++ [pnl_snapshot trades (clock s)])
       (set_exch x2 (set_exch x1 s))).
Proof.
  intros Ha Ht.
  unfold get_pnl, try_except, get_pnl_body, get_rewards_total, bind, call, modify, gets, ret.
  rewrite Ha. cbn [exch set_exch]. rewrite Ht. reflexivity.
Qed.

Lemma get_pnl_failed (s : state E) :
  ~ (exists trades, trades_fetched client s trades) ->
  fst (get_pnl client s) = Ok [] /\
  pnl_history (snd (get_pnl client s)) = pnl_history s.
Proof.
  intro Hn.
  unfold get_pnl, try_except, get_pnl_body, get_rewards_total, bind, call, modify, gets, ret.
  destruct (client_get_address client (exch s)) as [[address|e] x1] eqn:Ha.
  - cbn [exch set_exch].
    destruct (client_get_trades client address x1) as [[trades|e] x2] eqn:Ht.
    + exfalso. apply Hn. exists trades, address, x1, x2. split; assumption.
    + split; reflexivity.
  - split; reflexivity.
Qed.

(** In exact arithmetic: when [get_pnl] retrieves the trades, the realized
    PnL of the snapshot it appends is the sum of [size * (1 - price)] over
    the confirmed sells minus the sum of [size * price] over the confirmed
    buys, trades of any other status being ignored, which for a confirmed
    buy of 10 at 0.40 and a confirmed sell of 10 at 0.70 is -1. *)
Lemma get_pnl_realized_exact (s : state E) (trades : list trade) :
  trades_fetched client s trades ->
  exists snap,
    pnl_history (snd (get_pnl client s)) = pnl_history s ++ [snap] /\
    (Forall (fun t => trade_status t = "CONFIRMED" ->
                      trade_side t = "buy" \/ trade_side t = "sell") trades ->
     realized_pnl snap == spec_realized_pnl trades) /\
    (trades
     = [ {| trade_status := "CONFIRMED"; trade_side := "buy";
            trade_size := 10; trade_price := 0.40 |};
         {| trade_status := "CONFIRMED"; trade_side := "sell";
            trade_size := 10; trade_price := 0.70 |} ] ->
     realized_pnl snap == -1).
Proof.
  intros [address [x1 [x2 [Ha Ht]]]].
  exists (pnl_snapshot trades (clock s)).
  rewrite (get_pnl_fetched _ _ _ _ _ Ha Ht). cbn [snd set_pnl_history pnl_history].
  split; [reflexivity|]. split.
  - intro HF. unfold pnl_snapshot. cbn [realized_pnl]. apply sum_trades_realized, HF.
  - intros ->. reflexivity.
Qed.

(** C8.  A call of [get_pnl] either appends exactly one snapshot to the PnL
    history, when the trades are retrieved, or leaves the history as it
    was, when they are not; the earlier entries stay in place and the
    history never gets shorter; and two calls that retrieve the same
    trades append snapshots with the same realized PnL and rewards. *)
Theorem pnl_history_append_only (s : state E) :
  ((exists snap,
       pnl_history (snd (get_pnl client s)) = pnl_history s ++ [snap] /\
       fst (get_pnl client s) = Ok (pnl_history s ++ [snap])) \/
   (pnl_history (snd (get_pnl client s)) = pnl_history s /\
    fst (get_pnl client s) = Ok [])) /\
  ((exists trades, trades_fetched client s trades) ->
   exists snap, pnl_history (snd (get_pnl client s)) = pnl_history s ++ [snap]) /\
  (~ (exists trades, trades_fetched client s trades) ->
   pnl_history (snd (get_pnl client s)) = pnl_history s) /\
  firstn (List.length (pnl_history s)) (pnl_history (snd (get_pnl client s)))
  = pnl_history s /\
  (List.length (pnl_history s) <= List.length (pnl_history (snd (get_pnl client s))))%nat /\
  (forall (s2 : state E) (trades : list trade),
      trades_fetched client s trades ->
      trades_fetched client s2 trades ->
      exists snap snap2,
        pnl_history (snd (get_pnl client s)) = pnl_history s ++ [snap] /\
        pnl_history (snd (get_pnl client s2)) = pnl_history s2 ++ [snap2] /\
        realized_pnl snap = realized_pnl snap2 /\
        rewards snap = rewards snap2).
Proof.
  assert (Hcases :
    (exists trades, trades_fetched client s trades /\
       get_pnl client s
       = (Ok (pnl_history s ++ [pnl_snapshot trades (clock s)]),
          set_pnl_history (pnl_history s ++ [pnl_snapshot trades (clock s)])
            (snd (get_pnl client s))) /\
       pnl_history (snd (get_pnl client s))
       = pnl_history s ++ [pnl_snapshot trades (clock s)]) \/
    (~ (exists trades, trades_fetched client s trades) /\
     fst (get_pnl client s) = Ok [] /\
     pnl_history (snd (get_pnl client s)) = pnl_history s)).
  { destruct (client_get_address client (exch s)) as [[address|e] x1] eqn:Ha.
    - destruct (client_get_trades client address x1) as [[trades|e] x2] eqn:Ht.
      + left. exists trades. split; [exists address, x1, x2; split; assumption|].
        rewrite (get_pnl_fetched _ _ _ _ _ Ha Ht). split; reflexivity.
      + right.
        assert (Hn : ~ (exists trades, trades_fetched client s trades)).
        { intros [trades [a [y1 [y2 [Ha' Ht']]]]].
          rewrite Ha in Ha'. injection Ha' as <- <-. rewrite Ht in Ht'. discriminate. }
        split; [exact Hn | apply get_pnl_failed, Hn].
    - right.
      assert (Hn : ~ (exists trades, trades_fetched client s trades)).
      { intros [trades [a [y1 [y2 [Ha' _]]]]]. rewrite Ha in Ha'. discriminate. }
      split; [exact Hn | apply get_pnl_failed, Hn]. }
  split; [|split; [|split; [|split; [|split]]]].
  - destruct Hcases as [[trades [_ [Hrun Hh]]] | [_ [Hr Hh]]].
    + left. eexists. split; [exact Hh|]. rewrite Hrun. reflexivity.
    + right. split; assumption.
  - intro Hex. destruct Hcases as [[trades [_ [_ Hh]]] | [Hn _]].
    + eexists. exact Hh.
    + exfalso. apply Hn, Hex.
  - intro Hn. destruct Hcases as [[trades [Hf _]] | [_ [_ Hh]]].
    + exfalso. apply Hn. exists trades. exact Hf.
    + exact Hh.
  - destruct Hcases as [[trades [_ [_ Hh]]] | [_ [_ Hh]]]; rewrite Hh.
    + rewrite firstn_app, Nat.sub_diag, firstn_all. simpl. apply app_nil_r.
    + apply firstn_all.
  - destruct Hcases as [[trades [_ [_ Hh]]] | [_ [_ Hh]]]; rewrite Hh.
    + rewrite length_app. lia.
    + lia.
  - intros s2 trades [a [x1 [x2 [Ha Ht]]]] [a2 [y1 [y2 [Ha2 Ht2]]]].
    exists (pnl_snapshot trades (clock s)), (pnl_snapshot trades (clock s2)).
    rewrite (get_pnl_fetched _ _ _ _ _ Ha Ht), (get_pnl_fetched _ _ _ _ _ Ha2 Ht2).
    repeat split.
Qed.

End Pnl.

(** ** The strategy loop: what one cycle does *)

Section Cycle.

Variable E : Type.
Variable client : ClobClient E.
Variable get_market_min_size : string -> E -> result Q * E.

Lemma get_mid_price_total (market_id token_id : string) (s : state E) :
  exists mid x, get_mid_price client market_id token_id s = (Ok mid, set_exch x s).
Proof.
  destruct (client_get_orders client market_id token_id (exch s)) as [[book|e] x] eqn:Hf.
  - destruct (get_mid_price_fetched E client _ _ _ _ _ Hf) as [mid [Hrun _]].
    exists mid, x. exact Hrun.
  - exists 0.5, x. apply get_mid_price_raised with (e := e). exact Hf.
Qed.

Lemma cancel_order_effect (order_id : string) (s : state E) :
  exists resp s1,
    cancel_order client order_id s = (Ok resp, s1) /\
    clock s1 = clock s /\
    pnl_history s1 = pnl_history s /\
    (orders s1 = orders s \/ orders s1 = cancel_all order_id (orders s)) /\
    (cancels_confirmed client -> orders s1 = cancel_all order_id (orders s)).
Proof.
  destruct (client_cancel client order_id (exch s)) as [[resp|e] x] eqn:Hc.
  - exists resp. eexists. split; [apply cancel_order_answered; exact Hc|].
    cbn [set_orders set_exch clock pnl_history orders]. repeat split.
    + destruct (mem order_id (canceled_of resp)) eqn:Hm.
      * right. apply mark_canceled_listed, mem_In, Hm.
      * left. apply mark_canceled_unlisted. intro Hin. apply mem_In in Hin. congruence.
    + intro Hall. destruct (Hall order_id (exch s)) as [resp' [x' [Hc' Hin]]].
      rewrite Hc in Hc'. injection Hc' as <- <-.
      apply mark_canceled_listed, Hin.
  - exists (failure_resp e). eexists. split; [apply cancel_order_raised; exact Hc|].
    cbn [set_exch clock pnl_history orders]. repeat split.
    + left. reflexivity.
    + intro Hall. destruct (Hall order_id (exch s)) as [resp' [x' [Hc' _]]].
      rewrite Hc in Hc'. discriminate.
Qed.

Lemma cancel_active_buy_effect (sl : state E * locals) :
  exists s1,
    cancel_active_buy client sl = (Ok tt, (s1, set_active_buy_order None (snd sl))) /\
    clock s1 = clock (fst sl) /\
    pnl_history s1 = pnl_history (fst sl) /\
    canceled_from (cancels_confirmed client) (active_buy_order (snd sl))
      (orders (fst sl)) (orders s1).
Proof.
  destruct sl as [s [ab asl]].
  unfold cancel_active_buy, bind, get_local, gets, on_self, assign, modify, ret.
  cbn [fst snd active_buy_order active_sell_order set_active_buy_order].
  destruct ab as [o|]; cbn [fst snd].
  - destruct (cancel_order_effect (id o) s) as [resp [s1 [Hrun [Hc [Hh [Ho Hall]]]]]].
    rewrite Hrun. exists s1. cbn [fst snd active_sell_order].
    split; [reflexivity|]. repeat split; assumption.
  - exists s. repeat split.
Qed.

Lemma cancel_active_sell_effect (sl : state E * locals) :
  exists s1,
    cancel_active_sell client sl = (Ok tt, (s1, set_active_sell_order None (snd sl))) /\
    clock s1 = clock (fst sl) /\
    pnl_history s1 = pnl_history (fst sl) /\
    canceled_from (cancels_confirmed client) (active_sell_order (snd sl))
      (orders (fst sl)) (orders s1).
Proof.
  destruct sl as [s [ab asl]].
  unfold cancel_active_sell, bind, get_local, gets, on_self, assign, modify, ret.
  cbn [fst snd active_buy_order active_sell_order set_active_sell_order].
  destruct asl as [o|]; cbn [fst snd].
  - destruct (cancel_order_effect (id o) s) as [resp [s1 [Hrun [Hc [Hh [Ho Hall]]]]]].
    rewrite Hrun. exists s1. cbn [fst snd active_buy_order].
    split; [reflexivity|]. repeat split; assumption.
  - exists s. repeat split.
Qed.

Lemma find_appended (os : list order_info) (o : order_info) :
  exists a,
    find (fun x => (id x =? id o)%string) (os ++ [o]) = Some a /\ id a = id o.
Proof.
  destruct (find (fun x => (id x =? id o)%string) (os ++ [o])) as [a|] eqn:Hf.
  - exists a. split; [reflexivity|].
    apply find_some in Hf. destruct Hf as [_ Heq]. apply String.eqb_eq, Heq.
  - assert (Hin : In o (os ++ [o])) by (apply in_or_app; right; left; reflexivity).
    pose proof (find_none _ _ Hf o Hin) as Hn. cbn beta in Hn.
    rewrite String.eqb_refl in Hn. discriminate.
Qed.

Lemma place_new_buy_effect (market_id token_id : string) (size buy_price : Q)
    (s : state E) (asl : option order_info) :
  exists s1 act added,
    place_new_buy client get_market_min_size market_id token_id size buy_price
      (s, {| active_buy_order := None; active_sell_order := asl |})
    = (Ok tt, (s1, {| active_buy_order := act; active_sell_order := asl |})) /\
    clock s1 = clock s /\
    pnl_history s1 = pnl_history s /\
    orders s1 = orders s ++ added /\
    placed BUY added act.
Proof.
  unfold place_new_buy, bind, on_self, lookup_order, gets, assign, modify, ret.
  cbn [fst snd].
  destruct (place_limit_order_total E client get_market_min_size market_id token_id
              BUY size buy_price 0 s) as [resp [s1 [Hrun [Hh [Hc Hcase]]]]].
  rewrite Hrun.
  destruct Hcase as [[Ht Ho] | [oid [m [Hid [Ht Ho]]]]].
  - exists s1, None, []. rewrite app_nil_r.
    split.
    { destruct (orderID resp) as [oid|] eqn:Hid; [rewrite Ht|]; reflexivity. }
    repeat split; try assumption. left. split; reflexivity.
  - rewrite Hid in *. rewrite Ht. cbn [fst snd set_active_buy_order active_sell_order].
    rewrite Ho.
    destruct (find_appended (orders s)
                (placed_order oid market_id token_id BUY size buy_price m (clock s)))
      as [a [Hfind Ha]].
    cbn [id placed_order] in Hfind, Ha.
    exists s1, (Some a), [placed_order oid market_id token_id BUY size buy_price m (clock s)].
    rewrite Hfind. split; [reflexivity|]. repeat split; try assumption.
    right. eexists _, a. repeat split. exact Ha.
Qed.

Lemma place_new_sell_effect (market_id token_id : string) (size sell_price : Q)
    (s : state E) (ab : option order_info) :
  exists s1 act added,
    place_new_sell client get_market_min_size market_id token_id size sell_price
      (s, {| active_buy_order := ab; active_sell_order := None |})
    = (Ok tt, (s1, {| active_buy_order := ab; active_sell_order := act |})) /\
    clock s1 = clock s /\
    pnl_history s1 = pnl_history s /\
    orders s1 = orders s ++ added /\
    placed SELL added act.
Proof.
  unfold place_new_sell, bind, on_self, lookup_order, gets, assign, modify, ret.
  cbn [fst snd].
  destruct (place_limit_order_total E client get_market_min_size market_id token_id
              SELL size sell_price 0 s) as [resp [s1 [Hrun [Hh [Hc Hcase]]]]].
  rewrite Hrun.
  destruct Hcase as [[Ht Ho] | [oid [m [Hid [Ht Ho]]]]].
  - exists s1, None, []. rewrite app_nil_r.
    split.
    { destruct (orderID resp) as [oid|] eqn:Hid; [rewrite Ht|]; reflexivity. }
    repeat split; try assumption. left. split; reflexivity.
  - rewrite Hid in *. rewrite Ht. cbn [fst snd set_active_sell_order active_buy_order].
    rewrite Ho.
    destruct (find_appended (orders s)
                (placed_order oid market_id token_id SELL size sell_price m (clock s)))
      as [a [Hfind Ha]].
    cbn [id placed_order] in Hfind, Ha.
    exists s1, (Some a), [placed_order oid market_id token_id SELL size sell_price m (clock s)].
    rewrite Hfind. split; [reflexivity|]. repeat split; try assumption.
    right. eexists _, a. repeat split. exact Ha.
Qed.

Lemma requote_effect (market_id token_id : string) (size max_spread mid_price : Q)
    (sl : state E * locals) :
  exists s' l',
    requote client get_market_min_size market_id token_id size max_spread mid_price sl
    = (Ok tt, (s', l')) /\
    clock s' = clock (fst sl) /\
    pnl_history s' = pnl_history (fst sl) /\
    requoted (cancels_confirmed client) (orders (fst sl)) (snd sl) (orders s') l'.
Proof.
  unfold requote, bind.
  destruct (cancel_active_buy_effect sl) as [s1 [Hrun1 [Hc1 [Hh1 Ho1]]]].
  rewrite Hrun1.
  destruct (cancel_active_sell_effect (s1, set_active_buy_order None (snd sl)))
    as [s2 [Hrun2 [Hc2 [Hh2 Ho2]]]].
  cbn [fst snd active_sell_order set_active_buy_order] in Hrun2, Hc2, Hh2, Ho2.
  rewrite Hrun2.
  change (set_active_sell_order None (set_active_buy_order None (snd sl)))
    with {| active_buy_order := None; active_sell_order := None |}.
  destruct (place_new_buy_effect market_id token_id size
              (Py.max 0.01 (round2 (mid_price - max_spread))) s2 None)
    as [s3 [ab [bs [Hrun3 [Hc3 [Hh3 [Ho3 Hp3]]]]]]].
  rewrite Hrun3.
  destruct (place_new_sell_effect market_id token_id size
              (Py.min 0.99 (round2 (mid_price + max_spread))) s3 ab)
    as [s4 [asl [ss [Hrun4 [Hc4 [Hh4 [Ho4 Hp4]]]]]]].
  rewrite Hrun4.
  exists s4, {| active_buy_order := ab; active_sell_order := asl |}.
  split; [reflexivity|]. split; [congruence|]. split; [congruence|].
  exists (orders s1), (orders s2), bs, ss.
  cbn [active_buy_order active_sell_order].
  rewrite Ho4, Ho3. repeat split; assumption.
Qed.

(** One cycle returns after thirty seconds; it leaves the registry and the
    active orders alone when the mid price is zero, and requotes
    otherwise. *)
Lemma strategy_cycle_effect (market_id token_id : string) (size max_spread : Q)
    (sl : state E * locals) :
  exists s' l',
    strategy_cycle client get_market_min_size market_id token_id size max_spread sl
    = (Ok tt, (s', l')) /\
    clock s' = (clock (fst sl) + 30)%Z /\
    pnl_history s' = pnl_history (fst sl) /\
    ((orders s' = orders (fst sl) /\ l' = snd sl) \/
     requoted (cancels_confirmed client) (orders (fst sl)) (snd sl) (orders s') l').
Proof.
  unfold strategy_cycle, try_except, bind, on_self at 1.
  destruct (get_mid_price_total market_id token_id (fst sl)) as [mid [x Hmid]].
  rewrite Hmid. cbn [fst snd].
  destruct (truthy mid).
  - destruct (requote_effect market_id token_id size max_spread mid (set_exch x (fst sl), snd sl))
      as [s1 [l1 [Hrun [Hc [Hh Hq]]]]].
    rewrite Hrun. unfold on_self, sleep, modify. cbn [fst snd] in *.
    eexists _, _. split; [reflexivity|].
    cbn [set_clock clock pnl_history orders]. rewrite Hc.
    split; [reflexivity|]. split; [exact Hh|]. right. exact Hq.
  - unfold ret, on_self, sleep, modify. cbn [fst snd].
    eexists _, _. split; [reflexivity|].
    cbn [set_clock set_exch clock pnl_history orders].
    split; [reflexivity|]. split; [reflexivity|]. left. split; reflexivity.
Qed.

End Cycle.

(** ** The registry *)

Lemma cancel_all_length (k : string) (os : list order_info) :
  List.length (cancel_all k os) = List.length os.
Proof. apply length_map. Qed.

Lemma cancel_all_skipn (k : string) (n : nat) (os : list order_info) :
  skipn n (cancel_all k os) = cancel_all k (skipn n os).
Proof. unfold cancel_all. apply skipn_map. Qed.

(** An entry that is live after a cancel was there before, under another id. *)
Lemma cancel_all_live (k : string) (os : list order_info) (o : order_info) :
  In o (cancel_all k os) -> status o = LIVE -> In o os /\ id o <> k.
Proof.
  unfold cancel_all. intros Hin Hlive. apply in_map_iff in Hin.
  destruct Hin as [o0 [Heq Hin0]].
  destruct (id o0 =? k)%string eqn:Hk.
  - subst o. simpl in Hlive. discriminate.
  - subst o0. split; [exact Hin0 | apply String.eqb_neq, Hk].
Qed.

Lemma cancel_all_entry_steps (k : string) (os : list order_info) :
  known_statuses os -> Forall2 entry_step os (cancel_all k os).
Proof.
  induction 1 as [|o os Ho _ IH]; simpl; constructor; [|exact IH].
  destruct (id o =? k)%string.
  - destruct Ho as [Hl|Hc].
    + right. split; [exact Hl | reflexivity].
    + left. rewrite <- Hc. apply set_status_same.
  - left. reflexivity.
Qed.

Lemma cancel_all_known (k : string) (os : list order_info) :
  known_statuses os -> known_statuses (cancel_all k os).
Proof.
  induction 1 as [|o os Ho _ IH]; simpl; constructor; [|exact IH].
  destruct (id o =? k)%string; [right; reflexivity | exact Ho].
Qed.

Lemma entry_step_trans (a b c : order_info) :
  entry_step a b -> entry_step b c -> entry_step a c.
Proof.
  intros [->|[Hl ->]] [->|[Hl' ->]].
  - left. reflexivity.
  - right. split; [exact Hl' | reflexivity].
  - right. split; [exact Hl | reflexivity].
  - simpl in Hl'. discriminate.
Qed.

Lemma entry_step_known (o o' : order_info) :
  entry_step o o' ->
  status o = LIVE \/ status o = CANCELED ->
  status o' = LIVE \/ status o' = CANCELED.
Proof. intros [->|[_ ->]] H; [exact H | right; reflexivity]. Qed.

Lemma Forall2_entry_step_trans (l1 l2 l3 : list order_info) :
  Forall2 entry_step l1 l2 -> Forall2 entry_step l2 l3 -> Forall2 entry_step l1 l3.
Proof.
  intro H. revert l3. induction H as [|a b l1 l2 Hab _ IH]; intros l3 H23.
  - inversion H23. constructor.
  - inversion H23 as [|b' c l2' l3' Hbc Hrest]; subst.
    constructor; [eapply entry_step_trans; eassumption | apply IH; assumption].
Qed.

Lemma registry_path_trans (os1 os2 os3 : list order_info) :
  registry_path os1 os2 -> registry_path os2 os3 -> registry_path os1 os3.
Proof.
  induction 1 as [os|os o os' Hl _ IH|os k os' _ IH]; intro H23.
  - exact H23.
  - eapply path_place; [exact Hl | apply IH, H23].
  - eapply path_cancel. apply IH, H23.
Qed.

Lemma registry_path_cancel (k : string) (os : list order_info) :
  registry_path os (cancel_all k os).
Proof. eapply path_cancel. apply path_done. Qed.

Lemma registry_path_place (os : list order_info) (o : order_info) :
  status o = LIVE -> registry_path os (os ++ [o]).
Proof. intro H. eapply path_place; [exact H | apply path_done]. Qed.

(** Along a path the old entries stay in place, each unchanged or moved
    from live to canceled, and the entries after them are live or
    canceled. *)
Lemma registry_path_shape (os os' : list order_info) :
  registry_path os os' ->
  known_statuses os ->
  exists kept added,
    os' = kept ++ added /\
    Forall2 entry_step os kept /\
    known_statuses added.
Proof.
  induction 1 as [os|os o os' Hl _ IH|os k os' _ IH]; intro Hk.
  - exists os, []. rewrite app_nil_r. split; [reflexivity|]. split.
    + apply Forall2_same. intro a. left. reflexivity.
    + constructor.
  - destruct IH as [kept [added [-> [H2 Ha]]]].
    { apply Forall_app. split; [exact Hk|]. constructor; [left; exact Hl | constructor]. }
    apply Forall2_app_inv_l in H2. destruct H2 as [k1 [k2 [H21 [H22 ->]]]].
    exists k1, (k2 ++ added). rewrite <- app_assoc. split; [reflexivity|].
    split; [exact H21|]. apply Forall_app. split; [|exact Ha].
    inversion H22 as [|a b la lb Hab Hrest]; subst. inversion Hrest; subst.
    constructor; [|constructor].
    eapply entry_step_known; [exact Hab | left; exact Hl].
  - destruct IH as [kept [added [-> [H2 Ha]]]].
    { apply cancel_all_known, Hk. }
    exists kept, added. split; [reflexivity|]. split; [|exact Ha].
    eapply Forall2_entry_step_trans; [apply cancel_all_entry_steps, Hk | exact H2].
Qed.

Lemma registry_path_known (os os' : list order_info) :
  registry_path os os' -> known_statuses os -> known_statuses os'.
Proof.
  intros Hp Hk. destruct (registry_path_shape _ _ Hp Hk) as [kept [added [-> [H2 Ha]]]].
  apply Forall_app. split; [|exact Ha].
  clear Hp Ha. induction H2 as [|a b l1 l2 Hab _ IH]; [constructor|].
  inversion Hk; subst. constructor; [eapply entry_step_known; eassumption | apply IH; assumption].
Qed.

Lemma canceled_from_path (C : Prop) (act : option order_info) (os os' : list order_info) :
  canceled_from C act os os' -> registry_path os os'.
Proof.
  destruct act as [o|]; simpl.
  - intros [[->| ->] _]; [apply path_done | apply registry_path_cancel].
  - intros ->. apply path_done.
Qed.

Lemma placed_path (sd : Side) (added : list order_info) (act : option order_info)
    (os : list order_info) :
  placed sd added act -> registry_path os (os ++ added).
Proof.
  intros [[-> _] | [o [a [-> [Hl _]]]]].
  - rewrite app_nil_r. apply path_done.
  - apply registry_path_place, Hl.
Qed.

Lemma requoted_path (C : Prop) (os : list order_info) (l : locals)
    (os' : list order_info) (l' : locals) :
  requoted C os l os' l' -> registry_path os os'.
Proof.
  intros [os1 [os2 [bs [ss [H1 [H2 [-> [Hb Hs]]]]]]]].
  eapply registry_path_trans; [eapply canceled_from_path; exact H1|].
  eapply registry_path_trans; [eapply canceled_from_path; exact H2|].
  eapply registry_path_trans; [eapply placed_path; exact Hb|].
  eapply placed_path; exact Hs.
Qed.

(** ** The quote-pair bookkeeping of the loop *)

Lemma canceled_from_length (C : Prop) (act : option order_info) (os os' : list order_info) :
  canceled_from C act os os' -> List.length os' = List.length os.
Proof.
  destruct act as [o|]; simpl.
  - intros [[->| ->] _]; [reflexivity | apply cancel_all_length].
  - intros ->. reflexivity.
Qed.

(** After the confirmed cancel of the active order [act], no live entry is
    tracked through [act] any more. *)
Lemma canceled_from_live (C : Prop) (act : option order_info) (os os' : list order_info)
    (n0 : nat) (P : order_info -> Prop) :
  C ->
  canceled_from C act os os' ->
  (forall o, In o (skipn n0 os) -> status o = LIVE ->
             (exists a, act = Some a /\ id a = id o) \/ P o) ->
  forall o, In o (skipn n0 os') -> status o = LIVE -> P o.
Proof.
  intros HC Hcf Htr o Hin Hlive. destruct act as [a|]; simpl in Hcf.
  - destruct Hcf as [_ Hcf]. rewrite (Hcf HC), cancel_all_skipn in Hin.
    destruct (cancel_all_live _ _ _ Hin Hlive) as [Hin0 Hne].
    destruct (Htr o Hin0 Hlive) as [[a' [Ha' Hid]] | HP]; [|exact HP].
    injection Ha' as Ha'. subst a'. exfalso. apply Hne. symmetry. exact Hid.
  - subst os'. destruct (Htr o Hin Hlive) as [[a' [Ha' _]] | HP]; [discriminate | exact HP].
Qed.

Lemma live_count_app (sd : Side) (l1 l2 : list order_info) :
  live_count sd (l1 ++ l2) = (live_count sd l1 + live_count sd l2)%nat.
Proof. unfold live_count. rewrite filter_app, length_app. reflexivity. Qed.

Lemma is_live_true (sd : Side) (o : order_info) :
  is_live sd o = true -> side o = sd /\ status o = LIVE.
Proof.
  unfold is_live. intro H. apply andb_true_iff in H. destruct H as [Hs Hl].
  split; [|apply String.eqb_eq, Hl].
  destruct (side o), sd; simpl in Hs; try reflexivity; discriminate.
Qed.

Lemma live_count_none (sd : Side) (l : list order_info) :
  (forall o, In o l -> status o = LIVE -> False) -> live_count sd l = 0%nat.
Proof.
  intro H. unfold live_count.
  induction l as [|o l IH]; simpl; [reflexivity|].
  destruct (is_live sd o) eqn:Hl.
  - exfalso. apply is_live_true in Hl. apply (H o); [left; reflexivity | apply Hl].
  - apply IH. intros o' Hin. apply H. right. exact Hin.
Qed.

Lemma placed_counts (sd : Side) (added : list order_info) (act : option order_info) :
  placed sd added act ->
  (live_count sd added <= 1)%nat /\
  (forall sd', sd' <> sd -> live_count sd' added = 0%nat) /\
  (forall o, In o added -> exists a, act = Some a /\ id a = id o).
Proof.
  intros [[-> _] | [o [a [-> [Hl [Hs [-> Hid]]]]]]].
  - split; [unfold live_count; simpl; lia|]. split; [reflexivity|]. intros o [].
  - split; [|split].
    + unfold live_count. simpl. destruct (is_live sd o); simpl; lia.
    + intros sd' Hne. unfold live_count, is_live. simpl. rewrite Hs.
      destruct sd, sd'; simpl; try reflexivity; contradiction.
    + intros o' [<-|[]]. exists a. split; [reflexivity | exact Hid].
Qed.

Lemma skipn_app_le {A : Type} (n : nat) (l1 l2 : list A) :
  (n <= List.length l1)%nat -> skipn n (l1 ++ l2) = skipn n l1 ++ l2.
Proof.
  intro H. rewrite skipn_app.
  replace (n - List.length l1)%nat with 0%nat by lia. reflexivity.
Qed.

(** Requoting keeps the live orders tracked, one per side at most, provided
    the cancels are confirmed. *)
Lemma requoted_tracked (C : Prop) (n0 : nat) (os : list order_info) (l : locals)
    (os' : list order_info) (l' : locals) :
  C -> requoted C os l os' l' -> quotes_tracked n0 os l -> quotes_tracked n0 os' l'.
Proof.
  intros HC [os1 [os2 [bs [ss [H1 [H2 [-> [Hb Hs]]]]]]]] [Hlen [Htr _]].
  assert (Hlen2 : (n0 <= List.length os2)%nat).
  { rewrite (canceled_from_length _ _ _ _ H2), (canceled_from_length _ _ _ _ H1). exact Hlen. }
  assert (Hsell : forall o, In o (skipn n0 os1) -> status o = LIVE ->
                            (exists a, active_sell_order l = Some a /\ id a = id o) \/ False).
  { intros o Hin Hlive. left.
    exact (canceled_from_live C _ _ _ n0 _ HC H1 Htr o Hin Hlive). }
  assert (Hnone : forall o, In o (skipn n0 os2) -> status o = LIVE -> False).
  { exact (canceled_from_live C _ _ _ n0 _ HC H2 Hsell). }
  destruct (placed_counts _ _ _ Hb) as [Hb1 [Hb0 Hbt]].
  destruct (placed_counts _ _ _ Hs) as [Hs1 [Hs0 Hst]].
  assert (Hskip : skipn n0 ((os2 ++ bs) ++ ss) = (skipn n0 os2 ++ bs) ++ ss).
  { rewrite skipn_app_le by (rewrite length_app; lia).
    rewrite skipn_app_le by exact Hlen2. reflexivity. }
  unfold quotes_tracked. rewrite Hskip. split; [|split; [|split]].
  - rewrite !length_app. lia.
  - intros o Hin Hlive. apply in_app_or in Hin. destruct Hin as [Hin|Hin].
    + apply in_app_or in Hin. destruct Hin as [Hin|Hin].
      * exfalso. exact (Hnone o Hin Hlive).
      * left. apply Hbt, Hin.
    + right. apply Hst, Hin.
  - rewrite !live_count_app, (live_count_none BUY _ Hnone).
    rewrite (Hs0 BUY) by discriminate. lia.
  - rewrite !live_count_app, (live_count_none SELL _ Hnone).
    rewrite (Hb0 SELL) by discriminate. lia.
Qed.

(** Cancelling both active orders, confirmed, leaves no live order. *)
Lemma wound_down_not_live (C : Prop) (n0 : nat) (os os1 os2 : list order_info)
    (l : locals) :
  C ->
  quotes_tracked n0 os l ->
  canceled_from C (active_buy_order l) os os1 ->
  canceled_from C (active_sell_order l) os1 os2 ->
  Forall (fun o => status o <> LIVE) (skipn n0 os2).
Proof.
  intros HC [_ [Htr _]] H1 H2. apply Forall_forall. intros o Hin Hlive.
  assert (Hsell : forall o, In o (skipn n0 os1) -> status o = LIVE ->
                            (exists a, active_sell_order l = Some a /\ id a = id o) \/ False).
  { intros o' Hin' Hlive'. left.
    exact (canceled_from_live C _ _ _ n0 _ HC H1 Htr o' Hin' Hlive'). }
  exact (canceled_from_live C _ _ _ n0 _ HC H2 Hsell o Hin Hlive).
Qed.

(** ** The strategy loop: whole runs *)

Section Run.

Variable E : Type.
Variable client : ClobClient E.
Variable get_market_min_size : string -> E -> result Q * E.

Variables (market_id token_id : string) (size max_spread : Q) (end_time : Q).

Local Abbreviation cycle := (strategy_cycle client get_market_min_size market_id token_id size max_spread).
Local Abbreviation loop fuel :=
  (strategy_loop client get_market_min_size fuel market_id token_id size max_spread end_time).
Local Abbreviation between :=
  (between_cycles client get_market_min_size market_id token_id size max_spread end_time).

Lemma strategy_loop_unfold (fuel : nat) (sl : state E * locals) :
  loop fuel sl
  = if Qlt_bool (inject_Z (clock (fst sl))) end_time then
      match fuel with
      | O => None
      | S fuel' =>
          match cycle sl with
          | (Ok _, sl') => loop fuel' sl'
          | (Raise e, sl') => Some (Raise e, sl')
          end
      end
    else Some (Ok tt, sl).
Proof. destruct fuel; reflexivity. Qed.

(** With a cycle of fuel for every thirty seconds left, the loop ends, in
    a state that lies between two cycles. *)
Lemma strategy_loop_ends (sl0 : state E * locals) (fuel : nat) :
  forall sl,
    between sl0 sl ->
    end_time - inject_Z (clock (fst sl)) <= 30 * inject_Z (Z.of_nat fuel) ->
    exists sl',
      loop fuel sl = Some (Ok tt, sl') /\
      between sl0 sl' /\
      end_time <= inject_Z (clock (fst sl')).
Proof.
  induction fuel as [|fuel IH]; intros sl Hb Hfuel; rewrite strategy_loop_unfold.
  - destruct (Qlt_bool (inject_Z (clock (fst sl))) end_time) eqn:Hlt.
    + apply Qlt_bool_true in Hlt. change (inject_Z (Z.of_nat 0)) with 0 in Hfuel. lra.
    + apply Qlt_bool_false in Hlt. exists sl. repeat split; assumption.
  - destruct (Qlt_bool (inject_Z (clock (fst sl))) end_time) eqn:Hlt.
    + apply Qlt_bool_true in Hlt.
      destruct (strategy_cycle_effect E client get_market_min_size market_id token_id
                  size max_spread sl) as [s' [l' [Hrun [Hc _]]]].
      rewrite Hrun. apply IH.
      * eapply between_next; eassumption.
      * cbn [fst]. rewrite Hc, inject_Z_plus.
        rewrite Nat2Z.inj_succ in Hfuel. unfold Z.succ in Hfuel.
        rewrite inject_Z_plus in Hfuel.
        change (inject_Z 30) with 30. change (inject_Z 1) with 1 in Hfuel. lra.
    + apply Qlt_bool_false in Hlt. exists sl. repeat split; assumption.
Qed.

(** What holds between any two cycles. *)
Lemma between_cycles_invariants (n0 : nat) (sl0 sl : state E * locals) :
  between sl0 sl ->
  registry_path (orders (fst sl0)) (orders (fst sl)) /\
  pnl_history (fst sl) = pnl_history (fst sl0) /\
  (cancels_confirmed client ->
   quotes_tracked n0 (orders (fst sl0)) (snd sl0) ->
   quotes_tracked n0 (orders (fst sl)) (snd sl)).
Proof.
  induction 1 as [|sl sl' _ IH _ Hrun].
  - split; [apply path_done|]. split; [reflexivity | auto].
  - destruct IH as [Hp [Hh Ht]].
    destruct (strategy_cycle_effect E client get_market_min_size market_id token_id
                size max_spread sl) as [s' [l' [Hrun' [_ [Hh' Hcase]]]]].
    rewrite Hrun in Hrun'. injection Hrun' as ->. cbn [fst snd].
    split; [|split].
    + destruct Hcase as [[-> _] | Hq]; [exact Hp|].
      eapply registry_path_trans; [exact Hp | eapply requoted_path; exact Hq].
    + congruence.
    + intros HC H0. specialize (Ht HC H0).
      destruct Hcase as [[-> ->] | Hq]; [exact Ht|].
      exact (requoted_tracked _ _ _ _ _ _ HC Hq Ht).
Qed.

Lemma wind_down_effect (sl : state E * locals) :
  exists s' os1,
    wind_down client sl = (Ok tt, (s', snd sl)) /\
    pnl_history s' = pnl_history (fst sl) /\
    canceled_from (cancels_confirmed client) (active_buy_order (snd sl))
      (orders (fst sl)) os1 /\
    canceled_from (cancels_confirmed client) (active_sell_order (snd sl))
      os1 (orders s').
Proof.
  destruct sl as [s [ab asl]].
  unfold wind_down, bind, get_local, gets, on_self, ret.
  cbn [fst snd active_buy_order active_sell_order].
  destruct ab as [o1|]; cbn [fst snd active_sell_order].
  - destruct (cancel_order_effect E client (id o1) s) as [r1 [s1 [Hrun1 [_ [Hh1 [Ho1 Hall1]]]]]].
    rewrite Hrun1. cbn [fst snd active_sell_order].
    destruct asl as [o2|]; cbn [fst snd].
    + destruct (cancel_order_effect E client (id o2) s1)
        as [r2 [s2 [Hrun2 [_ [Hh2 [Ho2 Hall2]]]]]].
      rewrite Hrun2. exists s2, (orders s1). split; [reflexivity|].
      split; [congruence|]. repeat split; assumption.
    + exists s1, (orders s1). split; [reflexivity|].
      split; [exact Hh1|]. repeat split; assumption.
  - destruct asl as [o2|]; cbn [fst snd].
    + destruct (cancel_order_effect E client (id o2) s)
        as [r2 [s2 [Hrun2 [_ [Hh2 [Ho2 Hall2]]]]]].
      rewrite Hrun2. exists s2, (orders s). split; [reflexivity|].
      split; [exact Hh2|]. repeat split; assumption.
    + exists s, (orders s). repeat split.
Qed.

End Run.

Section Runs.

Variable E : Type.
Variable client : ClobClient E.
Variable get_market_min_size : string -> E -> result Q * E.

Lemma max_cycles_enough (duration_minutes : Q) :
  duration_minutes * 60 <= 30 * inject_Z (Z.of_nat (max_cycles duration_minutes)).
Proof.
  unfold max_cycles.
  pose proof (Qle_ceiling (12 * duration_minutes)) as Hc.
  assert (Hz : (Qceiling (12 * duration_minutes)
                <= Z.of_nat (Z.to_nat (Qceiling (12 * duration_minutes))))%Z) by lia.
  assert (Hn : (0 <= Z.of_nat (Z.to_nat (Qceiling (12 * duration_minutes))))%Z) by lia.
  rewrite Zle_Qle in Hz, Hn. change (inject_Z 0) with 0 in Hn.
  destruct (Qlt_le_dec duration_minutes 0); lra.
Qed.

(** A run ends: the loop stops at a state between two cycles and the
    cancellations that follow return. *)
Lemma run_strategy_effect (market_id token_id : string) (risk_amount max_spread : Q)
    (duration_minutes : Q) (s : state E) :
  exists sl s' os1,
    between_cycles client get_market_min_size market_id token_id (risk_amount / 2)
      max_spread (inject_Z (clock s) + duration_minutes * 60)
      (s, {| active_buy_order := None; active_sell_order := None |}) sl /\
    run_strategy client get_market_min_size market_id token_id risk_amount max_spread
      duration_minutes s = Some (Ok tt, s') /\
    pnl_history s' = pnl_history (fst sl) /\
    canceled_from (cancels_confirmed client) (active_buy_order (snd sl))
      (orders (fst sl)) os1 /\
    canceled_from (cancels_confirmed client) (active_sell_order (snd sl))
      os1 (orders s').
Proof.
  unfold run_strategy.
  destruct (strategy_loop_ends E client get_market_min_size market_id token_id
              (risk_amount / 2) max_spread (inject_Z (clock s) + duration_minutes * 60)
              (s, {| active_buy_order := None; active_sell_order := None |})
              (max_cycles duration_minutes)
              (s, {| active_buy_order := None; active_sell_order := None |}))
    as [sl [Hloop [Hb _]]].
  - apply between_start.
  - cbn [fst]. pose proof (max_cycles_enough duration_minutes). lra.
  - rewrite Hloop.
    destruct (wind_down_effect E client sl) as [s' [os1 [Hw [Hh [Hc1 Hc2]]]]].
    rewrite Hw. exists sl, s', os1. cbn [fst]. repeat split; assumption.
Qed.

Lemma run_strategy_path (market_id token_id : string) (risk_amount max_spread : Q)
    (duration_minutes : Q) (s : state E) :
  exists s',
    run_strategy client get_market_min_size market_id token_id risk_amount max_spread
      duration_minutes s = Some (Ok tt, s') /\
    registry_path (orders s) (orders s') /\
    pnl_history s' = pnl_history s.
Proof.
  destruct (run_strategy_effect market_id token_id risk_amount max_spread
              duration_minutes s) as [sl [s' [os1 [Hb [Hrun [Hh [Hc1 Hc2]]]]]]].
  destruct (between_cycles_invariants E client get_market_min_size _ _ _ _ _ 0%nat _ _ Hb)
    as [Hp [Hh0 _]].
  exists s'. split; [exact Hrun|]. split.
  - eapply registry_path_trans; [exact Hp|].
    eapply registry_path_trans; eapply canceled_from_path; eassumption.
  - cbn [fst] in Hh0. congruence.
Qed.

End Runs.

(** ** Properties of the strategy loop and of the registry *)

Lemma quotes_tracked_start (os : list order_info) (l : locals) :
  quotes_tracked (List.length os) os l.
Proof.
  unfold quotes_tracked. rewrite skipn_all. split; [lia|].
  split; [intros o []|]. split; unfold live_count; simpl; lia.
Qed.

(** A live entry at an old position was there, as it is, before. *)
Lemma registry_path_old (os os' : list order_info) :
  registry_path os os' ->
  Forall2 (fun o o' => status o' = LIVE -> o' = o) os (firstn (List.length os) os').
Proof.
  induction 1 as [os|os o os' Hl _ IH|os k os' _ IH].
  - rewrite firstn_all. apply Forall2_same. reflexivity.
  - apply Forall2_app_inv_l in IH. destruct IH as [l1 [l2 [H1 [_ Heq]]]].
    assert (Hlen : List.length l1 = List.length os)
      by (symmetry; eapply Forall2_length; exact H1).
    assert (Hfirst : firstn (List.length os) os' = l1).
    { transitivity (firstn (List.length os) (firstn (List.length (os ++ [o])) os')).
      - rewrite firstn_firstn. f_equal. rewrite length_app. simpl. lia.
      - rewrite Heq, <- Hlen, firstn_app, Nat.sub_diag, firstn_all. simpl. apply app_nil_r. }
    rewrite Hfirst. exact H1.
  - rewrite cancel_all_length in IH. revert IH.
    generalize (firstn (List.length os) os'). clear.
    induction os as [|o os IHos]; intros l H; simpl in H.
    + inversion H. constructor.
    + inversion H as [|fo o' fos l' Hoo' Hrest]; subst. constructor.
      * intro Hlive. specialize (Hoo' Hlive). subst o'.
        destruct (id o =? k)%string; [simpl in Hlive; discriminate | reflexivity].
      * apply IHos. exact Hrest.
Qed.

Lemma registry_path_no_live (os os' : list order_info) :
  registry_path os os' ->
  no_live_orders os ->
  no_live_orders (skipn (List.length os) os') ->
  no_live_orders os'.
Proof.
  intros Hp Hold Hnew. unfold no_live_orders in *.
  rewrite <- (firstn_skipn (List.length os) os'). apply Forall_app. split; [|exact Hnew].
  pose proof (registry_path_old _ _ Hp) as H2. clear Hp Hnew.
  revert Hold. induction H2 as [|o o' l l' Hoo' _ IH]; intro Hold; [constructor|].
  inversion Hold; subst. constructor; [|apply IH; assumption].
  intro Hlive. rewrite (Hoo' Hlive) in Hlive. contradiction.
Qed.

Section Claims.

Variable E : Type.
Variable client : ClobClient E.
Variable get_market_min_size : string -> E -> result Q * E.

(** Whatever the minimum-size query does: provided the exchange answers and
    confirms every cancel, between any two cycles of the loop the registry
    holds at most one live buy order and at most one live sell order among
    those the run placed. *)
Lemma quote_pair_when_confirmed (market_id token_id : string) (size max_spread : Q)
    (end_time : Q) (s : state E) :
  cancels_confirmed client ->
  quote_pair_invariant client get_market_min_size market_id token_id size max_spread
    end_time s.
Proof.
  intros HC sl Hb.
  destruct (between_cycles_invariants E client get_market_min_size _ _ _ _ _
              (List.length (orders s)) _ _ Hb) as [_ [_ Ht]].
  destruct (Ht HC (quotes_tracked_start _ _)) as [_ [_ [Hbuy Hsell]]].
  unfold placed_since. split; assumption.
Qed.

(** Whatever the minimum-size query does: provided the exchange answers and
    confirms every cancel, [run_strategy] runs its full duration and
    returns, and none of the orders it placed is live in the registry
    afterwards; if no order was live in the registry before the run, none
    is after it. *)
Lemma run_strategy_leaves_no_live (market_id token_id : string)
    (risk_amount max_spread : Q) (duration_minutes : Q) (s : state E) :
  cancels_confirmed client ->
  exists s',
    run_strategy client get_market_min_size market_id token_id risk_amount max_spread
      duration_minutes s = Some (Ok tt, s') /\
    no_live_orders (placed_since s s') /\
    (no_live_orders (orders s) -> no_live_orders (orders s')).
Proof.
  intro HC.
  destruct (run_strategy_effect E client get_market_min_size market_id token_id
              risk_amount max_spread duration_minutes s)
    as [sl [s' [os1 [Hb [Hrun [_ [Hc1 Hc2]]]]]]].
  destruct (between_cycles_invariants E client get_market_min_size _ _ _ _ _
              (List.length (orders s)) _ _ Hb) as [Hp [_ Ht]].
  specialize (Ht HC (quotes_tracked_start _ _)). cbn [fst snd] in Hp, Ht.
  assert (Hnew : no_live_orders (placed_since s s')).
  { exact (wound_down_not_live _ _ _ _ _ _ HC Ht Hc1 Hc2). }
  exists s'. split; [exact Hrun|]. split; [exact Hnew|].
  intro Hold. apply (registry_path_no_live (orders s)); [|exact Hold | exact Hnew].
  eapply registry_path_trans; [exact Hp|].
  eapply registry_path_trans; eapply canceled_from_path; eassumption.
Qed.

Lemma create_api_key_orders (s : state E) :
  orders (snd (create_api_key client s)) = orders s.
Proof.
  unfold create_api_key, try_except, bind, call, ret.
  destruct (client_create_api_key client (exch s)) as [[creds|e] x]; reflexivity.
Qed.

Lemma get_active_markets_orders (s : state E) :
  orders (snd (get_active_markets client s)) = orders s.
Proof.
  unfold get_active_markets, try_except, bind, call, modify, gets, ret.
  destruct (client_get_sampling_simplified_markets client (exch s)) as [[data|e] x];
    reflexivity.
Qed.

Lemma get_mid_price_orders (market_id token_id : string) (s : state E) :
  orders (snd (get_mid_price client market_id token_id s)) = orders s.
Proof.
  destruct (get_mid_price_total E client market_id token_id s) as [mid [x Hrun]].
  rewrite Hrun. reflexivity.
Qed.

Lemma get_pnl_orders (s : state E) :
  orders (snd (get_pnl client s)) = orders s.
Proof.
  unfold get_pnl, try_except, get_pnl_body, get_rewards_total, bind, call, modify, gets, ret.
  destruct (client_get_address client (exch s)) as [[address|e] x1]; [|reflexivity].
  cbn [exch set_exch].
  destruct (client_get_trades client address x1) as [[trades|e] x2]; reflexivity.
Qed.

Lemma place_limit_order_appends (market_id token_id : string) (side : Side)
    (size price : Q) (fee_rate_bps : Z) (s : state E) :
  exists added,
    orders (snd (place_limit_order client get_market_min_size market_id token_id side
                   size price fee_rate_bps s)) = orders s ++ added /\
    Forall (fun o => status o = LIVE) added /\
    (List.length added <= 1)%nat.
Proof.
  destruct (place_limit_order_total E client get_market_min_size market_id token_id side
              size price fee_rate_bps s) as [resp [s' [Hrun [_ [_ Hcase]]]]].
  rewrite Hrun. cbn [snd].
  destruct Hcase as [[_ Ho] | [oid [m [_ [_ Ho]]]]]; rewrite Ho.
  - exists []. rewrite app_nil_r. split; [reflexivity|]. split; [constructor | simpl; lia].
  - eexists [_]. split; [reflexivity|]. split; [|simpl; lia].
    constructor; [reflexivity | constructor].
Qed.

Lemma cancel_order_steps (order_id : string) (s : state E) :
  known_statuses (orders s) ->
  Forall2 entry_step (orders s) (orders (snd (cancel_order client order_id s))).
Proof.
  intro Hk.
  destruct (cancel_order_effect E client order_id s) as [resp [s1 [Hrun [_ [_ [Ho _]]]]]].
  rewrite Hrun. cbn [snd]. destruct Ho as [-> | ->].
  - apply Forall2_same. intro o. left. reflexivity.
  - apply cancel_all_entry_steps, Hk.
Qed.

(** Every call returns or raises, and moves the registry along a path. *)
Lemma exec_path (m : method) (s : state E) :
  exists s',
    exec client get_market_min_size m s = Some s' /\
    registry_path (orders s) (orders s').
Proof.
  destruct m as [ | | mk tk | mk tk sd sz pr fee | oid | mk tk risk spread dur | | ]; cbn [exec].
  - eexists. split; [reflexivity|]. rewrite create_api_key_orders. apply path_done.
  - eexists. split; [reflexivity|]. rewrite get_active_markets_orders. apply path_done.
  - eexists. split; [reflexivity|]. rewrite get_mid_price_orders. apply path_done.
  - eexists. split; [reflexivity|].
    destruct (place_limit_order_appends mk tk sd sz pr fee s) as [added [-> [Hl Hn]]].
    destruct added as [|o [|o' added]]; [| |simpl in Hn; lia].
    + rewrite app_nil_r. apply path_done.
    + inversion Hl; subst. apply registry_path_place. assumption.
  - eexists. split; [reflexivity|].
    destruct (cancel_order_effect E client oid s) as [resp [s1 [Hrun [_ [_ [Ho _]]]]]].
    rewrite Hrun. cbn [snd]. destruct Ho as [-> | ->];
      [apply path_done | apply registry_path_cancel].
  - destruct (run_strategy_path E client get_market_min_size mk tk risk spread dur s)
      as [s' [Hrun [Hp _]]].
    rewrite Hrun. exists s'. split; [reflexivity | exact Hp].
  - eexists. split; [reflexivity|]. rewrite get_pnl_orders. apply path_done.
  - eexists. split; [reflexivity|]. apply path_done.
Qed.

Lemma reachable_known (s : state E) :
  reachable client get_market_min_size s -> known_statuses (orders s).
Proof.
  induction 1 as [e now|s m s' _ IH Hexec].
  - constructor.
  - destruct (exec_path m s) as [s'' [Hexec' Hp]].
    rewrite Hexec in Hexec'. injection Hexec' as <-.
    eapply registry_path_known; eassumption.
Qed.

(** C10.  In every state the bot can reach, each registry entry is live or
    canceled, never pending or failed.  From such a state every call
    returns or raises, and it changes the registry only by appending live
    entries, as [place_limit_order] does, or by moving entries from live to
    canceled, as [cancel_order] does: the old entries stay in place, none is
    removed, and entries appended meanwhile are live or canceled. *)
Theorem registry_statuses (s : state E) :
  reachable client get_market_min_size s ->
  known_statuses (orders s) /\
  (forall o, In o (orders s) ->
     status o <> "pending" /\ status o <> "failed" /\
     status o <> "PENDING" /\ status o <> "FAILED") /\
  (forall m, exists s',
      exec client get_market_min_size m s = Some s' /\
      registry_path (orders s) (orders s') /\
      (exists kept added,
          orders s' = kept ++ added /\
          Forall2 entry_step (orders s) kept /\
          known_statuses added) /\
      match m with
      | PlaceLimitOrder _ _ _ _ _ _ =>
          exists added,
            orders s' = orders s ++ added /\ Forall (fun o => status o = LIVE) added
      | CancelOrder _ => Forall2 entry_step (orders s) (orders s')
      | RunStrategy _ _ _ _ _ => True
      | _ => orders s' = orders s
      end).
Proof.
  intro Hr. pose proof (reachable_known s Hr) as Hk.
  split; [exact Hk|]. split.
  - intros o Hin. unfold known_statuses in Hk. rewrite Forall_forall in Hk.
    destruct (Hk o Hin) as [-> | ->]; repeat split; discriminate.
  - intro m. destruct (exec_path m s) as [s' [Hexec Hp]].
    exists s'. split; [exact Hexec|]. split; [exact Hp|].
    split; [apply registry_path_shape; assumption|].
    destruct m as [ | | mk tk | mk tk sd sz pr fee | oid | mk tk risk spread dur | | ];
      cbn [exec] in Hexec; try exact I; injection Hexec as <-.
    + apply create_api_key_orders.
    + apply get_active_markets_orders.
    + apply get_mid_price_orders.
    + destruct (place_limit_order_appends mk tk sd sz pr fee s) as [added [Ho [Hl _]]].
      exists added. split; assumption.
    + apply cancel_order_steps, Hk.
    + apply get_pnl_orders.
    + reflexivity.
Qed.

End Claims.

(** ** The properties at work on the sample exchanges *)

Lemma steady_trades_fetched (s : state Sample.E) :
  trades_fetched Sample.steady s Sample.fills.
Proof.
  exists "0xabc", (exch s), (exch s). split; reflexivity.
Defined.

(** The mid price of the sample book, with bids at 0.40 and 0.45 and an
    ask at 0.60, is 0.525. *)
Lemma get_mid_price_mean_witness :
  client_get_orders Sample.steady "m" "t" (exch Sample.start) = (Ok Sample.book, 0%nat) /\
  exists mid,
    get_mid_price Sample.steady "m" "t" Sample.start
    = (Ok mid, set_exch 0%nat Sample.start) /\
    mid == 0.525.
Proof.
  split; [reflexivity|].
  destruct (get_mid_price_mean Sample.E Sample.steady "m" "t" Sample.start
              Sample.book 0%nat eq_refl) as [mid [Hrun [Hmid _]]].
  exists mid. split; [exact Hrun|].
  rewrite Hmid. vm_compute. reflexivity.
Defined.

Lemma get_mid_price_range_witness :
  (forall book x,
      client_get_orders Sample.steady "m" "t" (exch Sample.start) = (Ok book, x) ->
      Forall (fun order => 0 <= oo_price order <= 1) book) /\
  exists mid s',
    get_mid_price Sample.steady "m" "t" Sample.start = (Ok mid, s') /\
    0 <= mid <= 1.
Proof.
  assert (H : forall book x,
             client_get_orders Sample.steady "m" "t" (exch Sample.start) = (Ok book, x) ->
             Forall (fun order => 0 <= oo_price order <= 1) book).
  { intros book x Heq. injection Heq as <- _.
    repeat (apply Forall_cons; [split; discriminate|]). apply Forall_nil. }
  split; [exact H|].
  exact (get_mid_price_range Sample.E Sample.steady "m" "t" Sample.start H).
Defined.

(** A minimum size of 5 and a request for size -3 at price 1.5. *)
Lemma place_limit_order_clamps_witness :
  exists sent,
    submitted (snd (place_limit_order Sample.steady Sample.min_size "m" "t" BUY
                      (-3) 1.5 0 Sample.start))
    = submitted Sample.start ++ sent /\
    Forall (fun args =>
              0.01 <= oa_price args <= 0.99 /\
              forall min_size x,
                Sample.min_size "m" (exch Sample.start) = (Ok min_size, x) ->
                min_size <= oa_size args) sent.
Proof.
  exact (place_limit_order_clamps Sample.E Sample.steady Sample.min_size "m" "t" BUY
           (-3) 1.5 0 Sample.start).
Defined.

(** On a bot that holds two orders: a placement stopped by the missing
    minimum-size method, and a cancel that times out, are both answered
    with a failure dictionary that carries the message, and the registry
    keeps its two entries. *)
Lemma failure_policy_witness :
  place_call_raises Sample.steady missing_get_market_min_size "m" "t" BUY 10 0.5 0
    Scenario.holding
    "'PolymarketLiquidityBot' object has no attribute 'get_market_min_size'" /\
  (exists resp s',
      place_limit_order Sample.steady missing_get_market_min_size "m" "t" BUY 10 0.5 0
        Scenario.holding = (Ok resp, s') /\
      success resp = Some false /\
      errorMsg resp
      = Some "'PolymarketLiquidityBot' object has no attribute 'get_market_min_size'" /\
      orders s' = orders Scenario.holding) /\
  client_cancel Sample.lossy "a1" (exch Scenario.holding) = (Raise "timeout", 0%nat) /\
  (exists resp,
      cancel_order Sample.lossy "a1" Scenario.holding
      = (Ok resp, set_exch 0%nat Scenario.holding) /\
      success resp = Some false /\
      errorMsg resp = Some "timeout" /\
      orders (set_exch 0%nat Scenario.holding) = orders Scenario.holding).
Proof.
  assert (H1 : place_call_raises Sample.steady missing_get_market_min_size "m" "t" BUY
                 10 0.5 0 Scenario.holding
                 "'PolymarketLiquidityBot' object has no attribute 'get_market_min_size'")
    by (left; exists 0%nat; reflexivity).
  assert (H2 : client_cancel Sample.lossy "a1" (exch Scenario.holding)
               = (Raise "timeout", 0%nat)) by reflexivity.
  split; [exact H1|].
  destruct (failure_policy Sample.E Sample.steady missing_get_market_min_size "m" "t" BUY
              10 0.5 0 "a1" Scenario.holding) as [_ [Hplace _]].
  destruct (Hplace _ H1) as [resp [s' [Hrun [Hs [He [_ [_ Ho]]]]]]].
  split; [exists resp, s'; repeat split; assumption|].
  split; [exact H2|].
  destruct (failure_policy Sample.E Sample.lossy missing_get_market_min_size "m" "t" BUY
              10 0.5 0 "a1" Scenario.holding) as [_ [_ [_ Hcancel]]].
  destruct (Hcancel "timeout" 0%nat H2) as [resp2 [Hrun2 [Hs2 [He2 [_ [_ Ho2]]]]]].
  exists resp2. repeat split; assumption.
Defined.

(** On a bot that holds the live orders [a1] and [b2], the confirmed cancel
    of [a1] leaves the statuses ['canceled'] and ['live']; a cancel of [b2]
    that the exchange does not confirm changes nothing. *)
Lemma cancel_order_frame_witness :
  cancel_confirmed_by Scenario.confirming_a1 "a1" Scenario.holding /\
  map status (orders (snd (cancel_order Scenario.confirming_a1 "a1" Scenario.holding)))
  = ["canceled"; "live"] /\
  Forall2 (fun o o' => id o = "a1" -> status o' = "canceled" /\ same_but_status o o')
    (orders Scenario.holding)
    (orders (snd (cancel_order Scenario.confirming_a1 "a1" Scenario.holding))) /\
  ~ cancel_confirmed_by Scenario.confirming_a1 "b2" Scenario.holding /\
  orders (snd (cancel_order Scenario.confirming_a1 "b2" Scenario.holding))
  = orders Scenario.holding.
Proof.
  assert (H : cancel_confirmed_by Scenario.confirming_a1 "a1" Scenario.holding).
  { eexists _, _. split; [reflexivity | left; reflexivity]. }
  assert (Hn : ~ cancel_confirmed_by Scenario.confirming_a1 "b2" Scenario.holding).
  { intros [resp [x [Hc Hin]]]. injection Hc as <- _.
    destruct Hin as [Heq|[]]. discriminate. }
  split; [exact H|]. split; [reflexivity|].
  destruct (cancel_order_frame Sample.E Scenario.confirming_a1 "a1" Scenario.holding)
    as [Hyes _].
  destruct (Hyes H) as [_ Hmarks].
  split; [exact Hmarks|]. split; [exact Hn|].
  destruct (cancel_order_frame Sample.E Scenario.confirming_a1 "b2" Scenario.holding)
    as [_ [Hno _]].
  exact (Hno Hn).
Defined.

(** Two calls of [get_pnl] in a row on the steady exchange. *)
Lemma pnl_history_append_only_witness :
  trades_fetched Sample.steady Sample.start Sample.fills /\
  trades_fetched Sample.steady (snd (get_pnl Sample.steady Sample.start)) Sample.fills /\
  exists snap snap2,
    pnl_history (snd (get_pnl Sample.steady Sample.start))
    = pnl_history Sample.start ++ [snap] /\
    pnl_history (snd (get_pnl Sample.steady (snd (get_pnl Sample.steady Sample.start))))
    = pnl_history (snd (get_pnl Sample.steady Sample.start)) ++ [snap2] /\
    realized_pnl snap = realized_pnl snap2 /\
    rewards snap = rewards snap2.
Proof.
  split; [apply steady_trades_fetched|]. split; [apply steady_trades_fetched|].
  destruct (pnl_history_append_only Sample.E Sample.steady Sample.start)
    as [_ [_ [_ [_ [_ Hsame]]]]].
  exact (Hsame (snd (get_pnl Sample.steady Sample.start)) Sample.fills
           (steady_trades_fetched _) (steady_trades_fetched _)).
Defined.

Lemma one_order_reachable : reachable Sample.steady Sample.min_size Sample.one_order.
Proof.
  apply reachable_step
    with (s := Sample.start) (m := PlaceLimitOrder "m" "t" BUY 10 0.5 0).
  - apply reachable_init.
  - reflexivity.
Defined.

Lemma registry_statuses_witness :
  reachable Sample.steady Sample.min_size Sample.one_order /\
  known_statuses (orders Sample.one_order) /\
  exists s',
    exec Sample.steady Sample.min_size (CancelOrder "order-") Sample.one_order = Some s' /\
    Forall2 entry_step (orders Sample.one_order) (orders s').
Proof.
  split; [exact one_order_reachable|].
  destruct (registry_statuses Sample.E Sample.steady Sample.min_size Sample.one_order
              one_order_reachable) as [Hk [_ Hstep]].
  split; [exact Hk|].
  destruct (Hstep (CancelOrder "order-")) as [s' [Hexec [_ [_ Hcancel]]]].
  exists s'. split; [exact Hexec | exact Hcancel].
Defined.

(** C9 as stated fails: the mid price of a book whose only order is a bid
    priced at 3 is (3 + 1) / 2 = 2. *)
Lemma get_mid_price_above_one :
  get_mid_price (Scenario.with_book Scenario.dear_bid_book) "m" "t" Sample.start
  = (Ok ((3 + 1) / 2), Sample.start) /\
  (3 + 1) / 2 == 2 /\
  ~ (0 <= (3 + 1) / 2 <= 1).
Proof.
  split; [reflexivity|]. split; [reflexivity|].
  intros [_ H]. apply H. reflexivity.
Qed.

(** ** Frames: what a computation leaves alone *)

Section Frames.

Context {S A B : Type} (f : S -> B).

Lemma keeps_ret (a : A) : keeps f (ret a).
Proof. intro s. reflexivity. Qed.

Lemma keeps_lift_result (r : result A) : keeps f (lift_result r).
Proof. intro s. reflexivity. Qed.

Lemma keeps_gets (g : S -> A) : keeps f (gets g).
Proof. intro s. reflexivity. Qed.

Lemma keeps_modify (g : S -> S) : (forall s, f (g s) = f s) -> keeps f (modify g).
Proof. intros H s. apply H. Qed.

Lemma keeps_bind {C : Type} (m : M S C) (k : C -> M S A) :
  keeps f m -> (forall c, keeps f (k c)) -> keeps f (bind m k).
Proof.
  intros Hm Hk s. unfold bind. specialize (Hm s).
  destruct (m s) as [[c|e] s1]; cbn [snd] in *.
  - rewrite (Hk c s1). exact Hm.
  - exact Hm.
Qed.

Lemma keeps_try_except (body : M S A) (handler : string -> M S A) :
  keeps f body -> (forall e, keeps f (handler e)) -> keeps f (try_except body handler).
Proof.
  intros Hb Hh s. unfold try_except. specialize (Hb s).
  destruct (body s) as [[a|e] s1]; cbn [snd] in *.
  - exact Hb.
  - rewrite (Hh e s1). exact Hb.
Qed.

End Frames.

Lemma keeps_on_self {S L A B : Type} (f : S -> B) (m : M S A) :
  keeps f m -> keeps (fun sl : S * L => f (fst sl)) (on_self m).
Proof.
  intros Hm sl. unfold on_self. specialize (Hm (fst sl)).
  destruct (m (fst sl)) as [r s1]. exact Hm.
Qed.

Lemma keeps_on_self_locals {S L A : Type} (m : M S A) :
  keeps (fun sl : S * L => snd sl) (on_self m).
Proof. intro sl. unfold on_self. destruct (m (fst sl)) as [r s1]. reflexivity. Qed.

Lemma keeps_call {E A B : Type} (f : state E -> B) (c : E -> result A * E) :
  (forall x s, f (set_exch x s) = f s) -> keeps f (call c).
Proof.
  intros H s. unfold call. destruct (c (exch s)) as [r x]. apply H.
Qed.

(** Decompose a frame goal along the structure of the computation. *)
Ltac frame_step :=
  first
    [ apply keeps_ret
    | apply keeps_lift_result
    | apply keeps_gets
    | apply keeps_try_except
    | apply keeps_bind
    | apply keeps_on_self
    | apply keeps_call; intros; reflexivity
    | apply keeps_modify; intros; reflexivity
    | match goal with
      | |- keeps _ (match ?x with _ => _ end) => destruct x
      end
    | intro ].

Ltac frame := repeat frame_step.

Section MethodFrames.

Variable E : Type.
Variable client : ClobClient E.
Variable get_market_min_size : string -> E -> result Q * E.

Lemma create_api_key_same_bot (s : state E) :
  same_bot s (snd (create_api_key client s)).
Proof.
  unfold create_api_key, try_except, bind, call, ret.
  destruct (client_create_api_key client (exch s)) as [[creds|e] x];
    repeat split.
Qed.

Lemma get_mid_price_keeps {B : Type} (f : state E -> B) (market_id token_id : string) :
  (forall x s, f (set_exch x s) = f s) ->
  keeps f (get_mid_price client market_id token_id).
Proof.
  intros H s.
  destruct (get_mid_price_total E client market_id token_id s) as [mid [x Hrun]].
  rewrite Hrun. apply H.
Qed.

Lemma cancel_order_keeps_markets (order_id : string) :
  keeps markets (cancel_order client order_id).
Proof. unfold cancel_order, cancel_order_body. frame. Qed.

Lemma cancel_order_keeps_submitted (order_id : string) :
  keeps submitted (cancel_order client order_id).
Proof. unfold cancel_order, cancel_order_body. frame. Qed.

Lemma cancel_order_keeps_clock (order_id : string) :
  keeps clock (cancel_order client order_id).
Proof. unfold cancel_order, cancel_order_body. frame. Qed.

Lemma cancel_order_keeps_pnl_history (order_id : string) :
  keeps pnl_history (cancel_order client order_id).
Proof. unfold cancel_order, cancel_order_body. frame. Qed.

Lemma place_limit_order_keeps_markets (market_id token_id : string) (side : Side)
    (size price : Q) (fee_rate_bps : Z) :
  keeps markets
    (place_limit_order client get_market_min_size market_id token_id side size price
       fee_rate_bps).
Proof. unfold place_limit_order, place_limit_order_body, create_order. frame. Qed.

Lemma place_limit_order_keeps_clock (market_id token_id : string) (side : Side)
    (size price : Q) (fee_rate_bps : Z) :
  keeps clock
    (place_limit_order client get_market_min_size market_id token_id side size price
       fee_rate_bps).
Proof. unfold place_limit_order, place_limit_order_body, create_order. frame. Qed.

Lemma place_limit_order_keeps_pnl_history (market_id token_id : string) (side : Side)
    (size price : Q) (fee_rate_bps : Z) :
  keeps pnl_history
    (place_limit_order client get_market_min_size market_id token_id side size price
       fee_rate_bps).
Proof. unfold place_limit_order, place_limit_order_body, create_order. frame. Qed.

Lemma get_pnl_keeps_markets : keeps markets (get_pnl client).
Proof. unfold get_pnl, get_pnl_body, get_rewards_total. frame. Qed.

Lemma get_pnl_keeps_clock : keeps clock (get_pnl client).
Proof. unfold get_pnl, get_pnl_body, get_rewards_total. frame. Qed.

Lemma get_pnl_keeps_submitted : keeps submitted (get_pnl client).
Proof. unfold get_pnl, get_pnl_body, get_rewards_total. frame. Qed.

Lemma get_active_markets_keeps_pnl_history : keeps pnl_history (get_active_markets client).
Proof. unfold get_active_markets. frame. Qed.

Lemma get_active_markets_keeps_clock : keeps clock (get_active_markets client).
Proof. unfold get_active_markets. frame. Qed.

Lemma get_active_markets_keeps_submitted : keeps submitted (get_active_markets client).
Proof. unfold get_active_markets. frame. Qed.

End MethodFrames.

(** ** More on the quote pricer *)

Section PricerMore.

Variable E : Type.
Variable client : ClobClient E.

Lemma bids_of_two_sided (book : list open_order) :
  bids_of (two_sided book) = bids_of book.
Proof.
  unfold bids_of, two_sided. induction book as [|o book IH]; simpl; [reflexivity|].
  destruct (oo_side o =? "buy")%string eqn:Hb; simpl.
  - rewrite Hb, IH. reflexivity.
  - destruct (oo_side o =? "sell")%string; simpl; [rewrite Hb|]; exact IH.
Qed.

Lemma asks_of_two_sided (book : list open_order) :
  asks_of (two_sided book) = asks_of book.
Proof.
  unfold asks_of, two_sided. induction book as [|o book IH]; simpl; [reflexivity|].
  destruct (oo_side o =? "sell")%string eqn:Hs; simpl.
  - rewrite orb_true_r. simpl. rewrite Hs, IH. reflexivity.
  - rewrite orb_false_r. destruct (oo_side o =? "buy")%string; simpl; [rewrite Hs|]; exact IH.
Qed.

(** The value [get_mid_price] returns for a fetched book depends on the
    bids and the asks of the book only. *)
Lemma get_mid_price_by_sides (market_id token_id : string) (s s2 : state E)
    (book book2 : list open_order) (x x2 : E) :
  client_get_orders client market_id token_id (exch s) = (Ok book, x) ->
  client_get_orders client market_id token_id (exch s2) = (Ok book2, x2) ->
  bids_of book2 = bids_of book ->
  asks_of book2 = asks_of book ->
  fst (get_mid_price client market_id token_id s2)
  = fst (get_mid_price client market_id token_id s).
Proof.
  intros Hf Hf2 Hb Ha.
  unfold get_mid_price, try_except, get_mid_price_body, bind, call.
  rewrite Hf, Hf2. fold (bids_of book) (asks_of book) (bids_of book2) (asks_of book2).
  rewrite Hb, Ha.
  destruct (bids_of book) as [|b bs]; destruct (asks_of book) as [|a l]; reflexivity.
Qed.

(** X1.  [get_mid_price] never raises and changes nothing of the bot: only
    the exchange may have moved.  When the client raises, it returns 0.5. *)
Theorem get_mid_price_reads_only (market_id token_id : string) (s : state E) :
  exists mid s',
    get_mid_price client market_id token_id s = (Ok mid, s') /\
    same_bot s s' /\
    (forall e x,
        client_get_orders client market_id token_id (exch s) = (Raise e, x) ->
        mid = 0.5).
Proof.
  destruct (client_get_orders client market_id token_id (exch s)) as [[book|e] x] eqn:Hf.
  - destruct (get_mid_price_fetched E client _ _ _ _ _ Hf) as [mid [Hrun _]].
    exists mid, (set_exch x s). split; [exact Hrun|].
    split; [repeat split | discriminate].
  - exists 0.5, (set_exch x s).
    split; [apply get_mid_price_raised with (e := e); exact Hf|].
    split; [repeat split | reflexivity].
Qed.

(** X2.  Orders whose side is neither ['buy'] nor ['sell'] (the comparison
    is case sensitive) do not count: dropping them from the fetched book
    leaves the mid price as it is, and a book made of such orders only
    gives 0.5. *)
Theorem get_mid_price_ignores_other_sides (market_id token_id : string)
    (s s2 : state E) (book : list open_order) (x x2 : E) :
  client_get_orders client market_id token_id (exch s) = (Ok book, x) ->
  client_get_orders client market_id token_id (exch s2) = (Ok (two_sided book), x2) ->
  fst (get_mid_price client market_id token_id s2)
  = fst (get_mid_price client market_id token_id s) /\
  (two_sided book = [] -> fst (get_mid_price client market_id token_id s) = Ok 0.5).
Proof.
  intros Hf Hf2. split.
  - eapply get_mid_price_by_sides; try eassumption.
    + apply bids_of_two_sided.
    + apply asks_of_two_sided.
  - intro Hnone.
    destruct (get_mid_price_fetched E client _ _ _ _ _ Hf) as [mid [Hrun [_ Hhalf]]].
    rewrite Hrun. cbn [fst]. f_equal. apply Hhalf.
    + rewrite <- bids_of_two_sided, Hnone. reflexivity.
    + rewrite <- asks_of_two_sided, Hnone. reflexivity.
Qed.

(** X3.  When the best bid does not exceed the best ask, the mid price
    lies between the two. *)
Theorem get_mid_price_inside_spread (market_id token_id : string) (s : state E)
    (book : list open_order) (x : E) :
  client_get_orders client market_id token_id (exch s) = (Ok book, x) ->
  spec_best_bid book <= spec_best_ask book ->
  exists mid,
    fst (get_mid_price client market_id token_id s) = Ok mid /\
    spec_best_bid book <= mid <= spec_best_ask book.
Proof.
  intros Hf Hle.
  destruct (get_mid_price_fetched E client _ _ _ _ _ Hf) as [mid [Hrun [Hmid _]]].
  exists mid. rewrite Hrun. split; [reflexivity|]. rewrite Hmid. split.
  - apply Qle_shift_div_l; [reflexivity|].
    setoid_replace (spec_best_bid book * 2) with (spec_best_bid book + spec_best_bid book)
      by ring.
    apply Qplus_le_compat; [apply Qle_refl | exact Hle].
  - apply Qle_shift_div_r; [reflexivity|].
    setoid_replace (spec_best_ask book * 2) with (spec_best_ask book + spec_best_ask book)
      by ring.
    apply Qplus_le_compat; [exact Hle | apply Qle_refl].
Qed.

End PricerMore.

Lemma get_mid_price_reads_only_witness :
  client_get_orders Scenario.offline "m" "t" (exch Sample.start) = (Raise "offline", 0%nat) /\
  exists mid s',
    get_mid_price Scenario.offline "m" "t" Sample.start = (Ok mid, s') /\
    same_bot Sample.start s' /\
    mid = 0.5.
Proof.
  split; [reflexivity|].
  destruct (get_mid_price_reads_only Scenario.E Scenario.offline "m" "t" Sample.start)
    as [mid [s' [Hrun [Hsame Hhalf]]]].
  exists mid, s'. split; [exact Hrun|]. split; [exact Hsame|].
  exact (Hhalf "offline" 0%nat eq_refl).
Defined.

(** The orders of sides ['BUY'] and ['SELL'] of the sample book do not move
    the mid price. *)
Lemma get_mid_price_ignores_other_sides_witness :
  client_get_orders Scenario.tidying "m" "t" (exch Sample.start)
  = (Ok Scenario.shouting_book, 0%nat) /\
  client_get_orders Scenario.tidying "m" "t" (exch (set_exch 1%nat Sample.start))
  = (Ok (two_sided Scenario.shouting_book), 1%nat) /\
  fst (get_mid_price Scenario.tidying "m" "t" (set_exch 1%nat Sample.start))
  = fst (get_mid_price Scenario.tidying "m" "t" Sample.start).
Proof.
  split; [reflexivity|]. split; [reflexivity|].
  destruct (get_mid_price_ignores_other_sides Scenario.E Scenario.tidying "m" "t"
              Sample.start (set_exch 1%nat Sample.start) Scenario.shouting_book
              0%nat 1%nat eq_refl eq_refl) as [Hsame _].
  exact Hsame.
Defined.

Lemma get_mid_price_inside_spread_witness :
  client_get_orders Sample.steady "m" "t" (exch Sample.start) = (Ok Sample.book, 0%nat) /\
  spec_best_bid Sample.book <= spec_best_ask Sample.book /\
  exists mid,
    fst (get_mid_price Sample.steady "m" "t" Sample.start) = Ok mid /\
    spec_best_bid Sample.book <= mid <= spec_best_ask Sample.book.
Proof.
  assert (H : spec_best_bid Sample.book <= spec_best_ask Sample.book)
    by (vm_compute; discriminate).
  split; [reflexivity|]. split; [exact H|].
  exact (get_mid_price_inside_spread Sample.E Sample.steady "m" "t" Sample.start
           Sample.book 0%nat eq_refl H).
Defined.

(** ** More on the order lifecycle manager *)

Section OrdersMore.

Variable E : Type.
Variable client : ClobClient E.
Variable get_market_min_size : string -> E -> result Q * E.

(** X4.  When [place_limit_order] returns an answer that carries an order
    id, it has handed exactly one order to the client and appended exactly
    one entry to the registry, and the entry records what was handed over:
    the same token, side, price and size, under the id of the answer, with
    status live and the time of the call. *)
Theorem place_limit_order_records (mkt tok : string) (sd : Side) (sz pr : Q) (fee : Z)
    (s s' : state E) (resp : Resp) :
  place_limit_order client get_market_min_size mkt tok sd sz pr fee s = (Ok resp, s') ->
  truthy_str (orderID resp) = true ->
  exists oid o args,
    orderID resp = Some oid /\
    orders s' = orders s ++ [o] /\
    submitted s' = submitted s ++ [args] /\
    id o = oid /\ status o = LIVE /\ time o = clock s /\
    market_id o = mkt /\ token_id o = tok /\ oa_token_id args = tok /\
    side o = sd /\ oa_side args = sd /\
    price o = oa_price args /\ size o = oa_size args /\
    oa_fee_rate_bps args = fee.
Proof.
  intros Hrun Ht. unfold place_limit_order, try_except in Hrun.
  destruct (place_limit_order_cases E client get_market_min_size mkt tok sd sz pr fee s)
    as [[e [x [_ Hb]]] | [m [x [s1 [_ [Ho [_ [_ [Hs Hb]]]]]]]]].
  - rewrite Hb in Hrun. injection Hrun as <- _. discriminate.
  - destruct Hb as [[e Hb] | [[resp' [Ht' Hb]] | [resp' [oid [Hid [_ Hb]]]]]];
      rewrite Hb in Hrun.
    + injection Hrun as <- _. discriminate.
    + injection Hrun as <- _. congruence.
    + injection Hrun as <- <-.
      exists oid, (placed_order oid mkt tok sd sz pr m (clock s)),
        (clamped_args tok sd sz pr fee m).
      cbn [set_orders orders submitted]. repeat split; assumption.
Qed.

(** X5.  What [place_limit_order] hands to the client.  When the query of
    the minimum size raises, nothing: no order reaches the client and the
    answer is the failure response.  When it answers, exactly one order,
    whose price is the requested one if that lies strictly between 0.01 and
    0.99, and the nearer of the two bounds otherwise, and whose size is the
    requested one if that exceeds the minimum, and the minimum otherwise. *)
Theorem place_limit_order_submits (mkt tok : string) (sd : Side) (sz pr : Q) (fee : Z)
    (s : state E) :
  (forall e x,
      get_market_min_size mkt (exch s) = (Raise e, x) ->
      place_limit_order client get_market_min_size mkt tok sd sz pr fee s
      = (Ok (failure_resp e), set_exch x s)) /\
  (forall min_size x,
      get_market_min_size mkt (exch s) = (Ok min_size, x) ->
      exists args,
        submitted (snd (place_limit_order client get_market_min_size mkt tok sd sz pr
                          fee s))
        = submitted s ++ [args] /\
        oa_side args = sd /\ oa_token_id args = tok /\ oa_fee_rate_bps args = fee /\
        (pr <= 0.01 -> oa_price args = 0.01) /\
        (0.99 <= pr -> oa_price args = 0.99) /\
        (0.01 < pr -> pr < 0.99 -> oa_price args = pr) /\
        (sz <= min_size -> oa_size args = min_size) /\
        (min_size < sz -> oa_size args = sz)).
Proof.
  split.
  - intros e x Hm.
    unfold place_limit_order, try_except, place_limit_order_body, bind, call.
    rewrite Hm. reflexivity.
  - intros m x Hm. exists (clamped_args tok sd sz pr fee m). split.
    + unfold place_limit_order, try_except.
      destruct (place_limit_order_cases E client get_market_min_size mkt tok sd sz pr fee s)
        as [[e [x' [Hm' _]]] | [m' [x' [s1 [Hm' [_ [_ [_ [Hs Hb]]]]]]]]].
      * rewrite Hm in Hm'. discriminate.
      * rewrite Hm in Hm'. injection Hm' as <- _.
        destruct Hb as [[e Hb] | [[resp [_ Hb]] | [resp [oid [_ [_ Hb]]]]]];
          rewrite Hb; cbn [snd ret set_orders submitted]; exact Hs.
    + cbn [clamped_args oa_side oa_token_id oa_fee_rate_bps oa_price oa_size].
      split; [reflexivity|]. split; [reflexivity|]. split; [reflexivity|].
      unfold Py.max, Py.min. repeat split.
      * intro Hlow.
        assert (H1 : Qlt_bool pr 0.99 = true).
        { apply Qlt_bool_true. eapply Qle_lt_trans; [exact Hlow | reflexivity]. }
        rewrite H1.
        assert (H2 : Qlt_bool 0.01 pr = false) by (apply Qlt_bool_false; exact Hlow).
        rewrite H2. reflexivity.
      * intro Hhigh.
        assert (H1 : Qlt_bool pr 0.99 = false) by (apply Qlt_bool_false; exact Hhigh).
        rewrite H1. reflexivity.
      * intros Hlo Hhi.
        assert (H1 : Qlt_bool pr 0.99 = true) by (apply Qlt_bool_true; exact Hhi).
        assert (H2 : Qlt_bool 0.01 pr = true) by (apply Qlt_bool_true; exact Hlo).
        rewrite H1, H2. reflexivity.
      * intro Hsmall.
        assert (H1 : Qlt_bool m sz = false) by (apply Qlt_bool_false; exact Hsmall).
        rewrite H1. reflexivity.
      * intro Hbig.
        assert (H1 : Qlt_bool m sz = true) by (apply Qlt_bool_true; exact Hbig).
        rewrite H1. reflexivity.
Qed.

Lemma mark_canceled_settled (order_id : string) (resp : Resp) (os : list order_info) :
  (forall o, In o os -> id o = order_id -> status o = CANCELED) ->
  mark_canceled order_id resp os = os.
Proof.
  intro H. unfold mark_canceled. rewrite <- (map_id os) at 2.
  apply map_ext_in. intros o Hin.
  destruct (id o =? order_id)%string eqn:Hid; [|reflexivity].
  destruct (mem order_id (canceled_of resp)); [|reflexivity].
  cbn [andb]. apply String.eqb_eq in Hid.
  rewrite <- (H o Hin Hid). apply set_status_same.
Qed.

(** X6.  Cancelling an id that has no live entry changes nothing in the
    registry, whatever the exchange answers: an id the registry does not
    hold, and an id whose entries are all canceled already. *)
Theorem cancel_order_settled (order_id : string) (s : state E) :
  (forall o, In o (orders s) -> id o = order_id -> status o = CANCELED) ->
  orders (snd (cancel_order client order_id s)) = orders s.
Proof.
  intro H.
  destruct (client_cancel client order_id (exch s)) as [[resp|e] x] eqn:Hc.
  - rewrite (cancel_order_answered E client _ _ _ _ Hc). cbn [snd set_orders orders].
    apply mark_canceled_settled, H.
  - rewrite (cancel_order_raised E client _ _ _ _ Hc). reflexivity.
Qed.

Lemma mark_canceled_same_but_status (order_id : string) (resp : Resp)
    (os : list order_info) :
  Forall2 same_but_status os (mark_canceled order_id resp os).
Proof.
  unfold mark_canceled. induction os as [|o os IH]; simpl; constructor; [|exact IH].
  destruct ((id o =? order_id)%string && mem order_id (canceled_of resp));
    repeat split.
Qed.

(** X7.  [cancel_order] changes nothing but statuses: the registry keeps
    its length and every entry its id, market, token, side, size, price and
    time, and the markets, the PnL history, the clock and the record of
    submitted orders stay as they were. *)
Theorem cancel_order_touches_status_only (order_id : string) (s : state E) :
  Forall2 same_but_status (orders s) (orders (snd (cancel_order client order_id s))) /\
  markets (snd (cancel_order client order_id s)) = markets s /\
  pnl_history (snd (cancel_order client order_id s)) = pnl_history s /\
  clock (snd (cancel_order client order_id s)) = clock s /\
  submitted (snd (cancel_order client order_id s)) = submitted s.
Proof.
  split.
  - destruct (client_cancel client order_id (exch s)) as [[resp|e] x] eqn:Hc.
    + rewrite (cancel_order_answered E client _ _ _ _ Hc). cbn [snd set_orders orders].
      apply mark_canceled_same_but_status.
    + rewrite (cancel_order_raised E client _ _ _ _ Hc). cbn [snd set_exch orders].
      apply Forall2_same. intro o. repeat split.
  - split; [apply cancel_order_keeps_markets|].
    split; [apply cancel_order_keeps_pnl_history|].
    split; [apply cancel_order_keeps_clock | apply cancel_order_keeps_submitted].
Qed.

End OrdersMore.

(** X8.  The marking loops of two cancels commute: whichever of two ids is
    cancelled first, the registry ends up the same. *)
Theorem mark_canceled_commute (k1 k2 : string) (r1 r2 : Resp) (os : list order_info) :
  mark_canceled k1 r1 (mark_canceled k2 r2 os)
  = mark_canceled k2 r2 (mark_canceled k1 r1 os).
Proof.
  unfold mark_canceled. rewrite !map_map. apply map_ext. intro o.
  destruct ((id o =? k2)%string && mem k2 (canceled_of r2)) eqn:H2;
    destruct ((id o =? k1)%string && mem k1 (canceled_of r1)) eqn:H1;
    cbn [id set_status]; rewrite ?H1, ?H2; reflexivity.
Qed.

Lemma place_limit_order_records_witness :
  place_limit_order Sample.steady Sample.min_size "m" "t" BUY 10 0.5 0 Sample.start
  = (Ok (Sample.accepted 0), Sample.one_order) /\
  truthy_str (orderID (Sample.accepted 0)) = true /\
  exists o args,
    orders Sample.one_order = orders Sample.start ++ [o] /\
    submitted Sample.one_order = submitted Sample.start ++ [args] /\
    price o = oa_price args /\ size o = oa_size args.
Proof.
  assert (Hrun : place_limit_order Sample.steady Sample.min_size "m" "t" BUY 10 0.5 0
                   Sample.start = (Ok (Sample.accepted 0), Sample.one_order))
    by reflexivity.
  split; [exact Hrun|]. split; [reflexivity|].
  destruct (place_limit_order_records Sample.E Sample.steady Sample.min_size "m" "t" BUY
              10 0.5 0 Sample.start Sample.one_order (Sample.accepted 0) Hrun eq_refl)
    as [oid [o [args [_ [Ho [Hs [_ [_ [_ [_ [_ [_ [_ [_ [Hp [Hz _]]]]]]]]]]]]]]]].
  exists o, args. repeat split; assumption.
Defined.

(** Without a minimum size nothing is submitted; with a minimum of 5, a
    request of size -3 at price 1.5 is submitted as size 5 at price 0.99. *)
Lemma place_limit_order_submits_witness :
  Scenario.no_min_size "m" (exch Sample.start)
  = (Raise "no attribute get_market_min_size", 0%nat) /\
  place_limit_order Sample.steady Scenario.no_min_size "m" "t" BUY (-3) 1.5 0 Sample.start
  = (Ok (failure_resp "no attribute get_market_min_size"), Sample.start) /\
  Sample.min_size "m" (exch Sample.start) = (Ok 5, 0%nat) /\
  exists args,
    submitted (snd (place_limit_order Sample.steady Sample.min_size "m" "t" BUY (-3) 1.5 0
                      Sample.start)) = [args] /\
    oa_price args = 0.99 /\ oa_size args = 5.
Proof.
  split; [reflexivity|]. split.
  - destruct (place_limit_order_submits Sample.E Sample.steady Scenario.no_min_size
                "m" "t" BUY (-3) 1.5 0 Sample.start) as [Hnone _].
    exact (Hnone _ _ eq_refl).
  - split; [reflexivity|].
    destruct (place_limit_order_submits Sample.E Sample.steady Sample.min_size
                "m" "t" BUY (-3) 1.5 0 Sample.start) as [_ Hone].
    destruct (Hone 5 0%nat eq_refl)
      as [args [Hs [_ [_ [_ [_ [Hhigh [_ [Hsmall _]]]]]]]]].
    exists args. split; [exact Hs|]. split.
    + apply Hhigh. discriminate.
    + apply Hsmall. discriminate.
Defined.

Lemma cancel_order_settled_witness :
  (forall o, In o (orders one_canceled) -> id o = "order-" -> status o = CANCELED) /\
  orders (snd (cancel_order Sample.steady "order-" one_canceled)) = orders one_canceled.
Proof.
  assert (H : forall o, In o (orders one_canceled) -> id o = "order-" ->
                        status o = CANCELED).
  { intros o [<-|[]] _. reflexivity. }
  split; [exact H|].
  exact (cancel_order_settled Sample.E Sample.steady "order-" one_canceled H).
Defined.

(** ** More on the strategy loop *)

Section CycleMore.

Variable E : Type.
Variable client : ClobClient E.
Variable get_market_min_size : string -> E -> result Q * E.

(** A cycle leaves alone whatever the three methods it calls and the sleep
    leave alone. *)
Lemma strategy_cycle_keeps {B : Type} (f : state E -> B)
    (market_id token_id : string) (size max_spread : Q) :
  (forall x s, f (set_exch x s) = f s) ->
  (forall t s, f (set_clock t s) = f s) ->
  (forall k, keeps f (cancel_order client k)) ->
  (forall sd sz pr fee,
      keeps f (place_limit_order client get_market_min_size market_id token_id sd sz pr fee)) ->
  keeps (fun sl : state E * locals => f (fst sl))
    (strategy_cycle client get_market_min_size market_id token_id size max_spread).
Proof.
  intros Hx Ht Hc Hp.
  unfold strategy_cycle, requote, cancel_active_buy, cancel_active_sell,
    place_new_buy, place_new_sell, get_local, assign, lookup_order, sleep.
  repeat first
    [ apply keeps_on_self; first [apply Hc | apply Hp | apply get_mid_price_keeps; exact Hx
                                 | apply keeps_modify; intros; apply Ht]
    | frame_step ].
Qed.

Lemma wind_down_keeps {B : Type} (f : state E -> B) :
  (forall k, keeps f (cancel_order client k)) ->
  keeps (fun sl : state E * locals => f (fst sl)) (wind_down client).
Proof.
  intro Hc. unfold wind_down, get_local.
  repeat first [ apply keeps_on_self; apply Hc | frame_step ].
Qed.

Lemma strategy_loop_keeps {B : Type} (f : state E * locals -> B)
    (market_id token_id : string) (size max_spread : Q) (end_time : Q) :
  keeps f (strategy_cycle client get_market_min_size market_id token_id size max_spread) ->
  forall fuel sl r sl',
    strategy_loop client get_market_min_size fuel market_id token_id size max_spread
      end_time sl = Some (r, sl') ->
    f sl' = f sl.
Proof.
  intros Hk fuel. induction fuel as [|fuel IH]; intros sl r sl' Hrun;
    rewrite strategy_loop_unfold in Hrun;
    destruct (Qlt_bool (inject_Z (clock (fst sl))) end_time); try discriminate;
    try (injection Hrun as _ <-; reflexivity).
  specialize (Hk sl).
  destruct (strategy_cycle client get_market_min_size market_id token_id size max_spread sl)
    as [[u|e] sl1]; cbn [snd] in Hk.
  - rewrite (IH _ _ _ Hrun). exact Hk.
  - injection Hrun as _ <-. exact Hk.
Qed.

(** A run leaves alone whatever its cycles and [cancel_order] leave alone. *)
Lemma run_strategy_keeps {B : Type} (f : state E -> B)
    (market_id token_id : string) (risk_amount max_spread : Q) (duration_minutes : Q)
    (s : state E) (r : result unit) (s' : state E) :
  (forall x s, f (set_exch x s) = f s) ->
  (forall t s, f (set_clock t s) = f s) ->
  (forall k, keeps f (cancel_order client k)) ->
  (forall sd sz pr fee,
      keeps f (place_limit_order client get_market_min_size market_id token_id sd sz pr fee)) ->
  run_strategy client get_market_min_size market_id token_id risk_amount max_spread
    duration_minutes s = Some (r, s') ->
  f s' = f s.
Proof.
  intros Hx Ht Hc Hp Hrun. unfold run_strategy in Hrun.
  destruct (strategy_loop client get_market_min_size (max_cycles duration_minutes)
              market_id token_id (risk_amount / 2) max_spread
              (inject_Z (clock s) + duration_minutes * 60)
              (s, {| active_buy_order := None; active_sell_order := None |}))
    as [[[u|e] sl]|] eqn:Hloop; try discriminate.
  - pose proof (strategy_loop_keeps (fun sl => f (fst sl)) _ _ _ _ _
                  (strategy_cycle_keeps f _ _ _ _ Hx Ht Hc Hp) _ _ _ _ Hloop) as Hl.
    pose proof (wind_down_keeps f Hc sl) as Hw.
    destruct (wind_down client sl) as [r' sl'']. injection Hrun as _ <-.
    cbn [fst snd] in *. congruence.
  - pose proof (strategy_loop_keeps (fun sl => f (fst sl)) _ _ _ _ _
                  (strategy_cycle_keeps f _ _ _ _ Hx Ht Hc Hp) _ _ _ _ Hloop) as Hl.
    injection Hrun as _ <-. exact Hl.
Qed.

Lemma place_limit_order_sent (mkt tok : string) (sd : Side) (sz pr : Q) (fee : Z)
    (s : state E) :
  exists sent,
    submitted (snd (place_limit_order client get_market_min_size mkt tok sd sz pr fee s))
    = submitted s ++ sent /\
    (sent = [] \/ exists m, sent = [clamped_args tok sd sz pr fee m]).
Proof.
  unfold place_limit_order, try_except.
  destruct (place_limit_order_cases E client get_market_min_size mkt tok sd sz pr fee s)
    as [[e [x [_ Hb]]] | [m [x [s1 [_ [_ [_ [_ [Hs Hb]]]]]]]]].
  - rewrite Hb. exists []. rewrite app_nil_r. split; [reflexivity | left; reflexivity].
  - exists [clamped_args tok sd sz pr fee m]. split; [|right; exists m; reflexivity].
    destruct Hb as [[e Hb] | [[resp [_ Hb]] | [resp [oid [_ [_ Hb]]]]]];
      rewrite Hb; cbn [snd ret set_orders submitted]; exact Hs.
Qed.

Lemma place_new_buy_sent (mkt tok : string) (sz pr : Q) (sl : state E * locals) :
  exists sent,
    submitted (fst (snd (place_new_buy client get_market_min_size mkt tok sz pr sl)))
    = submitted (fst sl) ++ sent /\
    (sent = [] \/ exists m, sent = [clamped_args tok BUY sz pr 0 m]).
Proof.
  destruct (place_limit_order_sent mkt tok BUY sz pr 0 (fst sl)) as [sent [Hs Hcase]].
  exists sent. split; [|exact Hcase].
  unfold place_new_buy, bind, on_self, lookup_order, gets, assign, modify, ret.
  destruct (place_limit_order client get_market_min_size mkt tok BUY sz pr 0 (fst sl))
    as [[resp|e] s1]; cbn [fst snd] in *; [|exact Hs].
  destruct (orderID resp) as [oid|]; [|exact Hs].
  destruct (truthy_str (Some oid)); exact Hs.
Qed.

Lemma place_new_sell_sent (mkt tok : string) (sz pr : Q) (sl : state E * locals) :
  exists sent,
    submitted (fst (snd (place_new_sell client get_market_min_size mkt tok sz pr sl)))
    = submitted (fst sl) ++ sent /\
    (sent = [] \/ exists m, sent = [clamped_args tok SELL sz pr 0 m]).
Proof.
  destruct (place_limit_order_sent mkt tok SELL sz pr 0 (fst sl)) as [sent [Hs Hcase]].
  exists sent. split; [|exact Hcase].
  unfold place_new_sell, bind, on_self, lookup_order, gets, assign, modify, ret.
  destruct (place_limit_order client get_market_min_size mkt tok SELL sz pr 0 (fst sl))
    as [[resp|e] s1]; cbn [fst snd] in *; [|exact Hs].
  destruct (orderID resp) as [oid|]; [|exact Hs].
  destruct (truthy_str (Some oid)); exact Hs.
Qed.

Lemma cancel_active_buy_keeps_submitted :
  keeps (fun sl : state E * locals => submitted (fst sl)) (cancel_active_buy client).
Proof.
  unfold cancel_active_buy, get_local, assign.
  repeat first [ apply keeps_on_self; apply cancel_order_keeps_submitted | frame_step ].
Qed.

Lemma cancel_active_sell_keeps_submitted :
  keeps (fun sl : state E * locals => submitted (fst sl)) (cancel_active_sell client).
Proof.
  unfold cancel_active_sell, get_local, assign.
  repeat first [ apply keeps_on_self; apply cancel_order_keeps_submitted | frame_step ].
Qed.

(** What requoting hands to the client: at most a buy order, then at most
    a sell order, at the prices computed from the mid price. *)
Lemma requote_sent (mkt tok : string) (sz max_spread mid_price : Q)
    (sl : state E * locals) :
  exists bsent ssent,
    submitted (fst (snd (requote client get_market_min_size mkt tok sz max_spread
                           mid_price sl)))
    = submitted (fst sl) ++ bsent ++ ssent /\
    (bsent = [] \/
     exists m, bsent = [clamped_args tok BUY sz
                          (Py.max 0.01 (round2 (mid_price - max_spread))) 0 m]) /\
    (ssent = [] \/
     exists m, ssent = [clamped_args tok SELL sz
                          (Py.min 0.99 (round2 (mid_price + max_spread))) 0 m]).
Proof.
  unfold requote, bind.
  destruct (cancel_active_buy_effect E client sl) as [s1 [Hrun1 _]].
  pose proof (cancel_active_buy_keeps_submitted sl) as Hk1.
  rewrite Hrun1 in *. cbn [fst snd] in Hk1.
  destruct (cancel_active_sell_effect E client (s1, set_active_buy_order None (snd sl)))
    as [s2 [Hrun2 _]].
  pose proof (cancel_active_sell_keeps_submitted (s1, set_active_buy_order None (snd sl)))
    as Hk2.
  cbn [fst snd] in Hrun2. rewrite Hrun2 in *. cbn [fst snd] in Hk2.
  destruct (place_new_buy_sent mkt tok sz (Py.max 0.01 (round2 (mid_price - max_spread)))
              (s2, set_active_sell_order None (set_active_buy_order None (snd sl))))
    as [bsent [Hb Hbcase]].
  destruct (place_new_buy client get_market_min_size mkt tok sz
              (Py.max 0.01 (round2 (mid_price - max_spread)))
              (s2, set_active_sell_order None (set_active_buy_order None (snd sl))))
    as [[u|e] sl3]; cbn [fst snd] in Hb.
  - destruct (place_new_sell_sent mkt tok sz (Py.min 0.99 (round2 (mid_price + max_spread)))
                sl3) as [ssent [Hs Hscase]].
    exists bsent, ssent. split; [|split; assumption].
    cbv beta iota. rewrite Hs, Hb, Hk2, Hk1, app_assoc. reflexivity.
  - exists bsent, []. cbn [fst snd]. rewrite app_nil_r.
    split; [congruence|]. split; [exact Hbcase | left; reflexivity].
Qed.

(** What one cycle hands to the client. *)
Lemma strategy_cycle_sent (mkt tok : string) (sz max_spread : Q)
    (sl : state E * locals) :
  exists mid_price bsent ssent,
    submitted (fst (snd (strategy_cycle client get_market_min_size mkt tok sz max_spread sl)))
    = submitted (fst sl) ++ bsent ++ ssent /\
    (bsent = [] \/
     exists m, bsent = [clamped_args tok BUY sz
                          (Py.max 0.01 (round2 (mid_price - max_spread))) 0 m]) /\
    (ssent = [] \/
     exists m, ssent = [clamped_args tok SELL sz
                          (Py.min 0.99 (round2 (mid_price + max_spread))) 0 m]).
Proof.
  unfold strategy_cycle, try_except, bind, on_self at 1.
  destruct (get_mid_price_total E client mkt tok (fst sl)) as [mid [x Hmid]].
  rewrite Hmid. cbn [fst snd]. exists mid.
  destruct (truthy mid).
  - destruct (requote_sent mkt tok sz max_spread mid (set_exch x (fst sl), snd sl))
      as [bsent [ssent [Hs [Hb Hc]]]].
    exists bsent, ssent. split; [|split; assumption].
    destruct (requote client get_market_min_size mkt tok sz max_spread mid
                (set_exch x (fst sl), snd sl)) as [[u|e] sl1];
      unfold on_self, sleep, modify; cbn [fst snd set_clock submitted] in *; exact Hs.
  - exists [], []. split; [|split; left; reflexivity].
    unfold ret, on_self, sleep, modify. cbn [fst snd set_clock set_exch submitted].
    rewrite app_nil_r. reflexivity.
Qed.

End CycleMore.

Section RunMore.

Variable E : Type.
Variable client : ClobClient E.
Variable get_market_min_size : string -> E -> result Q * E.

Lemma placed_length (sd : Side) (added : list order_info) (act : option order_info) :
  placed sd added act -> (List.length added <= 1)%nat.
Proof. intros [[-> _] | [o [a [-> _]]]]; simpl; lia. Qed.

Lemma requoted_length (C : Prop) (os : list order_info) (l : locals)
    (os' : list order_info) (l' : locals) :
  requoted C os l os' l' ->
  (List.length os <= List.length os' <= List.length os + 2)%nat.
Proof.
  intros [os1 [os2 [bs [ss [H1 [H2 [-> [Hb Hs]]]]]]]].
  apply canceled_from_length in H1. apply canceled_from_length in H2.
  apply placed_length in Hb. apply placed_length in Hs.
  rewrite !length_app. lia.
Qed.

(** Between two cycles, [k] cycles of thirty seconds each have been made,
    the last of them begun before the end time, and at most two orders
    were placed in each. *)
Lemma between_cycles_progress (mkt tok : string) (sz max_spread : Q) (end_time : Q)
    (sl0 sl : state E * locals) :
  between_cycles client get_market_min_size mkt tok sz max_spread end_time sl0 sl ->
  exists k : nat,
    clock (fst sl) = (clock (fst sl0) + 30 * Z.of_nat k)%Z /\
    (k <> 0%nat -> inject_Z (clock (fst sl)) - 30 < end_time) /\
    (List.length (orders (fst sl0)) <= List.length (orders (fst sl))
     <= List.length (orders (fst sl0)) + 2 * k)%nat.
Proof.
  induction 1 as [|sl sl' _ IH Hlt Hrun].
  - exists 0%nat. split; [lia|]. split; [congruence | lia].
  - destruct IH as [k [Hc [_ Hn]]].
    destruct (strategy_cycle_effect E client get_market_min_size mkt tok sz max_spread sl)
      as [s' [l' [Hrun' [Hc' [_ Hcase]]]]].
    rewrite Hrun in Hrun'. injection Hrun' as ->. cbn [fst snd].
    exists (S k). split; [lia|]. split.
    + intros _. rewrite Hc', inject_Z_plus. change (inject_Z 30) with 30. lra.
    + destruct Hcase as [[-> _] | Hq]; [lia|].
      apply requoted_length in Hq. lia.
Qed.

(** A run: the loop ends between two cycles, at or after the end time;
    the cancellations that follow change neither the clock nor the length
    of the registry. *)
Lemma run_strategy_unfolded (mkt tok : string) (risk_amount max_spread : Q)
    (duration_minutes : Q) (s : state E) :
  exists sl s',
    between_cycles client get_market_min_size mkt tok (risk_amount / 2) max_spread
      (inject_Z (clock s) + duration_minutes * 60)
      (s, {| active_buy_order := None; active_sell_order := None |}) sl /\
    inject_Z (clock s) + duration_minutes * 60 <= inject_Z (clock (fst sl)) /\
    run_strategy client get_market_min_size mkt tok risk_amount max_spread
      duration_minutes s = Some (Ok tt, s') /\
    clock s' = clock (fst sl) /\
    List.length (orders s') = List.length (orders (fst sl)).
Proof.
  unfold run_strategy.
  destruct (strategy_loop_ends E client get_market_min_size mkt tok
              (risk_amount / 2) max_spread (inject_Z (clock s) + duration_minutes * 60)
              (s, {| active_buy_order := None; active_sell_order := None |})
              (max_cycles duration_minutes)
              (s, {| active_buy_order := None; active_sell_order := None |}))
    as [sl [Hloop [Hb Hend]]].
  - apply between_start.
  - cbn [fst]. pose proof (max_cycles_enough duration_minutes). lra.
  - rewrite Hloop.
    destruct (wind_down_effect E client sl) as [s' [os1 [Hw [_ [Hc1 Hc2]]]]].
    pose proof (wind_down_keeps E client clock (cancel_order_keeps_clock E client) sl) as Hk.
    rewrite Hw in *. cbn [fst snd] in Hk. exists sl, s'.
    split; [exact Hb|]. split; [exact Hend|]. split; [reflexivity|]. split; [exact Hk|].
    rewrite (canceled_from_length _ _ _ _ Hc2), (canceled_from_length _ _ _ _ Hc1).
    reflexivity.
Qed.

(** X9.  Every cycle of the loop of [run_strategy] completes: it sleeps its
    thirty seconds and raises nothing, so the five-second recovery of the
    loop is never taken.  A run of any duration, whole or fractional,
    therefore returns without an error after a number [k] of such cycles;
    on the clock of the embedding, which only [time.sleep] advances, it
    returns at or after its end time, and its last cycle began before the
    end time. *)
Theorem run_strategy_completes (mkt tok : string) (risk_amount max_spread : Q)
    (duration_minutes : Q) (s : state E) :
  (forall sl,
      exists sl',
        strategy_cycle client get_market_min_size mkt tok (risk_amount / 2) max_spread sl
        = (Ok tt, sl') /\
        clock (fst sl') = (clock (fst sl) + 30)%Z) /\
  exists s' (k : nat),
    run_strategy client get_market_min_size mkt tok risk_amount max_spread
      duration_minutes s = Some (Ok tt, s') /\
    clock s' = (clock s + 30 * Z.of_nat k)%Z /\
    inject_Z (clock s) + duration_minutes * 60 <= inject_Z (clock s') /\
    (k <> 0%nat ->
     inject_Z (clock s') - 30 < inject_Z (clock s) + duration_minutes * 60) /\
    (duration_minutes <= 0 -> k = 0%nat).
Proof.
  split.
  - intro sl.
    destruct (strategy_cycle_effect E client get_market_min_size mkt tok
                (risk_amount / 2) max_spread sl) as [s1 [l1 [Hrun [Hc _]]]].
    exists (s1, l1). split; [exact Hrun | exact Hc].
  - destruct (run_strategy_unfolded mkt tok risk_amount max_spread duration_minutes s)
      as [sl [s' [Hb [Hend [Hrun [Hc _]]]]]].
    destruct (between_cycles_progress _ _ _ _ _ _ _ Hb) as [k [Hk [Hlast _]]].
    cbn [fst] in Hk, Hlast.
    exists s', k. split; [exact Hrun|]. rewrite Hc.
    split; [exact Hk|]. split; [exact Hend|]. split; [exact Hlast|].
    intro Hd. destruct k as [|k]; [reflexivity | exfalso].
    assert (Hl : inject_Z (clock (fst sl)) - 30 < inject_Z (clock s) + duration_minutes * 60)
      by (apply Hlast; discriminate).
    rewrite Hk, inject_Z_plus, inject_Z_mult in Hl. change (inject_Z 30) with 30 in Hl.
    assert (Hp : (1 <= Z.of_nat (S k))%Z) by lia.
    rewrite Zle_Qle in Hp. change (inject_Z 1) with 1 in Hp. lra.
Qed.

(** X10.  A run of [duration_minutes], whole or fractional, appends at most
    two entries to the registry for each started half minute of its
    duration, and removes none. *)
Theorem run_strategy_order_bound (mkt tok : string) (risk_amount max_spread : Q)
    (duration_minutes : Q) (s : state E) :
  exists s',
    run_strategy client get_market_min_size mkt tok risk_amount max_spread
      duration_minutes s = Some (Ok tt, s') /\
    (List.length (orders s) <= List.length (orders s'))%nat /\
    (Z.of_nat (List.length (orders s'))
     <= Z.of_nat (List.length (orders s))
        + 2 * Z.max 0 (Qceiling (2 * duration_minutes)))%Z.
Proof.
  destruct (run_strategy_unfolded mkt tok risk_amount max_spread duration_minutes s)
    as [sl [s' [Hb [Hend [Hrun [_ Hlen]]]]]].
  destruct (between_cycles_progress _ _ _ _ _ _ _ Hb) as [k [Hk [Hlast Hn]]].
  cbn [fst] in Hk, Hlast, Hn.
  exists s'. split; [exact Hrun|]. rewrite Hlen. split; [lia|].
  destruct k as [|k]; [lia|].
  assert (Hl : inject_Z (clock (fst sl)) - 30 < inject_Z (clock s) + duration_minutes * 60)
    by (apply Hlast; discriminate).
  rewrite Hk, inject_Z_plus, inject_Z_mult in Hl. change (inject_Z 30) with 30 in Hl.
  pose proof (Qle_ceiling (2 * duration_minutes)) as Hceil.
  assert (Hz : (Z.of_nat (S k) - 1 < Qceiling (2 * duration_minutes))%Z).
  { rewrite Zlt_Qlt. unfold Z.sub. rewrite inject_Z_plus.
    change (inject_Z (- (1))) with (- (1)). lra. }
  lia.
Qed.

(** X11.  With a duration that is not positive, [run_strategy] returns at
    once and changes nothing, the exchange included. *)
Theorem run_strategy_no_duration (mkt tok : string) (risk_amount max_spread : Q)
    (duration_minutes : Q) (s : state E) :
  duration_minutes <= 0 ->
  run_strategy client get_market_min_size mkt tok risk_amount max_spread
    duration_minutes s = Some (Ok tt, s).
Proof.
  intro Hd. unfold run_strategy. rewrite strategy_loop_unfold. cbn [fst].
  assert (Hge : Qlt_bool (inject_Z (clock s)) (inject_Z (clock s) + duration_minutes * 60)
                = false)
    by (apply Qlt_bool_false; lra).
  rewrite Hge. reflexivity.
Qed.

(** X12.  When the mid price is zero, the cycle takes it for no price at
    all: it cancels nothing, places nothing, keeps the active orders it
    has, and sleeps its thirty seconds. *)
Theorem strategy_cycle_skips_at_zero (mkt tok : string) (sz max_spread : Q)
    (sl : state E * locals) (mid : Q) :
  fst (get_mid_price client mkt tok (fst sl)) = Ok mid ->
  mid == 0 ->
  exists s',
    strategy_cycle client get_market_min_size mkt tok sz max_spread sl
    = (Ok tt, (s', snd sl)) /\
    orders s' = orders (fst sl) /\
    submitted s' = submitted (fst sl) /\
    clock s' = (clock (fst sl) + 30)%Z.
Proof.
  intros Hmid Hzero.
  destruct (get_mid_price_total E client mkt tok (fst sl)) as [mid' [x Hrun]].
  rewrite Hrun in Hmid. cbn [fst] in Hmid. injection Hmid as ->.
  unfold strategy_cycle, try_except, bind, on_self at 1. rewrite Hrun.
  assert (Ht : truthy mid = false).
  { unfold truthy. apply negb_false_iff, Qeq_bool_iff, Hzero. }
  rewrite Ht. unfold ret, on_self, sleep, modify. cbn [fst snd].
  eexists. split; [reflexivity|]. repeat split.
Qed.

(** X13.  In one cycle the bot hands at most two orders to the client: at
    most one buy order, then at most one sell order.  Each is for the token
    of the run, carries no fee rate, is priced within [0.01, 0.99] and is
    sized no smaller than the size of the run. *)
Theorem strategy_cycle_sends_quote_pair (mkt tok : string) (sz max_spread : Q)
    (sl : state E * locals) :
  exists bsent ssent,
    submitted (fst (snd (strategy_cycle client get_market_min_size mkt tok sz
                           max_spread sl)))
    = submitted (fst sl) ++ bsent ++ ssent /\
    (List.length bsent <= 1)%nat /\
    (List.length ssent <= 1)%nat /\
    Forall (fun args => oa_side args = BUY) bsent /\
    Forall (fun args => oa_side args = SELL) ssent /\
    Forall (fun args =>
              oa_token_id args = tok /\ oa_fee_rate_bps args = 0%Z /\
              0.01 <= oa_price args <= 0.99 /\ sz <= oa_size args)
      (bsent ++ ssent).
Proof.
  destruct (strategy_cycle_sent E client get_market_min_size mkt tok sz max_spread sl)
    as [mid [bsent [ssent [Hsub [Hb Hc]]]]].
  exists bsent, ssent. split; [exact Hsub|].
  assert (Hargs : forall sd pr m,
             oa_token_id (clamped_args tok sd sz pr 0 m) = tok /\
             oa_fee_rate_bps (clamped_args tok sd sz pr 0 m) = 0%Z /\
             0.01 <= oa_price (clamped_args tok sd sz pr 0 m) <= 0.99 /\
             sz <= oa_size (clamped_args tok sd sz pr 0 m)).
  { intros sd pr m. cbn [clamped_args oa_token_id oa_fee_rate_bps oa_price oa_size].
    split; [reflexivity|]. split; [reflexivity|].
    split; [apply clamped_price_range | apply py_max_bounds]. }
  destruct Hb as [-> | [m ->]]; destruct Hc as [-> | [m' ->]]; cbn [app List.length];
    repeat split; try lia; repeat constructor; apply Hargs.
Qed.

(** X14.  Each field of the bot has its writers.  The PnL history is
    written by [get_pnl] only, the markets by [get_active_markets] only,
    the clock moves in [run_strategy] only, orders are handed to the client
    by [place_limit_order] and [run_strategy] only, and the registry is
    written by [place_limit_order], [cancel_order] and [run_strategy]
    only. *)
Theorem methods_frame (m : method) (s s' : state E) :
  exec client get_market_min_size m s = Some s' ->
  method_frame m s s'.
Proof.
  destruct m as [ | | mk tk | mk tk sd sz pr fee | oid | mk tk risk spread dur | | ];
    cbn [exec method_frame]; intro Hexec.
  - injection Hexec as <-. apply create_api_key_same_bot.
  - injection Hexec as <-.
    split; [apply get_active_markets_orders|].
    split; [apply get_active_markets_keeps_pnl_history|].
    split; [apply get_active_markets_keeps_clock | apply get_active_markets_keeps_submitted].
  - injection Hexec as <-.
    destruct (get_mid_price_total E client mk tk s) as [mid [x Hrun]].
    rewrite Hrun. repeat split.
  - injection Hexec as <-.
    split; [apply place_limit_order_keeps_markets|].
    split; [apply place_limit_order_keeps_pnl_history | apply place_limit_order_keeps_clock].
  - injection Hexec as <-.
    split; [apply cancel_order_keeps_markets|].
    split; [apply cancel_order_keeps_pnl_history|].
    split; [apply cancel_order_keeps_clock | apply cancel_order_keeps_submitted].
  - destruct (run_strategy client get_market_min_size mk tk risk spread dur s)
      as [[r s1]|] eqn:Hrun; [|discriminate].
    cbn [option_map snd] in Hexec. injection Hexec as <-. split.
    + eapply (run_strategy_keeps E client get_market_min_size markets); try exact Hrun.
      * reflexivity.
      * reflexivity.
      * apply cancel_order_keeps_markets.
      * intros. apply place_limit_order_keeps_markets.
    + eapply (run_strategy_keeps E client get_market_min_size pnl_history); try exact Hrun.
      * reflexivity.
      * reflexivity.
      * apply cancel_order_keeps_pnl_history.
      * intros. apply place_limit_order_keeps_pnl_history.
  - injection Hexec as <-.
    split; [apply get_pnl_orders|].
    split; [apply get_pnl_keeps_markets|].
    split; [apply get_pnl_keeps_clock | apply get_pnl_keeps_submitted].
  - injection Hexec as <-. repeat split.
Qed.

End RunMore.

(** ** The strategy of the class as it is written *)

Section Unplaced.

Variable E : Type.
Variable client : ClobClient E.
Variable get_market_min_size : string -> E -> result Q * E.

(** The minimum-size query raises, as the lookup of a method that the
    class does not define does. *)
Hypothesis query_raises : always_raises get_market_min_size.

(** Every placement fails before anything is handed to the client. *)
Lemma place_limit_order_fails (mkt tok : string) (sd : Side) (sz pr : Q) (fee : Z)
    (s : state E) :
  exists e x,
    place_limit_order client get_market_min_size mkt tok sd sz pr fee s
    = (Ok (failure_resp e), set_exch x s).
Proof.
  destruct (query_raises mkt (exch s)) as [e [x Hq]]. exists e, x.
  unfold place_limit_order, try_except, place_limit_order_body, bind, call.
  rewrite Hq. reflexivity.
Qed.

Lemma place_limit_order_keeps_orders (mkt tok : string) (sd : Side) (sz pr : Q) (fee : Z) :
  keeps orders (place_limit_order client get_market_min_size mkt tok sd sz pr fee).
Proof.
  intro s. destruct (place_limit_order_fails mkt tok sd sz pr fee s) as [e [x ->]].
  reflexivity.
Qed.

Lemma place_limit_order_keeps_submitted (mkt tok : string) (sd : Side) (sz pr : Q)
    (fee : Z) :
  keeps submitted (place_limit_order client get_market_min_size mkt tok sd sz pr fee).
Proof.
  intro s. destruct (place_limit_order_fails mkt tok sd sz pr fee s) as [e [x ->]].
  reflexivity.
Qed.

Lemma cancel_order_keeps_length (order_id : string) :
  keeps (fun s : state E => List.length (orders s)) (cancel_order client order_id).
Proof.
  intro s. destruct (client_cancel client order_id (exch s)) as [[resp|e] x] eqn:Hc.
  - rewrite (cancel_order_answered E client _ _ _ _ Hc). cbn [snd set_orders orders].
    unfold mark_canceled. apply length_map.
  - rewrite (cancel_order_raised E client _ _ _ _ Hc). reflexivity.
Qed.

(** Between two cycles the registry is as long as the loop found it. *)
Lemma between_cycles_nothing_placed (mkt tok : string) (sz max_spread end_time : Q)
    (sl0 sl : state E * locals) :
  between_cycles client get_market_min_size mkt tok sz max_spread end_time sl0 sl ->
  List.length (orders (fst sl)) = List.length (orders (fst sl0)) /\
  submitted (fst sl) = submitted (fst sl0).
Proof.
  induction 1 as [|sl sl' _ [IHo IHs] _ Hrun]; [split; reflexivity|].
  pose proof (strategy_cycle_keeps E client get_market_min_size
                (fun s => List.length (orders s)) mkt tok sz max_spread
                (fun _ _ => eq_refl) (fun _ _ => eq_refl) cancel_order_keeps_length
                (fun sd sz' pr fee s =>
                   f_equal (@List.length order_info)
                     (place_limit_order_keeps_orders mkt tok sd sz' pr fee s)) sl) as Ho.
  pose proof (strategy_cycle_keeps E client get_market_min_size submitted
                mkt tok sz max_spread
                (fun _ _ => eq_refl) (fun _ _ => eq_refl)
                (cancel_order_keeps_submitted E client)
                (place_limit_order_keeps_submitted mkt tok) sl) as Hs.
  rewrite Hrun in Ho, Hs. cbn [fst snd] in Ho, Hs. split; congruence.
Qed.

(** No call makes the registry longer. *)
Lemma exec_keeps_length (m : method) (s s' : state E) :
  exec client get_market_min_size m s = Some s' ->
  List.length (orders s') = List.length (orders s).
Proof.
  destruct m as [ | | mk tk | mk tk sd sz pr fee | oid | mk tk risk spread dur | | ];
    cbn [exec]; intro Hexec.
  - injection Hexec as <-. f_equal. apply create_api_key_orders.
  - injection Hexec as <-. f_equal. apply get_active_markets_orders.
  - injection Hexec as <-. f_equal. apply get_mid_price_orders.
  - injection Hexec as <-. f_equal. apply place_limit_order_keeps_orders.
  - injection Hexec as <-. apply cancel_order_keeps_length.
  - destruct (run_strategy client get_market_min_size mk tk risk spread dur s)
      as [[r s1]|] eqn:Hrun; [|discriminate].
    cbn [option_map snd] in Hexec. injection Hexec as <-.
    eapply (run_strategy_keeps E client get_market_min_size
              (fun s => List.length (orders s))); try exact Hrun.
    + reflexivity.
    + reflexivity.
    + apply cancel_order_keeps_length.
    + intros sd sz' pr fee s0.
      exact (f_equal (@List.length order_info)
               (place_limit_order_keeps_orders mk tk sd sz' pr fee s0)).
  - injection Hexec as <-. f_equal. apply get_pnl_orders.
  - injection Hexec as <-. reflexivity.
Qed.

(** The registry of the bot is empty for good. *)
Lemma reachable_registry_empty (s : state E) :
  reachable client get_market_min_size s -> orders s = [].
Proof.
  induction 1 as [e now|s m s' _ IH Hexec]; [reflexivity|].
  apply exec_keeps_length in Hexec. rewrite IH in Hexec.
  destruct (orders s'); [reflexivity | discriminate].
Qed.

(** A run returns and leaves the registry as long as it was. *)
Lemma run_strategy_nothing_placed (mkt tok : string) (risk_amount max_spread : Q)
    (duration_minutes : Q) (s : state E) :
  exists s',
    run_strategy client get_market_min_size mkt tok risk_amount max_spread
      duration_minutes s = Some (Ok tt, s') /\
    List.length (orders s') = List.length (orders s).
Proof.
  destruct (run_strategy_effect E client get_market_min_size mkt tok risk_amount
              max_spread duration_minutes s) as [sl [s' [os1 [_ [Hrun _]]]]].
  exists s'. split; [exact Hrun|].
  apply (exec_keeps_length (RunStrategy mkt tok risk_amount max_spread duration_minutes)).
  cbn [exec]. rewrite Hrun. reflexivity.
Qed.

End Unplaced.

Lemma missing_method_raises (E : Type) :
  always_raises (@missing_get_market_min_size E).
Proof. intros market_id x. eexists _, _. reflexivity. Qed.



Lemma refused_reachable :
  reachable Sample.steady missing_get_market_min_size Scenario.refused.
Proof.
  apply reachable_step
    with (s := Sample.start) (m := PlaceLimitOrder "m" "t" BUY 10 0.5 0).
  - apply reachable_init.
  - reflexivity.
Defined.


(** ** The realized PnL on binary64 numbers *)

Lemma binary64_fold_add_trade (trades : list Binary64.trade) :
  forall acc,
    Binary64.sell_revenue (fold_left Binary64.add_trade trades acc)
    = fold_left add
        (map (fun t => Binary64.trade_size t * (1 - Binary64.trade_price t))%float
           (filter (fun t => (Binary64.trade_status t =? "CONFIRMED")%string
                             && negb (Binary64.trade_side t =? "buy")%string) trades))
        (Binary64.sell_revenue acc)
    /\
    Binary64.buy_cost (fold_left Binary64.add_trade trades acc)
    = fold_left add
        (map (fun t => Binary64.trade_size t * Binary64.trade_price t)%float
           (filter (Binary64.confirmed "buy") trades))
        (Binary64.buy_cost acc).
Proof.
  induction trades as [|t trades IH]; intro acc; simpl; [split; reflexivity|].
  destruct (IH (Binary64.add_trade acc t)) as [IHs IHb]. rewrite IHs, IHb.
  unfold Binary64.add_trade, Binary64.confirmed.
  destruct (Binary64.trade_status t =? "CONFIRMED")%string; simpl;
    [|split; reflexivity].
  destruct (Binary64.trade_side t =? "buy")%string; simpl; split; reflexivity.
Qed.

Lemma binary64_confirmed_sells (trades : list Binary64.trade) :
  Forall (fun t => Binary64.trade_status t = "CONFIRMED" ->
                   Binary64.trade_side t = "buy" \/ Binary64.trade_side t = "sell")
    trades ->
  filter (fun t => (Binary64.trade_status t =? "CONFIRMED")%string
                   && negb (Binary64.trade_side t =? "buy")%string) trades
  = filter (Binary64.confirmed "sell") trades.
Proof.
  intro HF. apply filter_ext_in. intros t Hin.
  rewrite Forall_forall in HF. specialize (HF t Hin).
  unfold Binary64.confirmed.
  destruct (Binary64.trade_status t =? "CONFIRMED")%string eqn:Hs; simpl.
  - apply String.eqb_eq in Hs. destruct (HF Hs) as [Hb|Hb]; rewrite Hb; reflexivity.
  - reflexivity.
Qed.

Lemma binary64_unconfirmed_skipped (trades : list Binary64.trade) :
  forall acc,
    fold_left Binary64.add_trade
      (filter (fun t => (Binary64.trade_status t =? "CONFIRMED")%string) trades) acc
    = fold_left Binary64.add_trade trades acc.
Proof.
  induction trades as [|t trades IH]; intro acc; simpl; [reflexivity|].
  destruct (Binary64.trade_status t =? "CONFIRMED")%string eqn:Hs; simpl.
  - apply IH.
  - rewrite IH. unfold Binary64.add_trade. rewrite Hs. reflexivity.
Qed.

(** C4, amended.  The loop of [get_pnl], on the binary64 numbers of Python:
    the realized PnL is the sum of [size * (1 - price)] over the confirmed
    sells minus the sum of [size * price] over the confirmed buys, each sum
    added up in the order of the trades and rounded at every step; trades
    of any other status are ignored.  For a confirmed buy of 10 at 0.40
    and a confirmed sell of 10 at 0.70 the result is -0.9999999999999996,
    the formula giving -1 in exact arithmetic. *)
Theorem realized_pnl_binary64 (trades : list Binary64.trade) :
  Forall (fun t => Binary64.trade_status t = "CONFIRMED" ->
                   Binary64.trade_side t = "buy" \/ Binary64.trade_side t = "sell")
    trades ->
  Binary64.realized_pnl trades = Binary64.spec_realized_pnl trades /\
  Binary64.realized_pnl trades
  = Binary64.realized_pnl
      (filter (fun t => (Binary64.trade_status t =? "CONFIRMED")%string) trades) /\
  Binary64.realized_pnl Binary64.fills = Binary64.just_above_minus_one /\
  Binary64.just_above_minus_one = (-1 + 0x1p-51)%float /\
  spec_realized_pnl Sample.fills == -1.
Proof.
  intro HF. split; [|split; [|split; [|split]]].
  - unfold Binary64.realized_pnl, Binary64.sum_trades, Binary64.spec_realized_pnl,
      Binary64.running_sum.
    destruct (binary64_fold_add_trade trades
                {| Binary64.buy_volume := 0%float; Binary64.buy_cost := 0%float;
                   Binary64.sell_volume := 0%float; Binary64.sell_revenue := 0%float |})
      as [Hs Hb].
    cbv zeta. rewrite Hs, Hb, (binary64_confirmed_sells _ HF). reflexivity.
  - unfold Binary64.realized_pnl, Binary64.sum_trades. cbv zeta.
    rewrite binary64_unconfirmed_skipped. reflexivity.
  - vm_compute. reflexivity.
  - vm_compute. reflexivity.
  - vm_compute. reflexivity.
Qed.

(** The two fills of the example, listed after a fill that is not
    confirmed. *)
Lemma realized_pnl_binary64_witness :
  Forall (fun t => Binary64.trade_status t = "CONFIRMED" ->
                   Binary64.trade_side t = "buy" \/ Binary64.trade_side t = "sell")
    Binary64.fills_after_pending /\
  Binary64.realized_pnl Binary64.fills_after_pending = Binary64.just_above_minus_one.
Proof.
  assert (H : Forall (fun t => Binary64.trade_status t = "CONFIRMED" ->
                               Binary64.trade_side t = "buy" \/
                               Binary64.trade_side t = "sell")
                Binary64.fills_after_pending).
  { apply Forall_cons; [intro Hs; discriminate|].
    apply Forall_cons; [intros _; left; reflexivity|].
    apply Forall_cons; [intros _; right; reflexivity|]. apply Forall_nil. }
  split; [exact H|].
  destruct (realized_pnl_binary64 Binary64.fills_after_pending H) as [_ [Hskip _]].
  rewrite Hskip. vm_compute. reflexivity.
Defined.

(** C4 as stated fails: for one confirmed buy of 10 at 0.40 and one
    confirmed sell of 10 at 0.70 the realized PnL that Python computes is
    not -1.0. *)
Lemma realized_pnl_not_minus_one :
  Binary64.realized_pnl Binary64.fills <> (-1)%float /\
  (Binary64.realized_pnl Binary64.fills =? -1)%float = false /\
  (-1 <? Binary64.realized_pnl Binary64.fills)%float = true.
Proof.
  split; [|split; vm_compute; reflexivity].
  intro H. apply (f_equal (fun x => (x =? -1)%float)) in H.
  vm_compute in H. discriminate.
Qed.

(** ** More on the PnL tracker *)

Lemma sum_trades_booked (trades : list trade) :
  sell_revenue (sum_trades trades) - buy_cost (sum_trades trades)
  == booked_realized_pnl trades.
Proof.
  unfold sum_trades, booked_realized_pnl.
  destruct (fold_add_trade_totals trades
              {| buy_volume := 0; buy_cost := 0; sell_volume := 0; sell_revenue := 0 |})
    as [Hs Hb].
  rewrite Hs, Hb. simpl. rewrite !Qplus_0_l. reflexivity.
Qed.

Lemma sum_trades_none_confirmed (trades : list trade) :
  Forall (fun t => trade_status t <> "CONFIRMED") trades ->
  forall acc, fold_left add_trade trades acc = acc.
Proof.
  induction 1 as [|t trades Ht _ IH]; intro acc; simpl; [reflexivity|].
  rewrite IH. unfold add_trade.
  destruct (trade_status t =? "CONFIRMED")%string eqn:Hs; [|reflexivity].
  apply String.eqb_eq in Hs. contradiction.
Qed.

Section PnlMore.

Variable E : Type.
Variable client : ClobClient E.

Lemma get_pnl_appends (s : state E) (trades : list trade) :
  trades_fetched client s trades ->
  pnl_history (snd (get_pnl client s))
  = pnl_history s ++ [pnl_snapshot trades (clock s)].
Proof.
  intros [address [x1 [x2 [Ha Ht]]]].
  rewrite (get_pnl_fetched E client _ _ _ _ _ Ha Ht). reflexivity.
Qed.

(** X15.  [get_pnl] books every confirmed trade whose side is not exactly
    ['buy'] as a sell, whatever its side says: the realized PnL is the sum
    of [size * (1 - price)] over those trades minus the sum of
    [size * price] over the confirmed trades of side ['buy']. *)
Theorem get_pnl_books_other_sides_as_sells (s : state E) (trades : list trade) :
  trades_fetched client s trades ->
  exists snap,
    pnl_history (snd (get_pnl client s)) = pnl_history s ++ [snap] /\
    realized_pnl snap == booked_realized_pnl trades.
Proof.
  intro Hf. exists (pnl_snapshot trades (clock s)).
  split; [apply get_pnl_appends, Hf|].
  unfold pnl_snapshot. cbn [realized_pnl]. apply sum_trades_booked.
Qed.

(** X17.  When none of the retrieved trades is confirmed, and so when there
    is no trade at all, the snapshot appended has realized PnL, rewards and
    total PnL zero. *)
Theorem get_pnl_none_confirmed (s : state E) (trades : list trade) :
  trades_fetched client s trades ->
  Forall (fun t => trade_status t <> "CONFIRMED") trades ->
  exists snap,
    pnl_history (snd (get_pnl client s)) = pnl_history s ++ [snap] /\
    realized_pnl snap = 0 /\ rewards snap = 0 /\ total_pnl snap = 0.
Proof.
  intros Hf Hnone. exists (pnl_snapshot trades (clock s)).
  split; [apply get_pnl_appends, Hf|].
  unfold pnl_snapshot, sum_trades. rewrite (sum_trades_none_confirmed _ Hnone).
  repeat split.
Qed.

End PnlMore.

Lemma shouting_trades_fetched :
  trades_fetched (Scenario.with_trades Scenario.shouting_fills []) Sample.start
    Scenario.shouting_fills.
Proof. exists "0xabc", 0%nat, 0%nat. split; reflexivity. Defined.

(** A confirmed trade of side ['BUY'], size 10 at 0.40, is booked as a sell:
    the realized PnL is 6. *)
Lemma get_pnl_books_other_sides_as_sells_witness :
  trades_fetched (Scenario.with_trades Scenario.shouting_fills []) Sample.start
    Scenario.shouting_fills /\
  exists snap,
    pnl_history (snd (get_pnl (Scenario.with_trades Scenario.shouting_fills [])
                        Sample.start)) = [snap] /\
    realized_pnl snap == 6.
Proof.
  split; [exact shouting_trades_fetched|].
  destruct (get_pnl_books_other_sides_as_sells Scenario.E
              (Scenario.with_trades Scenario.shouting_fills []) Sample.start
              Scenario.shouting_fills shouting_trades_fetched) as [snap [Hh Hr]].
  exists snap. split; [exact Hh|]. rewrite Hr. vm_compute. reflexivity.
Defined.

Lemma get_pnl_none_confirmed_witness :
  trades_fetched (Scenario.with_trades Scenario.pending_fills []) Sample.start
    Scenario.pending_fills /\
  Forall (fun t => trade_status t <> "CONFIRMED") Scenario.pending_fills /\
  exists snap,
    pnl_history (snd (get_pnl (Scenario.with_trades Scenario.pending_fills [])
                        Sample.start)) = [snap] /\
    realized_pnl snap = 0.
Proof.
  assert (H1 : trades_fetched (Scenario.with_trades Scenario.pending_fills [])
                 Sample.start Scenario.pending_fills)
    by (exists "0xabc", 0%nat, 0%nat; split; reflexivity).
  assert (H2 : Forall (fun t => trade_status t <> "CONFIRMED") Scenario.pending_fills)
    by (repeat constructor; discriminate).
  split; [exact H1|]. split; [exact H2|].
  destruct (get_pnl_none_confirmed Scenario.E _ _ _ H1 H2) as [snap [Hh [Hr _]]].
  exists snap. split; assumption.
Defined.

(** ** The PnL history over the life of the bot *)

Lemma StronglySorted_snoc (l : list Z) (x : Z) :
  StronglySorted Z.le l -> Forall (fun y => (y <= x)%Z) l ->
  StronglySorted Z.le (l ++ [x]).
Proof.
  induction 1 as [|y l _ IH Hy]; intro Hall; simpl.
  - constructor; constructor.
  - inversion Hall; subst. constructor; [apply IH; assumption|].
    apply Forall_app. split; [exact Hy | constructor; [assumption | constructor]].
Qed.

Section History.

Variable E : Type.
Variable client : ClobClient E.
Variable get_market_min_size : string -> E -> result Q * E.

(** A call leaves the PnL history as it is or appends the snapshot of some
    list of trades, taken at the time of the call. *)
Lemma exec_pnl_history (m : method) (s s' : state E) :
  exec client get_market_min_size m s = Some s' ->
  pnl_history s' = pnl_history s \/
  exists trades, pnl_history s' = pnl_history s ++ [pnl_snapshot trades (clock s)].
Proof.
  destruct m as [ | | mk tk | mk tk sd sz pr fee | oid | mk tk risk spread dur | | ];
    cbn [exec]; intro Hexec.
  - injection Hexec as <-. left. apply create_api_key_same_bot.
  - injection Hexec as <-. left. apply get_active_markets_keeps_pnl_history.
  - injection Hexec as <-. left. apply get_mid_price_keeps. reflexivity.
  - injection Hexec as <-. left. apply place_limit_order_keeps_pnl_history.
  - injection Hexec as <-. left. apply cancel_order_keeps_pnl_history.
  - destruct (run_strategy client get_market_min_size mk tk risk spread dur s)
      as [[r s1]|] eqn:Hrun; [|discriminate].
    cbn [option_map snd] in Hexec. injection Hexec as <-. left.
    eapply (run_strategy_keeps E client get_market_min_size pnl_history); try exact Hrun.
    + reflexivity.
    + reflexivity.
    + apply cancel_order_keeps_pnl_history.
    + intros. apply place_limit_order_keeps_pnl_history.
  - injection Hexec as <-.
    destruct (client_get_address client (exch s)) as [[address|e] x1] eqn:Ha.
    + destruct (client_get_trades client address x1) as [[trades|e] x2] eqn:Ht.
      * right. exists trades. rewrite (get_pnl_fetched E client _ _ _ _ _ Ha Ht). reflexivity.
      * left. apply get_pnl_failed.
        intros [trades [a [y1 [y2 [Ha' Ht']]]]].
        rewrite Ha in Ha'. injection Ha' as <- <-. rewrite Ht in Ht'. discriminate.
    + left. apply get_pnl_failed.
      intros [trades [a [y1 [y2 [Ha' _]]]]]. rewrite Ha in Ha'. discriminate.
  - injection Hexec as <-. left. reflexivity.
Qed.

(** No call sets the clock back. *)
Lemma exec_clock (m : method) (s s' : state E) :
  exec client get_market_min_size m s = Some s' -> (clock s <= clock s')%Z.
Proof.
  destruct m as [ | | mk tk | mk tk sd sz pr fee | oid | mk tk risk spread dur | | ];
    cbn [exec]; intro Hexec.
  - injection Hexec as <-.
    destruct (create_api_key_same_bot E client s) as [_ [_ [_ [Hc _]]]]. lia.
  - injection Hexec as <-. rewrite (get_active_markets_keeps_clock E client s). lia.
  - injection Hexec as <-.
    rewrite (get_mid_price_keeps E client clock mk tk (fun _ _ => eq_refl) s). lia.
  - injection Hexec as <-.
    rewrite (place_limit_order_keeps_clock E client get_market_min_size _ _ _ _ _ _ s). lia.
  - injection Hexec as <-. rewrite (cancel_order_keeps_clock E client oid s). lia.
  - destruct (run_strategy_unfolded E client get_market_min_size mk tk risk spread dur s)
      as [sl [s1 [Hb [_ [Hrun [Hc _]]]]]].
    rewrite Hrun in Hexec. cbn [option_map snd] in Hexec. injection Hexec as <-.
    destruct (between_cycles_progress E client get_market_min_size _ _ _ _ _ _ _ Hb)
      as [k [Hk _]].
    cbn [fst] in Hk. lia.
  - injection Hexec as <-. rewrite (get_pnl_keeps_clock E client s). lia.
  - injection Hexec as <-. cbn [snd get_rewards_total ret]. lia.
Qed.

(** X18.  Every snapshot the bot ever holds has rewards zero, the placeholder
    of [get_rewards_total], and so a total PnL equal to its realized PnL. *)
Theorem snapshots_without_rewards (s : state E) :
  reachable client get_market_min_size s ->
  Forall (fun snap => rewards snap = 0 /\ total_pnl snap == realized_pnl snap)
    (pnl_history s).
Proof.
  induction 1 as [e now|s m s' _ IH Hexec].
  - constructor.
  - destruct (exec_pnl_history m s s' Hexec) as [-> | [trades ->]]; [exact IH|].
    apply Forall_app. split; [exact IH|]. constructor; [|constructor].
    unfold pnl_snapshot. cbn [rewards total_pnl realized_pnl].
    split; [reflexivity | ring].
Qed.

(** X19.  The PnL history is in time order: the timestamps of its
    snapshots never decrease along the list, and none lies after the
    current time. *)
Theorem pnl_history_in_time_order (s : state E) :
  reachable client get_market_min_size s ->
  StronglySorted Z.le (map timestamp (pnl_history s)) /\
  Forall (fun snap => (timestamp snap <= clock s)%Z) (pnl_history s).
Proof.
  induction 1 as [e now|s m s' _ [IHs IHb] Hexec].
  - split; constructor.
  - pose proof (exec_clock m s s' Hexec) as Hclock.
    assert (Hb : Forall (fun snap => (timestamp snap <= clock s')%Z) (pnl_history s)).
    { eapply Forall_impl; [|exact IHb]. cbv beta. intros snap Hs. lia. }
    destruct (exec_pnl_history m s s' Hexec) as [-> | [trades ->]].
    + split; assumption.
    + split.
      * rewrite map_app. apply StronglySorted_snoc; [exact IHs|].
        apply Forall_map. exact IHb.
      * apply Forall_app. split; [exact Hb|]. constructor; [|constructor].
        cbn [pnl_snapshot timestamp]. exact Hclock.
Qed.

End History.

(** ** Markets and API keys *)

Lemma substring_whole (s : string) :
  forall n, (String.length s <= n)%nat -> substring 0 n s = s.
Proof.
  induction s as [|c s IH]; intros n Hn.
  - destruct n; reflexivity.
  - destruct n as [|n]; simpl in Hn; [lia|].
    simpl. rewrite IH by lia. reflexivity.
Qed.

Lemma substring_tail (s : string) :
  forall k, (k <= String.length s)%nat ->
            exists pre,
              String.length pre = k /\
              s = (pre ++ substring k (String.length s - k) s)%string.
Proof.
  induction s as [|c s IH]; intros k Hk.
  - simpl in Hk. assert (k = 0%nat) by lia. subst k. exists "". split; reflexivity.
  - destruct k as [|k].
    + exists "". split; [reflexivity|].
      rewrite Nat.sub_0_r, substring_whole by lia. reflexivity.
    + simpl in Hk. destruct (IH k) as [pre [Hlen Heq]]; [lia|].
      exists (String c pre). split; [simpl; lia|].
      cbn [String.length Nat.sub substring append]. rewrite <- Heq. reflexivity.
Qed.

Lemma length_append (s1 s2 : string) :
  String.length (s1 ++ s2) = (String.length s1 + String.length s2)%nat.
Proof. induction s1 as [|c s1 IH]; simpl; [reflexivity | rewrite IH; reflexivity]. Qed.

(** [s[-n:]] is the end of [s], [n] characters long, or all of [s]. *)
Lemma last_chars_suffix (n : nat) (s : string) :
  (exists pre, s = (pre ++ last_chars n s)%string) /\
  String.length (last_chars n s) = Nat.min n (String.length s).
Proof.
  unfold last_chars.
  destruct (Nat.le_gt_cases n (String.length s)) as [Hle|Hgt].
  - destruct (substring_tail s (String.length s - n)) as [pre [Hlen Heq]]; [lia|].
    replace (String.length s - (String.length s - n))%nat with n in Heq by lia.
    split; [exists pre; exact Heq|].
    apply (f_equal String.length) in Heq. rewrite length_append in Heq. lia.
  - replace (String.length s - n)%nat with 0%nat by lia.
    rewrite substring_whole by lia.
    split; [exists ""; reflexivity | lia].
Qed.

Section Markets.

Variable E : Type.
Variable client : ClobClient E.

(** X20.  [get_active_markets] never raises.  When the client answers, the
    markets it lists replace the stored ones and are returned, in the same
    order, each with its condition id and outcomes and with a fresh
    description that shows the end of the condition id, six characters at
    most.  When the client raises, the call returns the empty list and the
    stored markets stay as they were. *)
Theorem get_active_markets_outcome (s : state E) :
  (forall data x,
      client_get_sampling_simplified_markets client (exch s) = (Ok data, x) ->
      exists ms,
        get_active_markets client s = (Ok ms, set_markets ms (set_exch x s)) /\
        Forall2 (fun m m' =>
                   condition_id m' = condition_id m /\
                   outcomes m' = outcomes m /\
                   description m' = Some (description_of m))
          data ms /\
        Forall (fun m =>
                  (exists pre, condition_id m = (pre ++ last_chars 6 (condition_id m))%string)
                  /\ (String.length (last_chars 6 (condition_id m)) <= 6)%nat)
          data) /\
  (forall e x,
      client_get_sampling_simplified_markets client (exch s) = (Raise e, x) ->
      get_active_markets client s = (Ok [], set_exch x s) /\
      markets (set_exch x s) = markets s).
Proof.
  split.
  - intros data x Hc. exists (map describe data). split; [|split].
    + unfold get_active_markets, try_except, bind, call, modify, gets, ret.
      rewrite Hc. reflexivity.
    + clear Hc. induction data as [|m data IH]; simpl; constructor; [|exact IH].
      repeat split.
    + apply Forall_forall. intros m _.
      destruct (last_chars_suffix 6 (condition_id m)) as [Hpre Hlen].
      split; [exact Hpre | lia].
  - intros e x Hc. split; [|reflexivity].
    unfold get_active_markets, try_except, bind, call. rewrite Hc. reflexivity.
Qed.

(** X21.  [create_api_key] never raises: it returns the credentials when
    the client answers and [None] when the client raises, and changes
    nothing of the bot. *)
Theorem create_api_key_outcome (s : state E) :
  same_bot s (snd (create_api_key client s)) /\
  (forall creds x,
      client_create_api_key client (exch s) = (Ok creds, x) ->
      fst (create_api_key client s) = Ok (Some creds)) /\
  (forall e x,
      client_create_api_key client (exch s) = (Raise e, x) ->
      fst (create_api_key client s) = Ok None).
Proof.
  split; [apply create_api_key_same_bot|].
  unfold create_api_key, try_except, bind, call, ret.
  split; intros a x Hc; rewrite Hc; reflexivity.
Qed.

End Markets.

(** ** The market search of the dashboard *)

Lemma prefix_refl (s : string) : prefix s s = true.
Proof.
  induction s as [|c s IH]; simpl; [reflexivity|].
  destruct (Ascii.ascii_dec c c) as [_|Hne]; [exact IH | contradiction].
Qed.

Lemma contains_refl (s : string) : contains s s = true.
Proof.
  destruct s as [|c s]; [reflexivity|].
  change (contains (String c s) (String c s))
    with (prefix (String c s) (String c s) || contains (String c s) s).
  rewrite prefix_refl. reflexivity.
Qed.

Lemma filter_all {A : Type} (f : A -> bool) (l : list A) :
  (forall a, f a = true) -> filter f l = l.
Proof.
  intro H. induction l as [|a l IH]; simpl; [reflexivity|]. rewrite H, IH. reflexivity.
Qed.

Section SearchFacts.

Variable lower : string -> string.

(** X22.  The market search of the dashboard.  Without a search text, and
    with the empty one, the dropdown lists every market, in the order of
    the market list.  A search never lists anything that is not an option
    of the full dropdown.  And it is blind to letter case: searching for the
    name of a listed market, in any spelling that lowers to the same text,
    lists that market. *)
Theorem filtered_options_sound (md : list market_entry) (search_query : option string) :
  filtered_options lower md None = dropdown_options md /\
  filtered_options lower md (Some "") = dropdown_options md /\
  (exists kept,
      filtered_options lower md search_query = map option_of kept /\
      incl kept md /\
      (List.length kept <= List.length md)%nat) /\
  incl (filtered_options lower md search_query) (dropdown_options md) /\
  (forall m q,
      In m md ->
      lower q = lower (entry_name m) ->
      In (option_of m) (filtered_options lower md (Some q))).
Proof.
  split; [|split; [|split; [|split]]].
  - unfold filtered_options, dropdown_options. rewrite filter_all; reflexivity.
  - unfold filtered_options, dropdown_options. rewrite filter_all; reflexivity.
  - exists (filter (matches_query lower search_query) md).
    split; [reflexivity|]. split.
    + intros m Hin. apply filter_In in Hin. apply Hin.
    + apply filter_length_le.
  - intros o Hin. unfold filtered_options in Hin. apply in_map_iff in Hin.
    destruct Hin as [m [<- Hm]]. apply filter_In in Hm.
    apply in_map. apply Hm.
  - intros m q Hin Hq. unfold filtered_options. apply in_map.
    apply filter_In. split; [exact Hin|].
    unfold matches_query. destruct (truthy_str (Some q)); [|reflexivity].
    rewrite Hq. apply contains_refl.
Qed.

End SearchFacts.

Lemma filtered_options_sound_witness :
  In {| entry_id := "0x12345678"; entry_name := "Yes vs No";
        entry_full_info := hd {| condition_id := ""; outcomes := []; description := None |}
                             Scenario.listed |}
     (market_data Scenario.listed) /\
  lower_ascii "YES VS no" = lower_ascii "Yes vs No" /\
  In {| option_label := "Yes vs No (Market 345678)"; option_value := "0x12345678" |}
     (filtered_options lower_ascii (market_data Scenario.listed) (Some "YES VS no")).
Proof.
  assert (H1 : In {| entry_id := "0x12345678"; entry_name := "Yes vs No";
                     entry_full_info :=
                       hd {| condition_id := ""; outcomes := []; description := None |}
                          Scenario.listed |}
                  (market_data Scenario.listed))
    by (left; reflexivity).
  assert (H2 : lower_ascii "YES VS no" = lower_ascii "Yes vs No") by reflexivity.
  split; [exact H1|]. split; [exact H2|].
  destruct (filtered_options_sound lower_ascii (market_data Scenario.listed)
              (Some "YES VS no")) as [_ [_ [_ [_ Hfind]]]].
  exact (Hfind _ "YES VS no" H1 H2).
Defined.

(** ** The further properties at work on the sample exchanges *)

Lemma run_strategy_no_duration_witness :
  0 <= 0 /\
  run_strategy Sample.steady Sample.min_size "m" "t" 20 0.03 0 Sample.one_order
  = Some (Ok tt, Sample.one_order).
Proof.
  assert (H : 0 <= 0) by discriminate.
  split; [exact H|].
  exact (run_strategy_no_duration Sample.E Sample.steady Sample.min_size "m" "t" 20 0.03 0
           Sample.one_order H).
Defined.

(** A book whose only order is an ask at price zero has mid price zero;
    the cycle then leaves the registry alone. *)
Lemma strategy_cycle_skips_at_zero_witness :
  fst (get_mid_price (Scenario.with_book Scenario.free_ask_book) "m" "t"
         (fst (Sample.one_order, Sample.no_quotes))) = Ok ((0 + 0) / 2) /\
  (0 + 0) / 2 == 0 /\
  exists s',
    strategy_cycle (Scenario.with_book Scenario.free_ask_book) Sample.min_size
      "m" "t" 10 0.03 (Sample.one_order, Sample.no_quotes)
    = (Ok tt, (s', Sample.no_quotes)) /\
    orders s' = orders Sample.one_order.
Proof.
  assert (H1 : fst (get_mid_price (Scenario.with_book Scenario.free_ask_book) "m" "t"
                      (fst (Sample.one_order, Sample.no_quotes))) = Ok ((0 + 0) / 2))
    by reflexivity.
  assert (H2 : (0 + 0) / 2 == 0) by reflexivity.
  split; [exact H1|]. split; [exact H2|].
  destruct (strategy_cycle_skips_at_zero Scenario.E
              (Scenario.with_book Scenario.free_ask_book) Sample.min_size "m" "t" 10 0.03
              (Sample.one_order, Sample.no_quotes) ((0 + 0) / 2) H1 H2)
    as [s' [Hrun [Ho _]]].
  exists s'. split; [exact Hrun | exact Ho].
Defined.

Lemma methods_frame_witness :
  exec Sample.steady Sample.min_size GetPnl Sample.start = Some one_snapshot /\
  method_frame GetPnl Sample.start one_snapshot.
Proof.
  assert (H : exec Sample.steady Sample.min_size GetPnl Sample.start = Some one_snapshot)
    by reflexivity.
  split; [exact H|].
  exact (methods_frame Sample.E Sample.steady Sample.min_size GetPnl Sample.start
           one_snapshot H).
Defined.

Lemma two_snapshots_reachable : reachable Sample.steady Sample.min_size two_snapshots.
Proof.
  apply reachable_step with (s := after_run) (m := GetPnl); [|reflexivity].
  apply reachable_step
    with (s := one_snapshot) (m := RunStrategy "m" "t" 20 0.03 1);
    [|vm_compute; reflexivity].
  apply reachable_step with (s := Sample.start) (m := GetPnl); [|reflexivity].
  apply reachable_init.
Defined.

Lemma snapshots_without_rewards_witness :
  reachable Sample.steady Sample.min_size two_snapshots /\
  Forall (fun snap => rewards snap = 0 /\ total_pnl snap == realized_pnl snap)
    (pnl_history two_snapshots).
Proof.
  split; [exact two_snapshots_reachable|].
  exact (snapshots_without_rewards Sample.E Sample.steady Sample.min_size two_snapshots
           two_snapshots_reachable).
Defined.

(** Two snapshots, taken before and after a one-minute run. *)
Lemma pnl_history_in_time_order_witness :
  reachable Sample.steady Sample.min_size two_snapshots /\
  map timestamp (pnl_history two_snapshots) = [0; 60]%Z /\
  StronglySorted Z.le (map timestamp (pnl_history two_snapshots)).
Proof.
  split; [exact two_snapshots_reachable|]. split; [vm_compute; reflexivity|].
  destruct (pnl_history_in_time_order Sample.E Sample.steady Sample.min_size two_snapshots
              two_snapshots_reachable) as [Hs _].
  exact Hs.
Defined.

Lemma get_active_markets_outcome_witness :
  client_get_sampling_simplified_markets (Scenario.with_markets Scenario.listed)
    (exch Sample.start) = (Ok Scenario.listed, 0%nat) /\
  exists ms,
    get_active_markets (Scenario.with_markets Scenario.listed) Sample.start
    = (Ok ms, set_markets ms (set_exch 0%nat Sample.start)) /\
    Forall2 (fun m m' =>
               condition_id m' = condition_id m /\
               outcomes m' = outcomes m /\
               description m' = Some (description_of m))
      Scenario.listed ms.
Proof.
  split; [reflexivity|].
  destruct (get_active_markets_outcome Scenario.E (Scenario.with_markets Scenario.listed)
              Sample.start) as [Hok _].
  destruct (Hok Scenario.listed 0%nat eq_refl) as [ms [Hrun [Hall _]]].
  exists ms. split; [exact Hrun | exact Hall].
Defined.

Lemma create_api_key_outcome_witness :
  client_create_api_key Sample.steady (exch Sample.start) = (Ok "key", 0%nat) /\
  fst (create_api_key Sample.steady Sample.start) = Ok (Some "key") /\
  client_create_api_key Scenario.offline (exch Sample.start) = (Raise "offline", 0%nat) /\
  fst (create_api_key Scenario.offline Sample.start) = Ok None.
Proof.
  split; [reflexivity|]. split.
  - destruct (create_api_key_outcome Sample.E Sample.steady Sample.start) as [_ [Hok _]].
    exact (Hok "key" 0%nat eq_refl).
  - split; [reflexivity|].
    destruct (create_api_key_outcome Scenario.E Scenario.offline Sample.start)
      as [_ [_ Hno]].
    exact (Hno "offline" 0%nat eq_refl).
Defined.

(** A run of a tenth of a minute makes one cycle and returns thirty
    seconds after its start. *)
Lemma run_strategy_completes_witness :
  exists s',
    run_strategy Sample.steady missing_get_market_min_size "m" "t" 20 0.03 0.1
      Sample.start = Some (Ok tt, s') /\
    clock s' = 30%Z.
Proof.
  destruct (run_strategy_completes Sample.E Sample.steady missing_get_market_min_size
              "m" "t" 20 0.03 0.1 Sample.start) as [_ [s' [k [Hrun _]]]].
  exists s'. split; [exact Hrun|].
  assert (Hc : option_map (fun rs => clock (snd rs))
                 (run_strategy Sample.steady missing_get_market_min_size "m" "t" 20 0.03
                    0.1 Sample.start) = Some 30%Z) by (vm_compute; reflexivity).
  rewrite Hrun in Hc. cbn [option_map snd] in Hc. injection Hc as Hc. exact Hc.
Defined.

(** A run of three quarters of a minute on a bot completed with a
    minimum-size method makes two cycles and appends four entries, which
    is the bound. *)
Lemma run_strategy_order_bound_witness :
  exists s',
    run_strategy Sample.steady Sample.min_size "m" "t" 20 0.03 0.75 Sample.start
    = Some (Ok tt, s') /\
    List.length (orders s') = 4%nat /\
    (Z.of_nat (List.length (orders s'))
     <= Z.of_nat (List.length (orders Sample.start))
        + 2 * Z.max 0 (Qceiling (2 * 0.75)))%Z.
Proof.
  destruct (run_strategy_order_bound Sample.E Sample.steady Sample.min_size
              "m" "t" 20 0.03 0.75 Sample.start) as [s' [Hrun [_ Hle]]].
  exists s'. split; [exact Hrun|]. split; [|exact Hle].
  assert (Hc : option_map (fun rs => List.length (orders (snd rs)))
                 (run_strategy Sample.steady Sample.min_size "m" "t" 20 0.03 0.75
                    Sample.start) = Some 4%nat) by (vm_compute; reflexivity).
  rewrite Hrun in Hc. cbn [option_map snd] in Hc. injection Hc as Hc. exact Hc.
Defined.
